(** * mirage-vpn scanner: parameter search engine

    A shallow embedding of the scanner's search core
    ([tools/scanner/config_generator.py], [tester.py], [grid_search.py]),
    of the ranking and the export of [report.py] and of the query strings of
    [uri_parser.py], and the properties of its specification.

    Python dictionaries keep insertion order, which the generators rely on
    (iteration over [winners], the order of emitted test cases, the text of
    descriptions), so a dictionary is an association list with unique keys,
    updated in place or extended at the end. *)

From Stdlib Require Import String Ascii List ZArith Bool Lia QArith Permutation.
From Stdlib Require Import DecimalString Sorted.
Import ListNotations.

Local Open Scope string_scope.
Local Open Scope Z_scope.

(** ** Python values *)

Module Py.

#[local] Set Warnings "-register-all".

Inductive pyval : Type :=
| PNone
| PBool (b : bool)
| PInt (z : Z)
| PStr (s : string)
| PList (l : list pyval)
| PDict (d : list (string * pyval)).

Definition dict : Type := list (string * pyval).

(** Exceptions the modelled code raises. *)
Inductive exn : Type :=
| ValueError (msg : string)
| KeyError (key : string)
| AttributeError (msg : string).

Inductive result (A : Type) : Type :=
| Ok (a : A)
| Raise (e : exn).
Arguments Ok {A} a.
Arguments Raise {A} e.

Definition bind {A B} (m : result A) (k : A -> result B) : result B :=
  match m with
  | Ok a => k a
  | Raise e => Raise e
  end.

Notation "x <- m ;; k" := (bind m (fun x => k))
  (at level 61, m at next level, right associativity).

(** [bool(v)] *)
Definition truthy (v : pyval) : bool :=
  match v with
  | PNone => false
  | PBool b => b
  | PInt z => negb (z =? 0)
  | PStr s => negb (s =? "")%string
  | PList l => match l with [] => false | _ => true end
  | PDict d => match d with [] => false | _ => true end
  end.

(** [a or b] *)
Definition py_or (a b : pyval) : pyval := if truthy a then a else b.

(** [v == "s"] for a string literal; no value of another type equals a
    string. *)
Definition eq_str (v : pyval) (s : string) : bool :=
  match v with
  | PStr s' => (s' =? s)%string
  | _ => false
  end.

(** Dictionary operations, for any type of values: [d.get(k)] as an
    option, [k in d], [d[k] = v] (replaces the value of an existing key where
    it stands, appends a new key) and [d.update(d')]. *)
Fixpoint lookup {V} (d : list (string * V)) (k : string) : option V :=
  match d with
  | [] => None
  | (k', v) :: d' => if (k' =? k)%string then Some v else lookup d' k
  end.

Definition mem {V} (k : string) (d : list (string * V)) : bool :=
  match lookup d k with Some _ => true | None => false end.

Fixpoint set {V} (d : list (string * V)) (k : string) (v : V)
  : list (string * V) :=
  match d with
  | [] => [(k, v)]
  | (k', v') :: d' =>
      if (k' =? k)%string then (k', v) :: d' else (k', v') :: set d' k v
  end.

Definition update {V} (d d' : list (string * V)) : list (string * V) :=
  fold_left (fun acc kv => set acc (fst kv) (snd kv)) d' d.

(** [d.get(k, default)], [d.get(k)] with Python's [None], and [d[k]]. *)
Definition get_or (d : dict) (k : string) (default : pyval) : pyval :=
  match lookup d k with Some v => v | None => default end.

Definition get (d : dict) (k : string) : pyval := get_or d k PNone.

Definition index (d : dict) (k : string) : result pyval :=
  match lookup d k with Some v => Ok v | None => Raise (KeyError k) end.

(** [sep.join(parts)] *)
Fixpoint join (sep : string) (parts : list string) : string :=
  match parts with
  | [] => ""
  | [p] => p
  | p :: rest => p ++ sep ++ join sep rest
  end.

Definition str_of_Z (z : Z) : string := NilZero.string_of_int (Z.to_int z).

(** [repr(v)] and [str(v)].  A string is quoted with single quotes; Python
    escapes quotes, backslashes and control characters, which none of the
    strings of the parameter space contains. *)
Fixpoint repr (v : pyval) : string :=
  match v with
  | PNone => "None"
  | PBool true => "True"
  | PBool false => "False"
  | PInt z => str_of_Z z
  | PStr s => "'" ++ s ++ "'"
  | PList l => "[" ++ join ", " (map repr l) ++ "]"
  | PDict d =>
      "{" ++ join ", " (map (fun kv => "'" ++ fst kv ++ "': " ++ repr (snd kv)) d)
          ++ "}"
  end.

Definition str (v : pyval) : string :=
  match v with
  | PStr s => s
  | _ => repr v
  end.

(** [s.split(",")] *)
Fixpoint split_comma (s : string) : list string :=
  match s with
  | EmptyString => [""%string]
  | String c rest =>
      if Ascii.eqb c ","%char then ""%string :: split_comma rest
      else match split_comma rest with
           | h :: t => String c h :: t
           | [] => [String c ""]
           end
  end.

(** [alpn_str.split(",") if alpn_str else []]: only a string has [split]. *)
Definition split_if_truthy (v : pyval) : result pyval :=
  if truthy v then
    match v with
    | PStr s => Ok (PList (map PStr (split_comma s)))
    | _ => Raise (AttributeError "object has no attribute 'split'")
    end
  else Ok (PList []).

End Py.

(** ** Parameter space, document builder and override generators
    ([config_generator.py]) *)

Module ConfigGenerator.
Import Py.

Definition PARAM_SPACE : list (string * list pyval) :=
  [ ("fragment_length",
      map PStr ["1-1"; "10-20"; "50-100"; "100-200"; "200-400"; "517-517"]);
    ("fragment_interval", map PStr ["1-1"; "2-5"; "5-10"; "10-20"; "20-50"]);
    ("fragment_packets", map PStr ["tlshello"; "1-2"; "1-3"; "1-5"]);
    ("fingerprint",
      map PStr ["chrome"; "firefox"; "safari"; "edge"; "qq"; "random"; "ios";
                "android"]);
    ("alpn",
      [ PList [PStr "h2"]; PList [PStr "http/1.1"];
        PList [PStr "h2"; PStr "http/1.1"] ]);
    ("ech_enabled", [PBool true; PBool false]);
    ("ech_dns", [PBool true; PBool false]);
    ("tcp_no_delay", [PBool true; PBool false]);
    ("tcp_fast_open", [PBool true; PBool false]);
    ("mptcp", [PBool true; PBool false]);
    ("tcp_keep_alive", [PInt 0; PInt 15; PInt 30; PInt 60]);
    ("domain_strategy", map PStr ["AsIs"; "UseIP"; "UseIPv4"]);
    ("transport", map PStr ["ws"; "xhttp"; "tcp"; "grpc"; "h2"]);
    ("xhttp_mode", map PStr ["auto"; "packet-up"; "stream-up"]) ].

Definition PARAM_GROUPS : list (string * list string) :=
  [ ("fragment_length", ["fragment_length"]);
    ("fragment_interval", ["fragment_interval"]);
    ("fragment_packets", ["fragment_packets"]);
    ("fingerprint", ["fingerprint"]);
    ("alpn", ["alpn"]);
    ("ech", ["ech_enabled"; "ech_dns"]);
    ("socket_options",
      ["tcp_no_delay"; "tcp_fast_open"; "mptcp"; "tcp_keep_alive";
       "domain_strategy"]);
    ("transport", ["transport"; "xhttp_mode"]) ].

Definition QUICK_PARAMS : list string :=
  ["fragment_length"; "fragment_interval"; "fragment_packets"; "fingerprint";
   "alpn"].

(** [PARAM_GROUPS.get(group_name, [group_name])] *)
Definition group_keys (group_name : string) : list string :=
  match lookup PARAM_GROUPS group_name with
  | Some keys => keys
  | None => [group_name]
  end.

(** [_apply_sockopt(stream, overrides, config)]; [config] is [None] when
    the caller leaves it out.  The stream dictionary is updated in place in
    the source; here the updated dictionary is returned. *)
Definition _apply_sockopt (stream overrides : dict) (config : option dict)
  : dict :=
  let cfg : dict :=
    match config with
    | Some c => if truthy (PDict c) then c else []
    | None => []
    end in
  let frag_len :=
    get_or overrides "fragment_length" (get cfg "fragment_length") in
  let frag_int :=
    get_or overrides "fragment_interval" (get cfg "fragment_interval") in
  let frag_pkt :=
    get_or overrides "fragment_packets" (get cfg "fragment_packets") in
  let sockopt : dict := [] in
  let sockopt :=
    if truthy frag_len || truthy frag_int || truthy frag_pkt then
      set sockopt "fragment"
        (PDict [ ("packets", py_or frag_pkt (PStr "tlshello"));
                 ("length", py_or frag_len (PStr "100-200"));
                 ("interval", py_or frag_int (PStr "10-20")) ])
    else sockopt in
  let sockopt :=
    if mem "tcp_no_delay" overrides
    then set sockopt "tcpNoDelay" (get overrides "tcp_no_delay")
    else sockopt in
  let sockopt :=
    if mem "tcp_fast_open" overrides
    then set sockopt "tcpFastOpen" (get overrides "tcp_fast_open")
    else sockopt in
  let sockopt :=
    if mem "mptcp" overrides
    then set sockopt "tcpMptcp" (get overrides "mptcp")
    else sockopt in
  let sockopt :=
    if mem "tcp_keep_alive" overrides
    then set sockopt "tcpKeepAliveInterval" (get overrides "tcp_keep_alive")
    else sockopt in
  let sockopt :=
    if mem "domain_strategy" overrides
    then set sockopt "domainStrategy" (get overrides "domain_strategy")
    else sockopt in
  if truthy (PDict sockopt) then set stream "sockopt" (PDict sockopt)
  else stream.

(** The transport block of [_build_stream_settings]. *)
Definition transport_settings (config overrides stream : dict)
  (transport : pyval) : dict :=
  if eq_str transport "ws" then
    let headers : dict :=
      if truthy (get config "host") then [("Host", get config "host")]
      else [] in
    set stream "wsSettings"
      (PDict [ ("path", get_or config "path" (PStr "/"));
               ("headers", PDict headers) ])
  else if eq_str transport "grpc" then
    set stream "grpcSettings"
      (PDict [ ("serviceName", get_or config "path" (PStr "")) ])
  else if eq_str transport "h2" then
    let h2_settings : dict := [ ("path", get_or config "path" (PStr "/")) ] in
    let h2_settings :=
      if truthy (get config "host")
      then set h2_settings "host" (PList [get config "host"])
      else h2_settings in
    set stream "httpSettings" (PDict h2_settings)
  else if eq_str transport "xhttp" then
    let xhttp_settings : dict :=
      [ ("path", get_or config "path" (PStr "/")) ] in
    let xhttp_settings :=
      if truthy (get config "host")
      then set xhttp_settings "host" (get config "host")
      else xhttp_settings in
    let xhttp_mode := get overrides "xhttp_mode" in
    let xhttp_settings :=
      if truthy xhttp_mode then set xhttp_settings "mode" xhttp_mode
      else xhttp_settings in
    set stream "xhttpSettings" (PDict xhttp_settings)
  else stream.

(** The TLS / REALITY block of [_build_stream_settings]. *)
Definition security_settings (config overrides stream : dict)
  (security : pyval) : result dict :=
  if eq_str security "reality" then
    let fp :=
      get_or overrides "fingerprint"
        (get_or config "fingerprint" (PStr "chrome")) in
    let stream := set stream "security" (PStr "reality") in
    Ok (set stream "realitySettings"
          (PDict [ ("serverName", get_or config "sni" (PStr ""));
                   ("fingerprint", fp);
                   ("publicKey", get_or config "public_key" (PStr ""));
                   ("shortId", get_or config "short_id" (PStr "")) ]))
  else if eq_str security "tls" then
    let fp :=
      get_or overrides "fingerprint" (get_or config "fingerprint" (PStr "")) in
    alpn <- match get overrides "alpn" with
            | PNone => split_if_truthy (get_or config "alpn" (PStr ""))
            | a => Ok a
            end ;;
    address <- index config "address" ;;
    let tls_settings : dict := [ ("serverName", get_or config "sni" address) ] in
    let tls_settings :=
      if truthy fp then set tls_settings "fingerprint" fp else tls_settings in
    let tls_settings :=
      if truthy alpn then set tls_settings "alpn" alpn else tls_settings in
    let tls_settings :=
      if truthy (get overrides "ech_enabled") then
        set tls_settings "ech"
          (PDict [ ("enabled", PBool true);
                   ("dnsQuery", get_or overrides "ech_dns" (PBool false)) ])
      else tls_settings in
    let stream := set stream "security" (PStr "tls") in
    Ok (set stream "tlsSettings" (PDict tls_settings))
  else Ok (set stream "security" (PStr "none")).

(** [stream["tlsSettings"]["allowInsecure"] = True] when the configuration
    asks for it and the stream has TLS settings. *)
Definition allow_insecure (config stream : dict) : dict :=
  if truthy (get config "allow_insecure") then
    match lookup stream "tlsSettings" with
    | Some (PDict tls) =>
        set stream "tlsSettings" (PDict (set tls "allowInsecure" (PBool true)))
    | _ => stream
    end
  else stream.

Definition _build_stream_settings (config overrides : dict)
  (security transport : pyval) : result dict :=
  let stream : dict := [("network", transport)] in
  let stream := transport_settings config overrides stream transport in
  stream <- security_settings config overrides stream security ;;
  let stream := _apply_sockopt stream overrides (Some config) in
  Ok (allow_insecure config stream).

(** The four outbound builders.  [config[k]] raises [KeyError] for a
    missing key, in the order the source evaluates the dictionary. *)
Definition _build_vless_outbound (config overrides : dict) : result dict :=
  let security := get_or config "security" (PStr "tls") in
  let transport :=
    get_or overrides "transport" (get_or config "transport" (PStr "tcp")) in
  address <- index config "address" ;;
  port <- index config "port" ;;
  uuid <- index config "uuid" ;;
  let user : dict := [ ("id", uuid); ("encryption", PStr "none") ] in
  let user :=
    if eq_str security "reality"
    then set user "flow" (get_or config "flow" (PStr "xtls-rprx-vision"))
    else user in
  let vnext : dict :=
    [ ("address", address); ("port", port); ("users", PList [PDict user]) ] in
  stream <- _build_stream_settings config overrides security transport ;;
  Ok [ ("tag", PStr "proxy");
       ("protocol", PStr "vless");
       ("settings", PDict [ ("vnext", PList [PDict vnext]) ]);
       ("streamSettings", PDict stream) ].

Definition _build_vmess_outbound (config overrides : dict) : result dict :=
  let transport :=
    get_or overrides "transport" (get_or config "transport" (PStr "ws")) in
  let tls_type := get_or config "tls" (PStr "tls") in
  let security_type := if eq_str tls_type "tls" then PStr "tls" else PStr "none" in
  address <- index config "address" ;;
  port <- index config "port" ;;
  uuid <- index config "uuid" ;;
  let vnext : dict :=
    [ ("address", address);
      ("port", port);
      ("users",
        PList [ PDict [ ("id", uuid);
                        ("alterId", get_or config "alter_id" (PInt 0));
                        ("security", get_or config "security" (PStr "auto")) ] ]) ]
  in
  stream <- _build_stream_settings config overrides security_type transport ;;
  Ok [ ("tag", PStr "proxy");
       ("protocol", PStr "vmess");
       ("settings", PDict [ ("vnext", PList [PDict vnext]) ]);
       ("streamSettings", PDict stream) ].

Definition _build_trojan_outbound (config overrides : dict) : result dict :=
  let transport :=
    get_or overrides "transport" (get_or config "transport" (PStr "tcp")) in
  let tls_type := get_or config "tls" (PStr "tls") in
  let security_type := if eq_str tls_type "tls" then PStr "tls" else PStr "none" in
  address <- index config "address" ;;
  port <- index config "port" ;;
  password <- index config "password" ;;
  let server : dict :=
    [ ("address", address); ("port", port); ("password", password) ] in
  stream <- _build_stream_settings config overrides security_type transport ;;
  Ok [ ("tag", PStr "proxy");
       ("protocol", PStr "trojan");
       ("settings", PDict [ ("servers", PList [PDict server]) ]);
       ("streamSettings", PDict stream) ].

Definition _build_shadowsocks_outbound (config overrides : dict)
  : result dict :=
  address <- index config "address" ;;
  port <- index config "port" ;;
  method <- index config "method" ;;
  password <- index config "password" ;;
  let server : dict :=
    [ ("address", address); ("port", port); ("method", method);
      ("password", password) ] in
  let stream : dict := [ ("network", PStr "tcp") ] in
  let stream := _apply_sockopt stream overrides None in
  Ok [ ("tag", PStr "proxy");
       ("protocol", PStr "shadowsocks");
       ("settings", PDict [ ("servers", PList [PDict server]) ]);
       ("streamSettings", PDict stream) ].

Definition build_xray_json (config overrides : dict) (socks_port : Z)
  : result dict :=
  protocol <- index config "protocol" ;;
  outbound <-
    (if eq_str protocol "vless" then _build_vless_outbound config overrides
     else if eq_str protocol "vmess" then _build_vmess_outbound config overrides
     else if eq_str protocol "trojan" then _build_trojan_outbound config overrides
     else if eq_str protocol "shadowsocks"
          then _build_shadowsocks_outbound config overrides
     else Raise (ValueError ("Unsupported protocol: " ++ str protocol))) ;;
  Ok [ ("log", PDict [ ("loglevel", PStr "warning") ]);
       ("inbounds",
         PList [ PDict [ ("tag", PStr "socks-in");
                         ("port", PInt socks_port);
                         ("listen", PStr "127.0.0.1");
                         ("protocol", PStr "socks");
                         ("settings",
                           PDict [ ("auth", PStr "noauth");
                                   ("udp", PBool true) ]) ] ]);
       ("outbounds", PList [PDict outbound]) ].

(** The dictionaries [uri_parser.parse_uri] returns, which are the base
    configurations the builder is called with: the protocol, the address and
    the port, the credentials of the protocol ([uuid] for vless and vmess,
    [password] for trojan, [method] and [password] for shadowsocks), and an
    [alpn] that, when present, is a string. *)
Definition recognized (protocol : pyval) : bool :=
  eq_str protocol "vless" || eq_str protocol "vmess"
  || eq_str protocol "trojan" || eq_str protocol "shadowsocks".

Definition alpn_ok (config : dict) : bool :=
  match lookup config "alpn" with
  | Some (PStr _) | None => true
  | Some _ => false
  end.

Definition credentials_ok (config : dict) : bool :=
  let protocol := get config "protocol" in
  if eq_str protocol "vless" || eq_str protocol "vmess" then mem "uuid" config
  else if eq_str protocol "trojan" then mem "password" config
  else if eq_str protocol "shadowsocks"
       then mem "method" config && mem "password" config
  else true.

Definition is_base_config (config : dict) : bool :=
  mem "protocol" config && mem "address" config && mem "port" config
  && credentials_ok config && alpn_ok config.

(** A test case: an override set and its description. *)
Definition test_case : Type := dict * string.

(** [generate_smart_grid(config, param_groups)]: the baseline, then one case
    per value of every key of every group. *)
Definition key_cases (key : string) : list test_case :=
  match lookup PARAM_SPACE key with
  | None => []
  | Some values =>
      map (fun value => ([(key, value)], key ++ "=" ++ str value)) values
  end.

Definition generate_smart_grid (config : dict) (param_groups : list string)
  : list test_case :=
  ([], "baseline (no changes)")
    :: flat_map (fun group_name => flat_map key_cases (group_keys group_name))
         param_groups.

(** [results[:top_n]]; a negative bound counts from the end. *)
Definition slice_to {A} (l : list A) (n : Z) : list A :=
  if 0 <=? n then firstn (Z.to_nat n) l
  else firstn (length l - Z.to_nat (- n)) l.

(** [itertools.product] of the lists: the last list varies fastest. *)
Fixpoint product {A} (lists : list (list A)) : list (list A) :=
  match lists with
  | [] => [[]]
  | l :: rest => flat_map (fun x => map (cons x) (product rest)) l
  end.

(** One winner: the override set of a successful probe and its latency. *)
Definition winner : Type := dict * Z.

Definition merge_combo (combo : list dict) : test_case :=
  let merged := fold_left (fun m dim_overrides => update m dim_overrides) combo [] in
  let desc_parts :=
    flat_map (fun dim_overrides =>
                map (fun kv => fst kv ++ "=" ++ str (snd kv)) dim_overrides)
      combo in
  (merged, join " + " desc_parts).

(** [generate_combination_grid(winners, top_n)] *)
Definition generate_combination_grid
  (winners : list (string * list winner)) (top_n : Z) : list test_case :=
  let dimension_tops : list (string * list dict) :=
    fold_left (fun tops gr => set tops (fst gr) (map fst (slice_to (snd gr) top_n)))
      winners [] in
  match dimension_tops with
  | [] => []
  | _ =>
      let value_lists := map snd dimension_tops in
      map merge_combo (product value_lists)
  end.

(** [generate_full_grid(config, param_groups)] *)
Definition generate_full_grid (config : dict) (param_groups : list string)
  : list test_case :=
  let selected :=
    flat_map (fun group_name =>
                flat_map (fun key =>
                            match lookup PARAM_SPACE key with
                            | Some values => [(key, values)]
                            | None => []
                            end)
                  (group_keys group_name))
      param_groups in
  let all_keys := map fst selected in
  let all_values := map snd selected in
  match all_keys with
  | [] => [([], "baseline")]
  | _ =>
      map (fun combo =>
             let overrides : dict := update [] (combine all_keys combo) in
             (overrides,
              join ", " (map (fun kv => fst kv ++ "=" ++ str (snd kv)) overrides)))
        (product all_values)
  end.

(** [generate_quick_grid(config)] *)
Definition generate_quick_grid (config : dict) : list test_case :=
  generate_smart_grid config QUICK_PARAMS.

End ConfigGenerator.

(** ** Probe runner and batch executor ([tester.py]) *)

Module Tester.
Import Py.

Record TestResult : Type := mkTestResult {
  params : dict;
  description : string;
  success : bool;
  latency_ms : Z;
  speed_mbps : Q;
  error : string
}.

Definition _BASE_PORT : Z := 20000.

(** What the outside world does to one probe, in the order [test_single]
    meets it inside its [try] block: the engine cannot be spawned; the engine
    has exited when the settle delay is over; the request times out; the
    request fails with a transport error; or a response arrives, with the two
    readings of the monotonic clock around it and, when the throughput
    request succeeds within a positive time, the throughput figure. *)
Inductive probe_outcome : Type :=
| SpawnFailed (msg : string)
| XrayExited (returncode : Z)
| TimedOut
| TransportFailed (msg : string)
| Responded (status : Z) (start stop : Q) (speed : option Q).

(** Observable effects: the launch of an engine, tried on a port with a
    document, and the calls of the two optional callbacks [on_phase] and
    [on_result]. *)
Inductive event : Type :=
| Launched (port : Z) (config : dict)
| PhaseStarted (name : string) (phase total : Z)
| Reported (r : TestResult) (completed total : Z).

(** The module-level counter [_port_counter], and the trace of effects. *)
Record world : Type := mkWorld {
  _port_counter : Z;
  trace : list event
}.

Definition fresh : world := {| _port_counter := 0; trace := [] |}.

(** A computation returns, raises, or never returns. *)
Inductive outcome (A : Type) : Type :=
| Done (a : A)
| Fail (e : exn)
| Hang.
Arguments Done {A} a.
Arguments Fail {A} e.
Arguments Hang {A}.

Definition M (A : Type) : Type := world -> outcome A * world.

Definition ret {A} (a : A) : M A := fun w => (Done a, w).

Definition mbind {A B} (m : M A) (k : A -> M B) : M B :=
  fun w =>
    match m w with
    | (Done a, w') => k a w'
    | (Fail e, w') => (Fail e, w')
    | (Hang, w') => (Hang, w')
    end.

Definition fail {A} (e : exn) : M A := fun w => (Fail e, w).

Definition hang {A} : M A := fun w => (Hang, w).

Definition lift {A} (r : result A) : M A :=
  match r with
  | Ok a => ret a
  | Raise e => fail e
  end.

Definition emit (e : event) : M unit :=
  fun w =>
    (Done tt, {| _port_counter := _port_counter w; trace := (trace w ++ [e])%list |}).

Notation "x <~ m ;; k" := (mbind m (fun x => k))
  (at level 61, m at next level, right associativity).

(** [_next_port()]: the lock only serialises the callers. *)
Definition _next_port : M Z :=
  fun w =>
    let port := _BASE_PORT + (_port_counter w) mod 10000 in
    (Done port, {| _port_counter := _port_counter w + 1; trace := trace w |}).

(** [int(x)] of a number: truncation towards zero. *)
Definition py_int (x : Q) : Z := Z.quot (Qnum x) (Z.pos (Qden x)).

(** The copy of the document with the allocated port in its inbound
    section, for a document the port can be written into ([port_writable]
    below); for any other document the source raises instead. *)
Definition stamp_port (xray_json : dict) (port : Z) : dict :=
  match lookup xray_json "inbounds" with
  | Some (PList (PDict inbound :: rest)) =>
      set xray_json "inbounds"
        (PList (PDict (set inbound "port" (PInt port)) :: rest))
  | _ => xray_json
  end.

(** Whether [config["inbounds"][0]["port"] = port], under
    [if config.get("inbounds")], goes through: the entry is missing or
    falsy, or it is a list whose first element is a dictionary.  On a
    dictionary the subscript [[0]] raises [KeyError], on a string, a number
    or a list that starts with anything but a dictionary the subscript or
    the assignment raises [TypeError]; this is before the [try] of
    [test_single], so the exception leaves the probe and, through
    [asyncio.gather], the batch.  Every document of [build_xray_json] has a
    list of one dictionary there. *)
Definition port_writable (xray_json : dict) : bool :=
  match lookup xray_json "inbounds" with
  | None => true
  | Some (PList (PDict _ :: _)) => true
  | Some v => negb (truthy v)
  end.

(** [xray_json.get("_overrides", {})] and [xray_json.get("_description",
    "")]: the searches store a dictionary and a string there. *)
Definition overrides_of (xray_json : dict) : dict :=
  match lookup xray_json "_overrides" with
  | Some (PDict o) => o
  | _ => []
  end.

Definition description_of (xray_json : dict) : string :=
  match lookup xray_json "_description" with
  | Some v => str v
  | None => ""
  end.

(** The result a probe ends with, from the fresh [TestResult] of the source
    and the outcome of the probe.  Clock readings are rational numbers;
    floating-point subtraction and multiplication round monotonically and
    keep signs, which is all that is used of them. *)
Definition conclude (xray_json : dict) (measure_speed : bool)
  (o : probe_outcome) : TestResult :=
  let result :=
    {| params := overrides_of xray_json;
       description := description_of xray_json;
       success := false;
       latency_ms := -1;
       speed_mbps := (-1 # 1)%Q;
       error := "" |} in
  let with_error msg :=
    {| params := params result; description := description result;
       success := success result; latency_ms := latency_ms result;
       speed_mbps := speed_mbps result; error := msg |} in
  match o with
  | SpawnFailed msg => with_error msg
  | XrayExited returncode =>
      with_error ("xray exited with code " ++ str_of_Z returncode)
  | TimedOut => with_error "timeout"
  | TransportFailed msg => with_error msg
  | Responded status start stop speed =>
      let elapsed := (stop - start)%Q in
      if (status =? 200) || (status =? 204) then
        {| params := params result; description := description result;
           success := true;
           latency_ms := py_int (elapsed * inject_Z 1000)%Q;
           speed_mbps :=
             (if measure_speed
              then match speed with Some mbps => mbps | None => speed_mbps result end
              else speed_mbps result);
           error := error result |}
      else with_error ("HTTP " ++ str_of_Z status)
  end.

Section Probing.

(** The outside world: what happens to the probe that took the [n]-th port
    allocation when the engine runs the given document. *)
Variable engine : Z -> dict -> probe_outcome.

(** [test_single(xray_json, xray_bin, timeout, measure_speed)].  The engine
    binary and the timeout act through [engine] only; the temporary file of
    the document is taken to be written.  Teardown (terminate, kill, unlink)
    runs on every path and touches nothing of the result.  This is the probe
    of a [port_writable] document: on any other the source raises before its
    [try], where this definition goes on with the document as it is, so a
    statement that a probe or a batch of arbitrary documents returns asks for
    [port_writable]. *)
Definition test_single (xray_json : dict) (measure_speed : bool)
  : M TestResult :=
  fun w =>
    let n := _port_counter w in
    (port <~ _next_port ;;
     let config := stamp_port xray_json port in
     _ <~ emit (Launched port config) ;;
     ret (conclude xray_json measure_speed (engine n config))) w.

(** [test_base_config(xray_json, xray_bin, timeout)] *)
Definition test_base_config (xray_json : dict) : M TestResult :=
  test_single xray_json false.

(** *** [run_batch]

    Every document becomes a task.  A task first takes a slot of the
    semaphore, in creation order; with a slot it runs [test_single], whose
    port is allocated at once; when the probe is over the task appends its
    result, counts it and reports it, under the lock, and gives the slot
    back.  Which of the probes in flight is over first is not for the code to
    decide: [sched k] picks the one that completes after [k] completions. *)

(** Tasks are started as long as a slot is free. *)
Fixpoint fill (concurrency : Z) (measure_speed : bool)
  (waiting : list dict) (running : list TestResult)
  : M (list dict * list TestResult) :=
  match waiting with
  | [] => ret ([], running)
  | t :: rest =>
      if Z.of_nat (length running) <? concurrency then
        r <~ test_single t measure_speed ;;
        fill concurrency measure_speed rest (running ++ [r])%list
      else ret (waiting, running)
  end.

(** The [i]-th element of a non-empty list (the last one beyond its end)
    and the others. *)
Fixpoint pick {A} (i : nat) (x : A) (rest : list A) : A * list A :=
  match i, rest with
  | O, _ => (x, rest)
  | S _, [] => (x, [])
  | S i', y :: rest' =>
      let (z, others) := pick i' y rest' in (z, x :: others)
  end.

(** [asyncio.gather] over the tasks: one round per completion still
    awaited.  With tasks left and none in flight no task can ever complete:
    the call does not return. *)
Fixpoint gather (remaining : nat) (concurrency : Z) (measure_speed : bool)
  (sched : nat -> nat) (total : Z)
  (waiting : list dict) (running results : list TestResult) (completed : Z)
  : M (list TestResult) :=
  match remaining with
  | O => ret results
  | S remaining' =>
      wr <~ fill concurrency measure_speed waiting running ;;
      match snd wr with
      | [] => hang
      | r0 :: others =>
          let (result, running') := pick (sched (Z.to_nat completed)) r0 others in
          let completed' := completed + 1 in
          let results' := (results ++ [result])%list in
          _ <~ emit (Reported result completed' total) ;;
          gather remaining' concurrency measure_speed sched total
            (fst wr) running' results' completed'
      end
  end.

(** [run_batch(tests, xray_bin, concurrency, timeout, measure_speed,
    on_result)]; [asyncio.Semaphore] refuses a negative value. *)
Definition run_batch (tests : list dict) (concurrency : Z)
  (measure_speed : bool) (sched : nat -> nat) : M (list TestResult) :=
  if concurrency <? 0 then
    fail (ValueError "Semaphore initial value must be >= 0")
  else
    gather (length tests) concurrency measure_speed sched
      (Z.of_nat (length tests)) tests [] [] 0.

End Probing.

End Tester.

(** ** Search orchestration ([grid_search.py]) *)

Module GridSearch.
Import Py ConfigGenerator Tester.

(** [xj["_overrides"] = overrides; xj["_description"] = desc] *)
Definition annotate (xj overrides : dict) (desc : string) : dict :=
  set (set xj "_overrides" (PDict overrides)) "_description" (PStr desc).

(** The loop that builds the documents of a phase. *)
Fixpoint build_cases (config : dict) (cases : list test_case)
  : result (list dict) :=
  match cases with
  | [] => Ok []
  | (overrides, desc) :: rest =>
      xj <- build_xray_json config overrides 10808 ;;
      jsons <- build_cases config rest ;;
      Ok (annotate xj overrides desc :: jsons)
  end.

(** [[(o, d) for o, d in sweep_cases if o]]: the sweep without the
    baseline. *)
Definition sweep_cases (config : dict) (param_groups : list string)
  : list test_case :=
  filter (fun c => truthy (PDict (fst c)))
    (generate_smart_grid config param_groups).

(** [group_results.sort(key=lambda x: x[1])]: a stable sort. *)
Fixpoint insert_by_latency (x : winner) (l : list winner) : list winner :=
  match l with
  | [] => [x]
  | y :: l' =>
      if snd x <=? snd y then x :: l else y :: insert_by_latency x l'
  end.

Definition sort_by_latency (l : list winner) : list winner :=
  fold_right insert_by_latency [] l.

(** Winners per dimension group, from the results of the sweep. *)
Definition group_winners (group_name : string)
  (sweep_results : list TestResult) : list winner :=
  let keys := group_keys group_name in
  sort_by_latency
    (map (fun r => (params r, latency_ms r))
       (filter (fun r => success r && existsb (fun k => mem k (params r)) keys)
          sweep_results)).

Definition find_winners (param_groups : list string)
  (sweep_results : list TestResult) : list (string * list winner) :=
  fold_left
    (fun winners group_name =>
       match group_winners group_name sweep_results with
       | [] => winners
       | group_results => set winners group_name group_results
       end)
    param_groups [].

Section Search.

Variable engine : Z -> dict -> probe_outcome.

(** Phase 3 of [smart_search], guarded by [len(winners) > 1]. *)
Definition combine_phase (config : dict)
  (winners : list (string * list winner)) (concurrency : Z)
  (measure_speed : bool) (sched : nat -> nat) : M (list TestResult) :=
  if 1 <? Z.of_nat (length winners) then
    let combo_cases := generate_combination_grid winners 3 in
    combo_jsons <~ lift (build_cases config combo_cases) ;;
    run_batch engine combo_jsons concurrency measure_speed sched
  else ret [].

(** [smart_search]; the two callbacks are recorded in the trace, and the
    completion order of each batch is a parameter. *)
Definition smart_search (config : dict) (param_groups : list string)
  (concurrency : Z) (measure_speed : bool) (sched_sweep sched_combo : nat -> nat)
  : M (list TestResult) :=
  _ <~ emit (PhaseStarted "Baseline Test" 1 3) ;;
  base_json <~ lift (build_xray_json config [] 10808) ;;
  let base_json := annotate base_json [] "baseline (no changes)" in
  base_result <~ test_base_config engine base_json ;;
  _ <~ emit (Reported base_result 1 1) ;;
  let all_results := [base_result] in
  _ <~ emit (PhaseStarted "Individual Parameter Sweep" 2 3) ;;
  sweep_jsons <~ lift (build_cases config (sweep_cases config param_groups)) ;;
  sweep_results <~
    run_batch engine sweep_jsons concurrency measure_speed sched_sweep ;;
  let all_results := (all_results ++ sweep_results)%list in
  let winners := find_winners param_groups sweep_results in
  _ <~ emit (PhaseStarted "Combining Winners" 3 3) ;;
  combo_results <~
    combine_phase config winners concurrency measure_speed sched_combo ;;
  ret (all_results ++ combo_results)%list.

(** [full_search] *)
Definition full_search (config : dict) (param_groups : list string)
  (concurrency : Z) (measure_speed : bool) (sched : nat -> nat)
  : M (list TestResult) :=
  _ <~ emit (PhaseStarted "Full Grid Search" 1 1) ;;
  jsons <~ lift (build_cases config (generate_full_grid config param_groups)) ;;
  run_batch engine jsons concurrency measure_speed sched.

(** The groups [quick_search] asks for. *)
Definition quick_groups : list string := ["fragment"; "fingerprint"; "alpn"].

(** [quick_search] *)
Definition quick_search (config : dict) (concurrency : Z)
  (measure_speed : bool) (sched_sweep sched_combo : nat -> nat)
  : M (list TestResult) :=
  smart_search config quick_groups concurrency measure_speed
    sched_sweep sched_combo.

End Search.

End GridSearch.

(** ** Places in a document

    A document is compared with another field by field: a place is a path
    of dictionary keys and list positions, and two documents differ only in
    some fields when they hold the same value, or both nothing, at every
    place that lies neither inside nor above one of these fields. *)

Module Frame.
Import Py.

Inductive seg : Type :=
| Key (k : string)
| Idx (i : nat).

Definition path : Type := list seg.

Fixpoint get_path (v : pyval) (p : path) : option pyval :=
  match p with
  | [] => Some v
  | Key k :: q =>
      match v with
      | PDict d =>
          match lookup d k with
          | Some v' => get_path v' q
          | None => None
          end
      | _ => None
      end
  | Idx i :: q =>
      match v with
      | PList l =>
          match nth_error l i with
          | Some v' => get_path v' q
          | None => None
          end
      | _ => None
      end
  end.

Definition seg_eqb (a b : seg) : bool :=
  match a, b with
  | Key k, Key k' => (k =? k')%string
  | Idx i, Idx i' => Nat.eqb i i'
  | _, _ => false
  end.

Fixpoint is_prefix (p q : path) : bool :=
  match p, q with
  | [], _ => true
  | a :: p', b :: q' => seg_eqb a b && is_prefix p' q'
  | _ :: _, [] => false
  end.

(** One place lies inside or above the other. *)
Definition overlap (p q : path) : bool := is_prefix p q || is_prefix q p.

Definition outside (fields : list path) (p : path) : bool :=
  forallb (fun f => negb (overlap f p)) fields.

Definition differs_only_in (fields : list path) (a b : pyval) : Prop :=
  forall p, outside fields p = true -> get_path a p = get_path b p.

(** The same for two calls of the builder: both raise the same exception,
    or both return and the documents differ only in the fields. *)
Definition builds_differ_only_in (fields : list path) (r1 r2 : result dict)
  : Prop :=
  match r1, r2 with
  | Ok d1, Ok d2 => differs_only_in fields (PDict d1) (PDict d2)
  | Raise e1, Raise e2 => e1 = e2
  | _, _ => False
  end.

Definition port_path : path := [Key "inbounds"; Idx 0; Key "port"].

Definition stream_path : path :=
  [Key "outbounds"; Idx 0; Key "streamSettings"].

Definition in_stream (keys : list string) : path :=
  (stream_path ++ map Key keys)%list.

(** The field of the stream settings that takes the value of a parameter,
    as the keys that lead to it. *)
Definition stream_field_of (key : string) : list (list string) :=
  if (key =? "fragment_length")%string
  then [["sockopt"; "fragment"; "length"]]
  else if (key =? "fragment_interval")%string
  then [["sockopt"; "fragment"; "interval"]]
  else if (key =? "fragment_packets")%string
  then [["sockopt"; "fragment"; "packets"]]
  else if (key =? "fingerprint")%string
  then [["tlsSettings"; "fingerprint"]; ["realitySettings"; "fingerprint"]]
  else if (key =? "alpn")%string then [["tlsSettings"; "alpn"]]
  else if (key =? "ech_enabled")%string
  then [["tlsSettings"; "ech"; "enabled"]]
  else if (key =? "ech_dns")%string
  then [["tlsSettings"; "ech"; "dnsQuery"]]
  else if (key =? "tcp_no_delay")%string then [["sockopt"; "tcpNoDelay"]]
  else if (key =? "tcp_fast_open")%string then [["sockopt"; "tcpFastOpen"]]
  else if (key =? "mptcp")%string then [["sockopt"; "tcpMptcp"]]
  else if (key =? "tcp_keep_alive")%string
  then [["sockopt"; "tcpKeepAliveInterval"]]
  else if (key =? "domain_strategy")%string
  then [["sockopt"; "domainStrategy"]]
  else if (key =? "transport")%string then [["network"]]
  else if (key =? "xhttp_mode")%string then [["xhttpSettings"; "mode"]]
  else [].

(** The part of the stream settings a parameter decides in the builder: the
    whole fragment block for each of the three fragment parameters, the
    whole encrypted-hello block for [ech_enabled], the network and the
    settings of the transport for [transport], and its own field for any
    other. *)
Definition stream_block_of (key : string) : list (list string) :=
  if (key =? "fragment_length")%string || (key =? "fragment_interval")%string
     || (key =? "fragment_packets")%string
  then [["sockopt"; "fragment"]]
  else if (key =? "ech_enabled")%string then [["tlsSettings"; "ech"]]
  else if (key =? "transport")%string
  then [["network"]; ["wsSettings"]; ["grpcSettings"]; ["httpSettings"];
        ["xhttpSettings"]]
  else stream_field_of key.

Definition field_of (key : string) : list path :=
  map in_stream (stream_field_of key).

Definition block_of (key : string) : list path :=
  map in_stream (stream_block_of key).

(** The block of a parameter as places in the stream settings. *)
Definition stream_block (key : string) : list path :=
  map (map Key) (stream_block_of key).

(** The fields below a key, and below a position. *)
Definition sub (fields : list path) (k : string) : list path :=
  flat_map (fun f => match f with
                     | Key k' :: q => if (k' =? k)%string then [q] else []
                     | _ => []
                     end) fields.

Definition subi (fields : list path) (i : nat) : list path :=
  flat_map (fun f => match f with
                     | Idx i' :: q => if Nat.eqb i' i then [q] else []
                     | _ => []
                     end) fields.

Definition get_opt (o : option pyval) (p : path) : option pyval :=
  match o with
  | Some v => get_path v p
  | None => None
  end.

(** Agreement outside the fields of two values that may be absent, and of
    two dictionaries key by key. *)
Definition agree_opt (fields : list path) (o1 o2 : option pyval) : Prop :=
  forall p, outside fields p = true -> get_opt o1 p = get_opt o2 p.

Definition dagree (fields : list path) (d1 d2 : dict) : Prop :=
  forall k, agree_opt (sub fields k) (lookup d1 k) (lookup d2 k).

(** Two streams about to get their socket options: they agree outside the
    fields, have no socket options yet, and their TLS settings are the same
    or two dictionaries that agree outside the fields. *)
Definition tls_rel (fields : list path) (s1 s2 : dict) : Prop :=
  lookup s1 "tlsSettings" = lookup s2 "tlsSettings"
  \/ exists t1 t2,
       lookup s1 "tlsSettings" = Some (PDict t1)
       /\ lookup s2 "tlsSettings" = Some (PDict t2)
       /\ sub fields "tlsSettings" <> []
       /\ dagree (sub fields "tlsSettings") t1 t2.

Definition stream_rel (fields : list path) (s1 s2 : dict) : Prop :=
  dagree fields s1 s2
  /\ lookup s1 "sockopt" = None /\ lookup s2 "sockopt" = None
  /\ tls_rel fields s1 s2.

(** The same before the security settings, when there are no TLS settings
    yet. *)
Definition pre_rel (fields : list path) (s1 s2 : dict) : Prop :=
  dagree fields s1 s2
  /\ lookup s1 "sockopt" = None /\ lookup s2 "sockopt" = None
  /\ lookup s1 "tlsSettings" = None /\ lookup s2 "tlsSettings" = None.

Definition ragree_with (R : dict -> dict -> Prop) (r1 r2 : result dict)
  : Prop :=
  match r1, r2 with
  | Ok d1, Ok d2 => R d1 d2
  | Raise e1, Raise e2 => e1 = e2
  | _, _ => False
  end.

End Frame.

(** ** Scenarios: repeated allocation, clocks, security modes, sample
    configurations *)

Module Scenarios.
Import Py ConfigGenerator Tester.

(** [n] calls of [_next_port] in sequence. *)
Fixpoint allocate (n : nat) : M (list Z) :=
  match n with
  | O => ret []
  | S n' =>
      port <~ _next_port ;;
      ports <~ allocate n' ;;
      ret (port :: ports)
  end.

(** [time.monotonic()] does not go backwards. *)
Definition monotonic_clock (o : probe_outcome) : Prop :=
  match o with
  | Responded _ start stop _ => (start <= stop)%Q
  | _ => True
  end.

(** The documents of a list probed one after the other. *)
Fixpoint probe_all (engine : Z -> dict -> probe_outcome)
  (tests : list dict) (measure_speed : bool) : M (list TestResult) :=
  match tests with
  | [] => ret []
  | t :: rest =>
      r <~ test_single engine t measure_speed ;;
      rs <~ probe_all engine rest measure_speed ;;
      ret (r :: rs)
  end.

(** The result of the probe that takes the [n]-th allocation for a
    document, and the results of a list of documents probed from the [n]-th
    allocation on. *)
Definition result_at (engine : Z -> dict -> probe_outcome)
  (measure_speed : bool) (n : Z) (t : dict) : TestResult :=
  conclude t measure_speed
    (engine n (stamp_port t (_BASE_PORT + n mod 10000))).

Fixpoint results_from (engine : Z -> dict -> probe_outcome)
  (measure_speed : bool) (n : Z) (tests : list dict) : list TestResult :=
  match tests with
  | [] => []
  | t :: rest =>
      result_at engine measure_speed n t
        :: results_from engine measure_speed (n + 1) rest
  end.

(** The keys the requested groups stand for that the parameter space has,
    and the values of a key. *)
Definition requested_keys (param_groups : list string) : list string :=
  filter (fun key => mem key PARAM_SPACE) (flat_map group_keys param_groups).

Definition domain (key : string) : list pyval :=
  match lookup PARAM_SPACE key with
  | Some values => values
  | None => []
  end.

Definition param_keys : list string := map fst PARAM_SPACE.

(** The reduced group subset of quick mode as the specification words it:
    the fragmentation dimensions, the fingerprint and ALPN. *)
Definition quick_groups_of_spec : list string :=
  ["fragment_length"; "fragment_interval"; "fragment_packets"; "fingerprint";
   "alpn"].

Definition singleton_case (key : string) (value : pyval) : test_case :=
  ([(key, value)], key ++ "=" ++ str value).

(** Standard TLS security of a base configuration: the [security] of a
    vless configuration, the [tls] of a vmess or trojan one. *)
Definition standard_tls (config : dict) : bool :=
  let protocol := get config "protocol" in
  if eq_str protocol "vless"
  then eq_str (get_or config "security" (PStr "tls")) "tls"
  else if eq_str protocol "vmess" || eq_str protocol "trojan"
  then eq_str (get_or config "tls" (PStr "tls")) "tls"
  else false.

(** The encrypted-hello block the overrides ask for. *)
Definition ech_block (overrides : dict) : option pyval :=
  if truthy (get overrides "ech_enabled") then
    Some (PDict [ ("enabled", PBool true);
                  ("dnsQuery", get_or overrides "ech_dns" (PBool false)) ])
  else None.

(** A shadowsocks and a vless configuration that carry the same fragment
    values. *)
Definition shadowsocks_with_fragment : dict :=
  [ ("protocol", PStr "shadowsocks"); ("method", PStr "aes-256-gcm");
    ("password", PStr "secret"); ("address", PStr "203.0.113.7");
    ("port", PInt 8388); ("name", PStr "");
    ("fragment_length", PStr "10-20"); ("fragment_interval", PStr "2-5");
    ("fragment_packets", PStr "1-3") ].

Definition vless_with_fragment : dict :=
  [ ("protocol", PStr "vless"); ("uuid", PStr "0b4f6c1e");
    ("address", PStr "203.0.113.7"); ("port", PInt 443); ("name", PStr "");
    ("security", PStr "tls"); ("sni", PStr "example.org");
    ("host", PStr "example.org"); ("path", PStr "/");
    ("transport", PStr "ws"); ("fingerprint", PStr "");
    ("alpn", PStr ""); ("allow_insecure", PBool false);
    ("fragment_length", PStr "10-20"); ("fragment_interval", PStr "2-5");
    ("fragment_packets", PStr "1-3") ].

(** The same vless configuration without fragment values. *)
Definition vless_plain : dict :=
  [ ("protocol", PStr "vless"); ("uuid", PStr "0b4f6c1e");
    ("address", PStr "203.0.113.7"); ("port", PInt 443); ("name", PStr "");
    ("security", PStr "tls"); ("sni", PStr "example.org");
    ("host", PStr "example.org"); ("path", PStr "/");
    ("transport", PStr "ws"); ("fingerprint", PStr "");
    ("alpn", PStr ""); ("allow_insecure", PBool false) ].

(** Two documents for a batch, and an outside world in which the engine of
    the first probe exits with code 1 and every other probe is answered. *)
Definition two_documents : list dict :=
  match
    GridSearch.build_cases vless_plain
      [ ([], "baseline (no changes)");
        ([("fingerprint", PStr "chrome")], "fingerprint=chrome") ]
  with
  | Ok documents => documents
  | Raise _ => []
  end.

Definition first_probe_crashes (n : Z) (config : dict) : probe_outcome :=
  if n =? 0 then XrayExited 1 else Responded 204 0 (1 # 20) None.

End Scenarios.

(** ** Reports and exports ([report.py]) *)

Module Report.
Import Py Tester.

(** [sorted(l, key=...)]: a stable sort by an integer key. *)
Fixpoint insert_by {A} (key : A -> Z) (x : A) (l : list A) : list A :=
  match l with
  | [] => [x]
  | y :: l' => if key x <=? key y then x :: l else y :: insert_by key x l'
  end.

Definition sort_by {A} (key : A -> Z) (l : list A) : list A :=
  fold_right (insert_by key) [] l.

(** The ranking of [show_final_report]: the successes by latency, then the
    failures. *)
Definition working (results : list TestResult) : list TestResult :=
  sort_by latency_ms (filter success results).

Definition failed (results : list TestResult) : list TestResult :=
  filter (fun r => negb (success r)) results.

Definition sorted_results (results : list TestResult) : list TestResult :=
  (working results ++ failed results)%list.

(** [sorted_results[:top_n]] with [top_n = min(20, len(sorted_results))]. *)
Definition top_results (results : list TestResult) : list TestResult :=
  firstn (Nat.min 20 (length (sorted_results results))) (sorted_results results).

(** The figures of the summary: tested, working, blocked, and the best
    result. *)
Definition summary_counts (results : list TestResult) : nat * nat * nat :=
  (length results, length (working results), length (failed results)).

Definition best (results : list TestResult) : option TestResult :=
  match working results with
  | r :: _ => Some r
  | [] => None
  end.

(** [",".join(alpn)]: every element has to be a string. *)
Fixpoint strings_of (l : list pyval) : option (list string) :=
  match l with
  | [] => Some []
  | PStr s :: rest =>
      match strings_of rest with
      | Some strs => Some (s :: strs)
      | None => None
      end
  | _ :: _ => None
  end.

(** The configuration [export_best_uris] hands to [build_uri] for the
    [i]-th best result: the base configuration with the
    fingerprint and the ALPN of the result and a name of its own.  [None]
    stands for the [TypeError] of [join] on a list with an element that is
    not a string. *)
Definition modified_config (base_config : dict) (i : Z) (r : TestResult)
  : option dict :=
  let modified := base_config in
  let overrides := params r in
  let modified :=
    if mem "fingerprint" overrides
    then set modified "fingerprint" (get overrides "fingerprint")
    else modified in
  let with_alpn : option dict :=
    if mem "alpn" overrides then
      match get overrides "alpn" with
      | PList l =>
          match strings_of l with
          | Some strs => Some (set modified "alpn" (PStr (join "," strs)))
          | None => None
          end
      | alpn => Some (set modified "alpn" alpn)
      end
    else Some modified in
  match with_alpn with
  | Some modified =>
      let desc_short := substring 0 40 (description r) in
      Some (set modified "name"
              (PStr ("#" ++ str_of_Z i ++ "-" ++ str_of_Z (latency_ms r)
                         ++ "ms-" ++ desc_short)))
  | None => None
  end.

End Report.

(** ** Reading a trace *)

Module Traces.
Import Py Tester.

(** The results reported, with their counts, and the launches, in order. *)
Fixpoint reported (tr : list event) : list TestResult :=
  match tr with
  | [] => []
  | Reported r _ _ :: rest => r :: reported rest
  | _ :: rest => reported rest
  end.

Fixpoint report_counts (tr : list event) : list (Z * Z) :=
  match tr with
  | [] => []
  | Reported _ completed total :: rest =>
      (completed, total) :: report_counts rest
  | _ :: rest => report_counts rest
  end.

Fixpoint launched_ports (tr : list event) : list Z :=
  match tr with
  | [] => []
  | Launched port _ :: rest => port :: launched_ports rest
  | _ :: rest => launched_ports rest
  end.

(** The number of probes in flight after each launch and each report, from
    [current] probes in flight. *)
Fixpoint in_flight (current : Z) (tr : list event) : list Z :=
  match tr with
  | [] => []
  | Launched _ _ :: rest => (current + 1) :: in_flight (current + 1) rest
  | Reported _ _ _ :: rest => (current - 1) :: in_flight (current - 1) rest
  | PhaseStarted _ _ _ :: rest => in_flight current rest
  end.

(** The number of probes in flight at the end of a trace. *)
Fixpoint level_after (current : Z) (tr : list event) : Z :=
  match tr with
  | [] => current
  | Launched _ _ :: rest => level_after (current + 1) rest
  | Reported _ _ _ :: rest => level_after (current - 1) rest
  | PhaseStarted _ _ _ :: rest => level_after current rest
  end.

(** The launches of a list of documents from the [n]-th allocation on. *)
Fixpoint launch_events (n : Z) (tests : list dict) : list event :=
  match tests with
  | [] => []
  | t :: rest =>
      let port := _BASE_PORT + n mod 10000 in
      Launched port (stamp_port t port) :: launch_events (n + 1) rest
  end.

(** The counts [first + 1], ..., [first + n] out of [total]. *)
Fixpoint counts_from (first total : Z) (n : nat) : list (Z * Z) :=
  match n with
  | O => []
  | S n' => (first + 1, total) :: counts_from (first + 1) total n'
  end.

End Traces.

(** ** Views of a built document *)

Module Views.
Import Py ConfigGenerator.

(** The fragment block made of three chosen values: complete when one of
    them is truthy, absent otherwise. *)
Definition fragment_block (frag_len frag_int frag_pkt : pyval) : option pyval :=
  if truthy frag_len || truthy frag_int || truthy frag_pkt then
    Some (PDict [ ("packets", py_or frag_pkt (PStr "tlshello"));
                  ("length", py_or frag_len (PStr "100-200"));
                  ("interval", py_or frag_int (PStr "10-20")) ])
  else None.

(** The configuration the socket options are taken from: none for
    shadowsocks. *)
Definition sockopt_config (config : dict) : dict :=
  if eq_str (get config "protocol") "shadowsocks" then [] else config.

End Views.

(** ** Query strings and the fragment parameter ([uri_parser.py]) *)

Module UriParser.
Import Py.

(** [s.split(sep)] for a separator of one character. *)
Fixpoint split_on (sep : ascii) (s : string) : list string :=
  match s with
  | EmptyString => [""%string]
  | String c rest =>
      if Ascii.eqb c sep then ""%string :: split_on sep rest
      else match split_on sep rest with
           | h :: t => String c h :: t
           | [] => [String c ""]
           end
  end.

(** [s.find(c)] for one character: the index of its first occurrence,
    [None] where Python returns -1. *)
Fixpoint find (c : ascii) (s : string) : option nat :=
  match s with
  | EmptyString => None
  | String c' rest =>
      if Ascii.eqb c' c then Some O else option_map S (find c rest)
  end.

(** The body of the loop of [_parse_query]. *)
Definition add_param (params : list (string * string)) (param : string)
  : list (string * string) :=
  match find "="%char param with
  | Some (S n) =>
      let eq_idx := S n in
      let key := substring 0 eq_idx param in
      let value := substring (eq_idx + 1) (String.length param) param in
      set params key value
  | _ => params
  end.

(** [_parse_query(query)] *)
Definition _parse_query (query : string) : list (string * string) :=
  if (query =? "")%string then []
  else fold_left add_param (split_on "&"%char query) [].

(** [_parse_vless], the fragment parameter: the three keys are set when
    the parameter is not empty and has three parts. *)
Definition fragment_keys (params : list (string * string)) (base : dict)
  : dict :=
  let frag_str :=
    match lookup params "fragment" with Some s => s | None => ""%string end in
  if negb (frag_str =? "")%string then
    match split_comma frag_str with
    | [part0; part1; part2] =>
        let base := set base "fragment_length" (PStr part0) in
        let base := set base "fragment_interval" (PStr part1) in
        set base "fragment_packets" (PStr part2)
    | _ => base
    end
  else base.

(** [_build_vless], the fragment parameter: its value, when the
    configuration has a truthy fragment length. *)
Definition fragment_param (config : dict) : option string :=
  if truthy (get config "fragment_length") then
    Some (str (get config "fragment_length") ++ ","
          ++ str (get_or config "fragment_interval" (PStr "10-20")) ++ ","
          ++ str (get_or config "fragment_packets" (PStr "tlshello")))%string
  else None.

End UriParser.

(** ** Strings without a separator *)

Module Names.
Import Py.

Fixpoint char_free (c : ascii) (s : string) : bool :=
  match s with
  | EmptyString => true
  | String c' rest => negb (Ascii.eqb c' c) && char_free c rest
  end.

(** A protocol name that [",".join] and [split(",")] carry unchanged: not
    empty and without a comma. *)
Definition plain_name (s : string) : bool :=
  negb (s =? "")%string && char_free ","%char s.

(** A query parameter [key=value] that [_parse_query] reads back: the key
    not empty and without [=], neither with [&]. *)
Definition plain_param (kv : string * string) : bool :=
  negb (fst kv =? "")%string && char_free "="%char (fst kv)
  && char_free "&"%char (fst kv) && char_free "&"%char (snd kv).

End Names.

(** ** What the builder reads of the overrides *)

Module Reads.
Import Py ConfigGenerator.

(** The keys [_apply_sockopt] looks up. *)
Definition sockopt_keys : list string :=
  [ "fragment_length"; "fragment_interval"; "fragment_packets";
    "tcp_no_delay"; "tcp_fast_open"; "mptcp"; "tcp_keep_alive";
    "domain_strategy" ].

(** The security the outbound builders pass to [_build_stream_settings]:
    the [security] of a vless configuration, and for vmess and trojan "tls"
    or "none" after the [tls] of the configuration. *)
Definition security_of (config : dict) : pyval :=
  if eq_str (get config "protocol") "vless"
  then get_or config "security" (PStr "tls")
  else if eq_str (get_or config "tls" (PStr "tls")) "tls" then PStr "tls"
       else PStr "none".

(** The transport they pass: the override, else the transport of the
    configuration, else "ws" for vmess and "tcp" for vless and trojan. *)
Definition transport_of (config overrides : dict) : pyval :=
  get_or overrides "transport"
    (get_or config "transport"
       (if eq_str (get config "protocol") "vmess" then PStr "ws"
        else PStr "tcp")).

(** The keys of the overrides a build of the configuration looks up. *)
Definition keys_read (config overrides : dict) : list string :=
  if eq_str (get config "protocol") "shadowsocks" then sockopt_keys
  else
    ("transport"
     :: (if eq_str (transport_of config overrides) "xhttp"
         then ["xhttp_mode"] else [])
     ++ (if eq_str (security_of config) "reality" then ["fingerprint"]
         else if eq_str (security_of config) "tls"
              then ["fingerprint"; "alpn"; "ech_enabled"; "ech_dns"]
              else [])
     ++ sockopt_keys)%list.

End Reads.

(** * Properties *)

Import Py ConfigGenerator Tester GridSearch Frame Scenarios.

(** ** The port allocator *)

Lemma allocate_from (n : nat) (w : world) :
  allocate n w =
  (Done (map (fun k => _BASE_PORT + (_port_counter w + Z.of_nat k) mod 10000)
           (seq 0 n)),
   {| _port_counter := _port_counter w + Z.of_nat n; trace := trace w |}).
Proof.
  revert w. induction n as [|n IH]; intros w.
  - destruct w as [c t]. cbn. now rewrite Z.add_0_r.
  - cbn [allocate]. unfold mbind at 1. unfold _next_port at 1.
    unfold mbind at 1. rewrite IH. cbn [_port_counter trace ret seq map].
    rewrite <- seq_shift, map_map. unfold ret.
    replace (_port_counter w + Z.of_nat 0) with (_port_counter w) by lia.
    replace (_port_counter w + 1 + Z.of_nat n)
      with (_port_counter w + Z.of_nat (S n)) by lia.
    do 3 f_equal. apply map_ext. intros k. do 2 f_equal. lia.
Qed.

(** C9.  Fifteen allocations in a row from a fresh counter return the ports
    [_BASE_PORT], [_BASE_PORT + 1], ..., [_BASE_PORT + 14] in this order,
    all different; the allocation after [k] earlier ones returns
    [_BASE_PORT + k mod 10000], whatever their number. *)
Theorem next_port_sequence :
  fst (allocate 15 fresh) =
    Done (map (fun k => _BASE_PORT + k)
            [0; 1; 2; 3; 4; 5; 6; 7; 8; 9; 10; 11; 12; 13; 14])
  /\ NoDup (map (fun k => _BASE_PORT + k)
              [0; 1; 2; 3; 4; 5; 6; 7; 8; 9; 10; 11; 12; 13; 14])
  /\ forall n : nat,
       fst (allocate n fresh) =
       Done (map (fun k => _BASE_PORT + Z.of_nat k mod 10000) (seq 0 n)).
Proof.
  split; [reflexivity|]. split.
  - cbv [map _BASE_PORT Z.add Pos.add Pos.succ].
    repeat (constructor; [cbn; intuition discriminate|]). constructor.
  - intros n. rewrite allocate_from. reflexivity.
Qed.

(** ** The override generators *)

Lemma flat_map_singletons {A B} (f : A -> B) (l : list A) :
  flat_map (fun x => [f x]) l = map f l.
Proof. induction l; cbn; congruence. Qed.

Lemma product_one {A} (l : list A) : product [l] = map (fun x => [x]) l.
Proof. cbn. apply flat_map_singletons. Qed.

(** Where the claim C1 fails: one group with one winner gives one case. *)
Lemma combination_grid_single_group_nonempty :
  generate_combination_grid
    [("fingerprint", [([("fingerprint", PStr "chrome")], 120)])] 3
  <> [].
Proof. vm_compute. discriminate. Qed.

(** C1, amended.  For winners in exactly one group the combination
    generator returns one case for each of the group's first [top_n]
    winners, and it is the third phase of [smart_search] that, guarded by
    [len(winners) > 1], then generates no case and runs no probe. *)
Theorem combination_single_group
  (engine : Z -> dict -> probe_outcome) (config : dict) (group : string)
  (results : list winner) (top_n concurrency : Z) (measure_speed : bool)
  (sched : nat -> nat) (w : world) :
  generate_combination_grid [(group, results)] top_n =
    map (fun r => merge_combo [fst r]) (slice_to results top_n)
  /\ combine_phase engine config [(group, results)] concurrency measure_speed
       sched w = (Done [], w).
Proof.
  split; [|reflexivity].
  unfold generate_combination_grid. cbn [fold_left set fst snd map].
  rewrite product_one, !map_map. reflexivity.
Qed.

Lemma key_cases_domain (key : string) :
  key_cases key =
  if mem key PARAM_SPACE then map (singleton_case key) (domain key) else [].
Proof.
  unfold key_cases, mem, domain.
  destruct (lookup PARAM_SPACE key); reflexivity.
Qed.

Lemma flat_map_key_cases (keys : list string) :
  flat_map key_cases keys =
  flat_map (fun key => map (singleton_case key) (domain key))
    (filter (fun key => mem key PARAM_SPACE) keys).
Proof.
  induction keys as [|key keys IH]; [reflexivity|].
  cbn [flat_map filter]. rewrite key_cases_domain, IH.
  destruct (mem key PARAM_SPACE); reflexivity.
Qed.

Lemma flat_map_flat_map {A B C} (f : B -> list C) (g : A -> list B)
  (l : list A) :
  flat_map f (flat_map g l) = flat_map (fun x => flat_map f (g x)) l.
Proof.
  induction l as [|x l IH]; [reflexivity|].
  cbn [flat_map]. now rewrite flat_map_app, IH.
Qed.

Lemma filter_all {A} (f : A -> bool) (l : list A) :
  Forall (fun x => f x = true) l -> filter f l = l.
Proof.
  induction 1 as [|x l Hx _ IH]; [reflexivity|].
  cbn. now rewrite Hx, IH.
Qed.

Lemma length_flat_map_sum {A B} (f : A -> list B) (l : list A) :
  length (flat_map f l) = list_sum (map (fun x => length (f x)) l).
Proof.
  induction l as [|x l IH]; [reflexivity|].
  cbn. now rewrite length_app, IH.
Qed.

Lemma sweep_cases_spec (config : dict) (param_groups : list string) :
  sweep_cases config param_groups =
  flat_map (fun key => map (singleton_case key) (domain key))
    (requested_keys param_groups).
Proof.
  unfold sweep_cases, generate_smart_grid, requested_keys.
  cbn [filter fst truthy].
  rewrite <- flat_map_flat_map, flat_map_key_cases.
  apply filter_all. apply Forall_forall. intros c Hc.
  apply in_flat_map in Hc. destruct Hc as (key & _ & Hc).
  apply in_map_iff in Hc. destruct Hc as (value & <- & _). reflexivity.
Qed.

(** Where the claim C2 fails: the sweep of the fingerprint group has nine
    entries, the first of which is the baseline. *)
Lemma smart_grid_contains_baseline :
  length (generate_smart_grid [] ["fingerprint"]) <> 8%nat
  /\ In ([], "baseline (no changes)") (generate_smart_grid [] ["fingerprint"]).
Proof. split; [vm_compute; discriminate | left; reflexivity]. Qed.

(** C2, amended.  [generate_smart_grid] returns the baseline followed by
    one singleton override set for each pair of a requested key and one of
    its values, in order, so one more than the sum of the sizes of the
    requested domains; the sweep phase of [smart_search] drops the baseline
    and keeps exactly the singletons.  For the fingerprint group that is
    nine entries from the generator and eight in the sweep. *)
Theorem smart_grid_baseline_then_singletons
  (config : dict) (param_groups : list string) :
  generate_smart_grid config param_groups =
    ([], "baseline (no changes)") :: sweep_cases config param_groups
  /\ sweep_cases config param_groups =
       flat_map (fun key => map (singleton_case key) (domain key))
         (requested_keys param_groups)
  /\ length (sweep_cases config param_groups) =
       list_sum (map (fun key => length (domain key))
                   (requested_keys param_groups))
  /\ ~ In [] (map fst (sweep_cases config param_groups))
  /\ length (generate_smart_grid config ["fingerprint"]) = 9%nat
  /\ length (sweep_cases config ["fingerprint"]) = 8%nat.
Proof.
  assert (Hs := sweep_cases_spec config param_groups).
  split; [|split; [exact Hs|split; [|split; [|split; reflexivity]]]].
  - unfold generate_smart_grid. f_equal. rewrite Hs.
    unfold requested_keys.
    now rewrite <- flat_map_key_cases, flat_map_flat_map.
  - rewrite Hs, length_flat_map_sum. f_equal. apply map_ext.
    intros key. apply length_map.
  - rewrite Hs. intros Hin. apply in_map_iff in Hin.
    destruct Hin as (c & Hc & Hin). apply in_flat_map in Hin.
    destruct Hin as (key & _ & Hin). apply in_map_iff in Hin.
    destruct Hin as (value & <- & _). discriminate.
Qed.

(** C3, the code at the groups [quick_search] asks for.  [quick_search] is
    [smart_search] over the groups fragment, fingerprint and alpn, but no
    group and no key is called fragment: its sweep is the sweep of
    fingerprint and alpn alone, eleven cases none of which sets a fragment
    parameter.  The sweep over the groups of the specification, which are
    [QUICK_PARAMS], has twenty-six: those eleven after the fifteen values of
    the three fragment dimensions. *)
Theorem quick_search_sweeps_no_fragment
  (engine : Z -> dict -> probe_outcome) (config : dict) (concurrency : Z)
  (measure_speed : bool) (sched_sweep sched_combo : nat -> nat) :
  quick_search engine config concurrency measure_speed sched_sweep sched_combo
    = smart_search engine config ["fragment"; "fingerprint"; "alpn"]
        concurrency measure_speed sched_sweep sched_combo
  /\ sweep_cases config quick_groups = sweep_cases config ["fingerprint"; "alpn"]
  /\ length (sweep_cases config quick_groups) = 11%nat
  /\ existsb (fun c => mem "fragment_length" (fst c)
                       || mem "fragment_interval" (fst c)
                       || mem "fragment_packets" (fst c))
       (sweep_cases config quick_groups) = false
  /\ quick_groups_of_spec = QUICK_PARAMS
  /\ length (sweep_cases config quick_groups_of_spec) = 26%nat
  /\ map fst (sweep_cases config quick_groups_of_spec)
     = (map (fun value => [("fragment_length", value)])
          (domain "fragment_length")
        ++ map (fun value => [("fragment_interval", value)])
             (domain "fragment_interval")
        ++ map (fun value => [("fragment_packets", value)])
             (domain "fragment_packets")
        ++ map fst (sweep_cases config quick_groups))%list.
Proof.
  repeat split; vm_compute; reflexivity.
Qed.

(** ** Probe results *)

Lemma py_int_nonneg (x : Q) : (0 <= x)%Q -> 0 <= py_int x.
Proof.
  unfold Qle, py_int. cbn. intros H. apply Z.quot_pos; lia.
Qed.

Lemma conclude_success_latency (xray_json : dict) (measure_speed : bool)
  (o : probe_outcome) :
  monotonic_clock o ->
  let r := conclude xray_json measure_speed o in
  (success r = true <-> 0 <= latency_ms r)
  /\ (success r = false <-> latency_ms r = -1).
Proof.
  intros Hclock.
  destruct o as [msg|code| |msg|status start stop speed]; cbn;
    try (split; split; (discriminate || lia || reflexivity)).
  destruct ((status =? 200) || (status =? 204)); cbn;
    [|split; split; (discriminate || lia || reflexivity)].
  assert (Hl : 0 <= py_int ((stop - start) * inject_Z 1000)%Q).
  { apply py_int_nonneg. apply Qmult_le_0_compat; [|discriminate].
    cbn in Hclock. now apply Qle_minus_iff in Hclock. }
  split; split; intros H; try reflexivity; try assumption;
    try discriminate; lia.
Qed.

(** C6.  A probe returns a result in which [success] is true exactly when
    [latency_ms] is at least zero, and false exactly when [latency_ms] is
    [-1]; the clock the elapsed time is read from is monotonic. *)
Theorem probe_success_iff_latency
  (engine : Z -> dict -> probe_outcome) (xray_json : dict)
  (measure_speed : bool) (w : world) :
  (forall n d, monotonic_clock (engine n d)) ->
  exists r w',
    test_single engine xray_json measure_speed w = (Done r, w')
    /\ (success r = true <-> 0 <= latency_ms r)
    /\ (success r = false <-> latency_ms r = -1).
Proof.
  intros Hclock. unfold test_single. cbn.
  eexists. eexists. split; [reflexivity|].
  apply conclude_success_latency, Hclock.
Qed.

Lemma probe_success_iff_latency_witness :
  (forall (n : Z) (d : dict),
      monotonic_clock (Responded 204 0 (1 # 20) None))
  /\ exists r w',
       test_single (fun _ _ => Responded 204 0 (1 # 20) None) [] false fresh
         = (Done r, w')
       /\ (success r = true <-> 0 <= latency_ms r)
       /\ (success r = false <-> latency_ms r = -1).
Proof.
  split.
  - intros n d. cbn. discriminate.
  - apply (probe_success_iff_latency
             (fun _ _ => Responded 204 0 (1 # 20) None) [] false fresh).
    intros n d. cbn. discriminate.
Defined.

(** ** Encrypted hello *)

Lemma ech_dns_alone_is_ignored (config : dict) (v : pyval) (socks_port : Z) :
  build_xray_json config [("ech_dns", v)] socks_port
  = build_xray_json config [] socks_port.
Proof. reflexivity. Qed.

Lemma ech_disabled_is_ignored (config : dict) (socks_port : Z) :
  build_xray_json config [("ech_enabled", PBool false)] socks_port
  = build_xray_json config [] socks_port.
Proof. reflexivity. Qed.

(** ** Fragment values of the base configuration *)


(** ** Unrecognised protocol variants *)

Lemma build_unknown_protocol (config overrides : dict) (socks_port : Z)
  (protocol : pyval) :
  lookup config "protocol" = Some protocol ->
  recognized protocol = false ->
  build_xray_json config overrides socks_port
  = Raise (ValueError ("Unsupported protocol: " ++ str protocol)).
Proof.
  intros Hp Hr. unfold build_xray_json, index. rewrite Hp. cbn [bind].
  unfold recognized in Hr.
  destruct (eq_str protocol "vless"); [discriminate|].
  destruct (eq_str protocol "vmess"); [discriminate|].
  destruct (eq_str protocol "trojan"); [discriminate|].
  destruct (eq_str protocol "shadowsocks"); [discriminate|].
  reflexivity.
Qed.

Lemma mem_index (config : dict) (k : string) :
  mem k config = true -> exists v, index config k = Ok v /\ lookup config k = Some v.
Proof.
  unfold mem, index. destruct (lookup config k) as [v|]; [|discriminate].
  intros _. now exists v.
Qed.

Lemma split_if_truthy_ok (config : dict) :
  alpn_ok config = true ->
  exists a, split_if_truthy (get_or config "alpn" (PStr "")) = Ok a.
Proof.
  unfold alpn_ok, get_or, split_if_truthy.
  destruct (lookup config "alpn") as [[]|]; try discriminate; intros _;
    match goal with |- context [if ?c then _ else _] => destruct c end;
    eexists; reflexivity.
Qed.

Lemma stream_settings_ok (config overrides : dict) (security transport : pyval) :
  mem "address" config = true -> alpn_ok config = true ->
  exists stream,
    _build_stream_settings config overrides security transport = Ok stream.
Proof.
  intros Ha Hal. destruct (mem_index _ _ Ha) as (a & Hia & _).
  destruct (split_if_truthy_ok _ Hal) as (al & Hsplit).
  unfold _build_stream_settings, security_settings.
  destruct (eq_str security "reality"); [eexists; reflexivity|].
  destruct (eq_str security "tls"); [|eexists; reflexivity].
  rewrite Hia.
  destruct (get overrides "alpn"); cbn [bind]; try (eexists; reflexivity).
  rewrite Hsplit. eexists; reflexivity.
Qed.

Lemma build_recognized (config overrides : dict) (socks_port : Z) :
  is_base_config config = true ->
  recognized (get config "protocol") = true ->
  exists doc, build_xray_json config overrides socks_port = Ok doc.
Proof.
  unfold is_base_config. intros Hb Hr.
  apply andb_prop in Hb. destruct Hb as (Hb & Hal).
  apply andb_prop in Hb. destruct Hb as (Hb & Hcred).
  apply andb_prop in Hb. destruct Hb as (Hb & Hport).
  apply andb_prop in Hb. destruct Hb as (Hproto & Haddr).
  destruct (mem_index _ _ Hproto) as (p & Hip & Hlp).
  destruct (mem_index _ _ Haddr) as (a & Hia & _).
  destruct (mem_index _ _ Hport) as (po & Hipo & _).
  assert (Hget : get config "protocol" = p).
  { unfold get, get_or. now rewrite Hlp. }
  rewrite Hget in Hr. unfold credentials_ok in Hcred. rewrite Hget in Hcred.
  unfold recognized in Hr. unfold build_xray_json. rewrite Hip. cbn [bind].
  destruct (eq_str p "vless") eqn:E1.
  - cbn [orb] in Hcred. destruct (mem_index _ _ Hcred) as (u & Hiu & _).
    unfold _build_vless_outbound. rewrite Hia, Hipo, Hiu. cbn [bind].
    match goal with
    | |- context [_build_stream_settings ?c ?o ?s ?t] =>
        destruct (stream_settings_ok c o s t Haddr Hal) as (st & ->)
    end.
    eexists; reflexivity.
  - destruct (eq_str p "vmess") eqn:E2.
    + cbn [orb] in Hcred. destruct (mem_index _ _ Hcred) as (u & Hiu & _).
      unfold _build_vmess_outbound. rewrite Hia, Hipo, Hiu. cbn [bind].
      match goal with
      | |- context [_build_stream_settings ?c ?o ?s ?t] =>
          destruct (stream_settings_ok c o s t Haddr Hal) as (st & ->)
      end.
      eexists; reflexivity.
    + cbn [orb] in Hcred. destruct (eq_str p "trojan") eqn:E3.
      * destruct (mem_index _ _ Hcred) as (u & Hiu & _).
        unfold _build_trojan_outbound. rewrite Hia, Hipo, Hiu. cbn [bind].
        match goal with
        | |- context [_build_stream_settings ?c ?o ?s ?t] =>
            destruct (stream_settings_ok c o s t Haddr Hal) as (st & ->)
        end.
        eexists; reflexivity.
      * destruct (eq_str p "shadowsocks") eqn:E4; [|discriminate].
        apply andb_prop in Hcred. destruct Hcred as (Hm & Hpw).
        destruct (mem_index _ _ Hm) as (m & Him & _).
        destruct (mem_index _ _ Hpw) as (pw & Hipw & _).
        unfold _build_shadowsocks_outbound.
        rewrite Hia, Hipo, Him, Hipw. cbn [bind].
        eexists; reflexivity.
Qed.

Lemma product_nonempty {A} (lists : list (list A)) :
  Forall (fun l => l <> []) lists -> product lists <> [].
Proof.
  induction 1 as [|l lists Hl _ IH]; [discriminate|].
  cbn [product]. destruct l as [|x l]; [congruence|].
  cbn [flat_map]. destruct (product lists); [congruence|discriminate].
Qed.

Lemma param_space_nonempty (key : string) (values : list pyval) :
  lookup PARAM_SPACE key = Some values -> values <> [].
Proof.
  unfold PARAM_SPACE. cbn [lookup].
  repeat match goal with
         | |- context [if ?c then _ else _] => destruct c
         end;
    intros [= <-]; discriminate.
Qed.

Lemma full_grid_nonempty (config : dict) (param_groups : list string) :
  generate_full_grid config param_groups <> [].
Proof.
  unfold generate_full_grid.
  set (selected := flat_map _ param_groups).
  assert (Hsel : Forall (fun kv => snd kv <> []) selected).
  { apply Forall_forall. intros kv Hin. unfold selected in Hin.
    apply in_flat_map in Hin. destruct Hin as (g & _ & Hin).
    apply in_flat_map in Hin. destruct Hin as (key & _ & Hin).
    destruct (lookup PARAM_SPACE key) as [values|] eqn:E; [|contradiction].
    destruct Hin as [<-|[]]. cbn. eapply param_space_nonempty, E. }
  destruct (map fst selected); [discriminate|].
  assert (Hp : product (map snd selected) <> []).
  { apply product_nonempty. apply Forall_map. exact Hsel. }
  destruct (product (map snd selected)); [congruence|discriminate].
Qed.

Lemma build_cases_raise (config : dict) (cases : list test_case) (e : exn) :
  (forall overrides, build_xray_json config overrides 10808 = Raise e) ->
  cases <> [] -> build_cases config cases = Raise e.
Proof.
  intros Hb Hc. destruct cases as [|[overrides desc] rest]; [congruence|].
  cbn [build_cases]. now rewrite Hb.
Qed.

(** C7.  A base configuration whose protocol is none of vless, vmess,
    trojan and shadowsocks makes [build_xray_json] raise [ValueError], and
    each of the three searches raises it too, from the first document it
    builds: the port counter is untouched, the trace holds the start of the
    first phase and no launch, and there is no result.  A base configuration
    with one of the four protocols gets a document. *)
Theorem unrecognized_protocol_is_hard_error
  (engine : Z -> dict -> probe_outcome) (config overrides : dict)
  (socks_port : Z) (param_groups : list string) (concurrency : Z)
  (measure_speed : bool) (sched_sweep sched_combo : nat -> nat) (w : world) :
  is_base_config config = true ->
  let e :=
    ValueError ("Unsupported protocol: " ++ str (get config "protocol")) in
  let stopped name total :=
    {| _port_counter := _port_counter w;
       trace := (trace w ++ [PhaseStarted name 1 total])%list |} in
  (recognized (get config "protocol") = false ->
   build_xray_json config overrides socks_port = Raise e
   /\ smart_search engine config param_groups concurrency measure_speed
        sched_sweep sched_combo w = (Fail e, stopped "Baseline Test" 3)
   /\ quick_search engine config concurrency measure_speed
        sched_sweep sched_combo w = (Fail e, stopped "Baseline Test" 3)
   /\ full_search engine config param_groups concurrency measure_speed
        sched_sweep w = (Fail e, stopped "Full Grid Search" 1))
  /\ (recognized (get config "protocol") = true ->
      exists doc, build_xray_json config overrides socks_port = Ok doc).
Proof.
  intros Hb e stopped. split; [|now apply build_recognized].
  intros Hr.
  assert (Hp : lookup config "protocol" = Some (get config "protocol")).
  { unfold is_base_config in Hb. repeat (apply andb_prop in Hb as (Hb & _)).
    unfold mem in Hb. unfold get, get_or.
    destruct (lookup config "protocol"); [reflexivity|discriminate]. }
  assert (Hraise : forall o p, build_xray_json config o p = Raise e).
  { intros o p. now apply build_unknown_protocol. }
  split; [apply Hraise|]. split; [|split].
  - unfold smart_search, mbind, emit, lift. now rewrite Hraise.
  - unfold quick_search, smart_search, mbind, emit, lift. now rewrite Hraise.
  - unfold full_search, mbind, emit, lift.
    rewrite (build_cases_raise config _ e); [reflexivity| |].
    + intros o. apply Hraise.
    + apply full_grid_nonempty.
Qed.

Lemma unrecognized_protocol_is_hard_error_witness :
  let unknown : dict :=
    [ ("protocol", PStr "wireguard"); ("address", PStr "203.0.113.7");
      ("port", PInt 51820) ] in
  let e := ValueError "Unsupported protocol: wireguard" in
  (is_base_config unknown = true
   /\ recognized (get unknown "protocol") = false
   /\ build_xray_json unknown [] 10808 = Raise e
   /\ fst (smart_search (fun _ _ => TimedOut) unknown ["fingerprint"] 10 false
             (fun _ => O) (fun _ => O) fresh) = Fail e)
  /\ (is_base_config vless_plain = true
      /\ recognized (get vless_plain "protocol") = true
      /\ exists doc, build_xray_json vless_plain [] 10808 = Ok doc).
Proof.
  intros unknown e. split.
  - split; [reflexivity|]. split; [reflexivity|].
    destruct (unrecognized_protocol_is_hard_error
                (fun _ _ => TimedOut) unknown [] 10808 ["fingerprint"] 10
                false (fun _ => O) (fun _ => O) fresh eq_refl)
      as [Hu _].
    destruct (Hu eq_refl) as (Hbuild & Hsmart & _).
    split; [exact Hbuild|]. now rewrite Hsmart.
  - split; [reflexivity|]. split; [reflexivity|].
    destruct (unrecognized_protocol_is_hard_error
                (fun _ _ => TimedOut) vless_plain [] 10808 ["fingerprint"] 10
                false (fun _ => O) (fun _ => O) fresh eq_refl)
      as [_ Hk].
    exact (Hk eq_refl).
Defined.

(** ** The batch executor *)

Section Batch.

Variable engine : Z -> dict -> probe_outcome.
Variable measure_speed : bool.

Lemma test_single_result (t : dict) (w : world) :
  exists w',
    test_single engine t measure_speed w
    = (Done (result_at engine measure_speed (_port_counter w) t), w')
    /\ _port_counter w' = _port_counter w + 1.
Proof.
  unfold test_single, mbind, _next_port, emit, ret, result_at.
  eexists. split; reflexivity.
Qed.

Lemma probe_all_results (tests : list dict) (w : world) :
  exists w',
    probe_all engine tests measure_speed w
    = (Done (results_from engine measure_speed (_port_counter w) tests), w')
    /\ _port_counter w' = _port_counter w + Z.of_nat (length tests).
Proof.
  revert w. induction tests as [|t rest IH]; intros w.
  - exists w. split; [reflexivity|]. cbn. lia.
  - destruct (test_single_result t w) as (w1 & H1 & Hc1).
    destruct (IH w1) as (w2 & H2 & Hc2).
    exists w2. split.
    + cbn [probe_all results_from]. unfold mbind at 1. rewrite H1.
      unfold mbind at 1. rewrite H2, Hc1. reflexivity.
    + rewrite Hc2, Hc1. cbn [length]. lia.
Qed.

Lemma results_from_app (n : Z) (l1 l2 : list dict) :
  results_from engine measure_speed n (l1 ++ l2)
  = (results_from engine measure_speed n l1
       ++ results_from engine measure_speed (n + Z.of_nat (length l1)) l2)%list.
Proof.
  revert n. induction l1 as [|t l1 IH]; intros n.
  - cbn. now rewrite Z.add_0_r.
  - cbn [app results_from length]. rewrite IH. do 3 f_equal. lia.
Qed.

Lemma results_from_length (n : Z) (l : list dict) :
  length (results_from engine measure_speed n l) = length l.
Proof. revert n. induction l; intros n; cbn; auto. Qed.

Lemma fill_spec (concurrency : Z) (waiting : list dict)
  (running : list TestResult) (w : world) :
  exists started waiting' w',
    fill engine concurrency measure_speed waiting running w
    = (Done (waiting',
             (running
                ++ results_from engine measure_speed (_port_counter w) started)%list),
       w')
    /\ waiting = (started ++ waiting')%list
    /\ _port_counter w' = _port_counter w + Z.of_nat (length started)
    /\ (waiting' = []
        \/ concurrency
           <= Z.of_nat
                (length
                   (running
                      ++ results_from engine measure_speed (_port_counter w)
                           started))).
Proof.
  revert running w. induction waiting as [|t rest IH]; intros running w.
  - exists [], [], w. cbn. rewrite app_nil_r.
    repeat split; auto; lia.
  - cbn [fill]. destruct (Z.of_nat (length running) <? concurrency) eqn:E.
    + destruct (test_single_result t w) as (w1 & H1 & Hc1).
      destruct (IH (running ++ [result_at engine measure_speed
                                   (_port_counter w) t])%list w1)
        as (started & waiting' & w2 & H2 & Hw & Hc2 & Hfull).
      exists (t :: started), waiting', w2.
      unfold mbind. rewrite H1. rewrite Hc1 in *.
      cbn [results_from]. rewrite <- app_assoc in H2, Hfull.
      cbn [app] in H2, Hfull.
      split; [exact H2|]. split; [cbn [app]; now rewrite Hw|].
      split; [cbn [length]; lia|exact Hfull].
    + exists [], (t :: rest), w. cbn [results_from app length].
      rewrite app_nil_r. apply Z.ltb_ge in E.
      split; [reflexivity|]. split; [reflexivity|]. split; [cbn; lia|].
      right. lia.
Qed.

Lemma pick_perm {A} (i : nat) (x : A) (rest : list A) :
  Permutation (x :: rest) (fst (pick i x rest) :: snd (pick i x rest)).
Proof.
  revert x rest. induction i as [|i IH]; intros x rest; [reflexivity|].
  destruct rest as [|y rest]; [reflexivity|].
  cbn [pick]. specialize (IH y rest). destruct (pick i y rest) as [z others].
  cbn [fst snd] in *. rewrite IH. apply perm_swap.
Qed.

Lemma gather_spec (remaining : nat) :
  forall (concurrency : Z) (sched : nat -> nat) (total : Z)
         (waiting : list dict) (running results : list TestResult)
         (completed : Z) (w : world),
    1 <= concurrency ->
    remaining = (length waiting + length running)%nat ->
    exists rs w',
      gather engine remaining concurrency measure_speed sched total
        waiting running results completed w = (Done rs, w')
      /\ Permutation rs
           (results ++ running
              ++ results_from engine measure_speed (_port_counter w) waiting).
Proof.
  induction remaining as [|remaining IH];
    intros concurrency sched total waiting running results completed w Hc Hr.
  - destruct waiting; [|discriminate]. destruct running; [|discriminate].
    exists results, w. split; [reflexivity|]. cbn. now rewrite app_nil_r.
  - destruct (fill_spec concurrency waiting running w)
      as (started & waiting' & w1 & Hfill & Hw & Hc1 & Hfull).
    cbn [gather]. unfold mbind at 1. rewrite Hfill. cbn [snd fst].
    set (running1 :=
           (running
              ++ results_from engine measure_speed (_port_counter w) started)%list)
      in *.
    assert (Hlen : (length waiting' + length running1 = S remaining)%nat).
    { unfold running1. rewrite length_app, results_from_length.
      rewrite Hr, Hw, length_app. lia. }
    destruct running1 as [|r0 others] eqn:Erun.
    { exfalso. destruct Hfull as [->|Hfull]; cbn in *; lia. }
    assert (Hpick := pick_perm (sched (Z.to_nat completed)) r0 others).
    destruct (pick (sched (Z.to_nat completed)) r0 others)
      as [result running'] eqn:Epick.
    cbn [fst snd] in Hpick.
    unfold mbind at 1. unfold emit at 1.
    match goal with
    | |- context [gather _ _ _ _ _ _ _ _ ?res ?cmp ?w2] =>
        destruct (IH concurrency sched total waiting' running' res cmp w2 Hc)
          as (rs & w' & Hg & Hperm)
    end.
    { apply Permutation_length in Hpick. cbn [length] in *. lia. }
    exists rs, w'. split; [exact Hg|].
    rewrite Hperm. cbn [_port_counter]. rewrite Hc1.
    rewrite Hw, results_from_app.
    rewrite <- !app_assoc. apply Permutation_app_head.
    rewrite !app_assoc. apply Permutation_app_tail.
    cbn [app]. rewrite <- Hpick, <- Erun. unfold running1. reflexivity.
Qed.

End Batch.

(** Where the claim C8 fails: with a concurrency limit of zero no task ever
    gets a slot, and the batch over one document never returns; a negative
    limit is refused when the semaphore is made. *)
Lemma run_batch_stuck_without_slots :
  match build_xray_json vless_plain [] 10808 with
  | Ok doc =>
      fst (run_batch (fun _ _ => Responded 204 0 (1 # 20) None) [doc] 0 false
             (fun _ => O) fresh) = Hang
      /\ fst (run_batch (fun _ _ => Responded 204 0 (1 # 20) None) [doc] (-1)
                false (fun _ => O) fresh)
         = Fail (ValueError "Semaphore initial value must be >= 0")
  | Raise _ => False
  end.
Proof. vm_compute. split; reflexivity. Qed.

(** The documents the searches hand to a batch are documents of the
    builder, annotated: the port can be written into each of them. *)
Lemma built_document_port_writable (config overrides annotation : dict)
  (desc : string) (socks_port : Z) (doc : dict) :
  build_xray_json config overrides socks_port = Ok doc ->
  port_writable doc = true
  /\ port_writable (annotate doc annotation desc) = true.
Proof.
  unfold build_xray_json. intros H.
  destruct (index config "protocol") as [protocol|]; cbn [bind] in H;
    [|discriminate].
  match type of H with
  | context [bind ?m _] => destruct m as [outbound|]
  end; cbn [bind] in H; [|discriminate].
  injection H as <-. split; reflexivity.
Qed.

Lemma built_cases_port_writable (config : dict) (cases : list test_case)
  (docs : list dict) :
  build_cases config cases = Ok docs -> forallb port_writable docs = true.
Proof.
  revert docs. induction cases as [|[overrides desc] cases IH]; intros docs H.
  - cbn in H. injection H as <-. reflexivity.
  - cbn [build_cases] in H.
    destruct (build_xray_json config overrides 10808) as [doc|] eqn:Ed;
      cbn [bind] in H; [|discriminate].
    destruct (build_cases config cases) as [rest|]; cbn [bind] in H;
      [|discriminate].
    injection H as <-. cbn [forallb]. rewrite (IH rest eq_refl).
    destruct (built_document_port_writable config overrides overrides desc
                10808 doc Ed) as [_ ->].
    reflexivity.
Qed.

(** C8, amended.  For every list of documents into each of which the port
    can be written, as it can into every document of the searches, and every
    concurrency limit of at least one, whatever the probes meet and in
    whatever order they complete, [run_batch] returns, with as many results
    as documents: the results the probes give one by one, in the order of
    completion. *)
Theorem run_batch_returns_every_result
  (engine : Z -> dict -> probe_outcome) (tests : list dict)
  (concurrency : Z) (measure_speed : bool) (sched : nat -> nat) (w : world) :
  1 <= concurrency ->
  forallb port_writable tests = true ->
  exists results w' singles w'',
    run_batch engine tests concurrency measure_speed sched w = (Done results, w')
    /\ length results = length tests
    /\ probe_all engine tests measure_speed w = (Done singles, w'')
    /\ Permutation results singles.
Proof.
  intros Hc _.
  destruct (gather_spec engine measure_speed (length tests) concurrency sched
              (Z.of_nat (length tests)) tests [] [] 0 w Hc)
    as (rs & w' & Hg & Hperm); [cbn; lia|].
  destruct (probe_all_results engine measure_speed tests w) as (w'' & Hp & _).
  cbn [app] in Hperm.
  exists rs, w', (results_from engine measure_speed (_port_counter w) tests), w''.
  unfold run_batch. replace (concurrency <? 0) with false
    by (symmetry; apply Z.ltb_ge; lia).
  repeat split; auto.
  apply Permutation_length in Hperm. now rewrite Hperm, results_from_length.
Qed.

Lemma run_batch_returns_every_result_witness :
  1 <= 1
  /\ forallb port_writable two_documents = true
  /\ exists results w' singles w'',
       run_batch first_probe_crashes two_documents 1 false (fun _ => O) fresh
       = (Done results, w')
       /\ length results = length two_documents
       /\ probe_all first_probe_crashes two_documents false fresh
          = (Done singles, w'')
       /\ Permutation results singles.
Proof.
  split; [lia|]. split; [vm_compute; reflexivity|].
  apply (run_batch_returns_every_result first_probe_crashes two_documents 1
           false (fun _ => O) fresh).
  - lia.
  - vm_compute. reflexivity.
Defined.

(** ** Frames of the document builder *)

Lemma seg_eqb_refl (a : seg) : seg_eqb a a = true.
Proof. destruct a; cbn; [apply String.eqb_refl | apply Nat.eqb_refl]. Qed.

Lemma overlap_nil (p : path) : overlap [] p = true.
Proof. reflexivity. Qed.

Lemma overlap_same_head (a : seg) (f p : path) :
  overlap (a :: f) (a :: p) = overlap f p.
Proof. unfold overlap. cbn. now rewrite seg_eqb_refl. Qed.

Lemma outside_frame (fields : list path) (p : path) :
  In [] fields -> outside fields p = false.
Proof.
  unfold outside.
  induction fields as [|f fields IH]; [contradiction|].
  intros [->|Hin]; cbn [forallb]; [reflexivity|].
  rewrite (IH Hin). apply andb_false_r.
Qed.

Lemma outside_root (fields : list path) :
  fields <> [] -> outside fields [] = false.
Proof.
  destruct fields as [|f fields]; [congruence|]. intros _. cbn.
  unfold overlap. destruct f; cbn; reflexivity.
Qed.

Lemma outside_sub (fields : list path) (k : string) (q : path) :
  outside fields (Key k :: q) = true -> outside (sub fields k) q = true.
Proof.
  induction fields as [|f fields IH]; [reflexivity|].
  cbn [outside forallb]. intros H. apply andb_prop in H. destruct H as [Hf H].
  specialize (IH H). unfold sub. cbn [flat_map]. fold (sub fields k).
  destruct f as [|[k'|i] f']; try exact IH.
  destruct (String.eqb_spec k' k) as [->|Hne]; [|exact IH].
  cbn [app outside forallb]. rewrite overlap_same_head in Hf.
  now rewrite Hf.
Qed.

Lemma outside_subi (fields : list path) (i : nat) (q : path) :
  outside fields (Idx i :: q) = true -> outside (subi fields i) q = true.
Proof.
  induction fields as [|f fields IH]; [reflexivity|].
  cbn [outside forallb]. intros H. apply andb_prop in H. destruct H as [Hf H].
  specialize (IH H). unfold subi. cbn [flat_map]. fold (subi fields i).
  destruct f as [|[k|i'] f']; try exact IH.
  destruct (Nat.eqb_spec i' i) as [->|Hne]; [|exact IH].
  cbn [app outside forallb]. rewrite overlap_same_head in Hf.
  now rewrite Hf.
Qed.

Lemma sub_map_key (k k' : string) (g : path -> path) (fields : list path) :
  sub (map (fun f => Key k :: g f) fields) k'
  = if (k =? k')%string then map g fields else [].
Proof.
  induction fields as [|f fields IH]; [now destruct (k =? k')%string|].
  unfold sub in *. cbn [map flat_map]. rewrite IH.
  destruct (k =? k')%string; reflexivity.
Qed.

Lemma subi_map_idx (i i' : nat) (g : path -> path) (fields : list path) :
  subi (map (fun f => Idx i :: g f) fields) i'
  = if Nat.eqb i i' then map g fields else [].
Proof.
  induction fields as [|f fields IH]; [now destruct (Nat.eqb i i')|].
  unfold subi in *. cbn [map flat_map]. rewrite IH.
  destruct (Nat.eqb i i'); reflexivity.
Qed.

Lemma lookup_set {V} (d : list (string * V)) (k k' : string) (v : V) :
  lookup (set d k v) k' = if (k =? k')%string then Some v else lookup d k'.
Proof.
  induction d as [|[k0 v0] d IH]; [reflexivity|].
  cbn [set]. destruct (String.eqb_spec k0 k) as [->|Hne].
  - cbn [lookup]. destruct (k =? k')%string; reflexivity.
  - cbn [lookup]. rewrite IH.
    destruct (String.eqb_spec k0 k') as [->|Hne']; [|reflexivity].
    destruct (String.eqb_spec k k'); [congruence|reflexivity].
Qed.

Lemma agree_opt_refl (fields : list path) (o : option pyval) :
  agree_opt fields o o.
Proof. intros p _. reflexivity. Qed.

Lemma agree_opt_frame (fields : list path) (o1 o2 : option pyval) :
  In [] fields -> agree_opt fields o1 o2.
Proof. intros Hin p Hp. rewrite (outside_frame _ p Hin) in Hp. discriminate. Qed.

Lemma agree_opt_equal (o1 o2 : option pyval) :
  agree_opt [] o1 o2 -> o1 = o2.
Proof.
  intros H. specialize (H [] eq_refl). destruct o1, o2; cbn in H; congruence.
Qed.

Lemma agree_opt_dict (fields : list path) (d1 d2 : dict) :
  fields <> [] -> dagree fields d1 d2 ->
  agree_opt fields (Some (PDict d1)) (Some (PDict d2)).
Proof.
  intros Hne Hd p Hp. destruct p as [|[k|i] q].
  - now rewrite outside_root in Hp.
  - apply outside_sub in Hp. specialize (Hd k q Hp). cbn [get_opt get_path].
    destruct (lookup d1 k), (lookup d2 k); exact Hd.
  - reflexivity.
Qed.

Lemma agree_opt_dict_none (fields : list path) (d : dict) :
  fields <> [] -> dagree fields d [] ->
  agree_opt fields (Some (PDict d)) None.
Proof.
  intros Hne Hd p Hp. destruct p as [|[k|i] q].
  - now rewrite outside_root in Hp.
  - apply outside_sub in Hp. specialize (Hd k q Hp). cbn [get_opt get_path].
    destruct (lookup d k); exact Hd.
  - reflexivity.
Qed.

Lemma agree_opt_sym (fields : list path) (o1 o2 : option pyval) :
  agree_opt fields o1 o2 -> agree_opt fields o2 o1.
Proof. intros H p Hp. symmetry. now apply H. Qed.

Lemma agree_opt_list1 (fields : list path) (v1 v2 : pyval) :
  fields <> [] -> agree_opt (subi fields 0) (Some v1) (Some v2) ->
  agree_opt fields (Some (PList [v1])) (Some (PList [v2])).
Proof.
  intros Hne Hv p Hp. destruct p as [|[k|i] q].
  - now rewrite outside_root in Hp.
  - reflexivity.
  - cbn [get_opt get_path]. destruct i as [|i].
    + apply outside_subi in Hp. exact (Hv q Hp).
    + cbn. now destruct i.
Qed.

Lemma dagree_refl (fields : list path) (d : dict) : dagree fields d d.
Proof. intros k. apply agree_opt_refl. Qed.

Lemma dagree_sym (fields : list path) (d1 d2 : dict) :
  dagree fields d1 d2 -> dagree fields d2 d1.
Proof. intros H k. apply agree_opt_sym, H. Qed.

Lemma dagree_set (fields : list path) (d1 d2 : dict) (k : string)
  (v1 v2 : pyval) :
  agree_opt (sub fields k) (Some v1) (Some v2) ->
  dagree fields d1 d2 -> dagree fields (set d1 k v1) (set d2 k v2).
Proof.
  intros Hv Hd k'. rewrite !lookup_set.
  destruct (String.eqb_spec k k') as [<-|_]; [exact Hv|apply Hd].
Qed.

Lemma dagree_set_l (fields : list path) (d1 d2 : dict) (k : string)
  (v : pyval) :
  agree_opt (sub fields k) (Some v) (lookup d2 k) ->
  dagree fields d1 d2 -> dagree fields (set d1 k v) d2.
Proof.
  intros Hv Hd k'. rewrite lookup_set.
  destruct (String.eqb_spec k k') as [<-|_]; [exact Hv|apply Hd].
Qed.

Lemma dagree_set_r (fields : list path) (d1 d2 : dict) (k : string)
  (v : pyval) :
  agree_opt (sub fields k) (lookup d1 k) (Some v) ->
  dagree fields d1 d2 -> dagree fields d1 (set d2 k v).
Proof.
  intros Hv Hd. apply dagree_sym, dagree_set_l; [|now apply dagree_sym].
  now apply agree_opt_sym.
Qed.

Lemma dagree_cons (fields : list path) (d1 d2 : dict) (k : string)
  (v1 v2 : pyval) :
  agree_opt (sub fields k) (Some v1) (Some v2) ->
  dagree fields d1 d2 -> dagree fields ((k, v1) :: d1) ((k, v2) :: d2).
Proof.
  intros Hv Hd k'. cbn [lookup].
  destruct (String.eqb_spec k k') as [<-|_]; [exact Hv|apply Hd].
Qed.

Lemma dagree_cons_l (fields : list path) (d1 d2 : dict) (k : string)
  (v : pyval) :
  In [] (sub fields k) ->
  dagree fields d1 d2 -> dagree fields ((k, v) :: d1) d2.
Proof.
  intros Hv Hd k'. cbn [lookup].
  destruct (String.eqb_spec k k') as [<-|_];
    [now apply agree_opt_frame|apply Hd].
Qed.

Lemma dagree_cons_r (fields : list path) (d1 d2 : dict) (k : string)
  (v : pyval) :
  In [] (sub fields k) ->
  dagree fields d1 d2 -> dagree fields d1 ((k, v) :: d2).
Proof.
  intros Hv Hd. now apply dagree_sym, dagree_cons_l; [|apply dagree_sym].
Qed.

Lemma sub_cons (f : path) (fields : list path) (k : string) :
  sub (f :: fields) k
  = (match f with
     | Key k' :: q => if (k' =? k)%string then [q] else []
     | _ => []
     end ++ sub fields k)%list.
Proof. reflexivity. Qed.

Lemma map_nonempty {A B} (g : A -> B) (l : list A) : l <> [] -> map g l <> [].
Proof. destruct l; [congruence|discriminate]. Qed.

(** The document around the stream settings: two documents whose stream
    settings agree outside some fields differ only in these fields and in
    the port. *)
Lemma document_frame (fields : list path) (protocol settings : pyval)
  (s1 s2 : dict) (port1 port2 : Z) :
  fields <> [] -> dagree fields s1 s2 ->
  let document port stream : dict :=
    [ ("log", PDict [ ("loglevel", PStr "warning") ]);
      ("inbounds",
        PList [ PDict [ ("tag", PStr "socks-in");
                        ("port", PInt port);
                        ("listen", PStr "127.0.0.1");
                        ("protocol", PStr "socks");
                        ("settings",
                          PDict [ ("auth", PStr "noauth");
                                  ("udp", PBool true) ]) ] ]);
      ("outbounds",
        PList [ PDict [ ("tag", PStr "proxy");
                        ("protocol", protocol);
                        ("settings", settings);
                        ("streamSettings", PDict stream) ] ]) ] in
  differs_only_in
    (port_path
       :: map (fun f => Key "outbounds" :: Idx 0 :: Key "streamSettings" :: f)
            fields)
    (PDict (document port1 s1)) (PDict (document port2 s2)).
Proof.
  intros Hne Hs document.
  set (FF := port_path
               :: map (fun f => Key "outbounds" :: Idx 0
                                  :: Key "streamSettings" :: f) fields).
  assert (Hin : sub FF "inbounds" = [[Idx 0; Key "port"]]).
  { unfold FF.
    rewrite sub_cons,
      (sub_map_key "outbounds" "inbounds"
         (fun f => Idx 0 :: Key "streamSettings" :: f)).
    reflexivity. }
  assert (Hout : sub FF "outbounds"
                 = map (fun f => Idx 0 :: Key "streamSettings" :: f) fields).
  { unfold FF.
    rewrite sub_cons,
      (sub_map_key "outbounds" "outbounds"
         (fun f => Idx 0 :: Key "streamSettings" :: f)).
    reflexivity. }
  change (agree_opt FF (Some (PDict (document port1 s1)))
            (Some (PDict (document port2 s2)))).
  apply agree_opt_dict; [discriminate|]. unfold document.
  apply dagree_cons; [apply agree_opt_refl|].
  apply dagree_cons.
  { rewrite Hin. apply agree_opt_list1; [discriminate|].
    apply agree_opt_dict; [discriminate|].
    apply dagree_cons; [apply agree_opt_refl|].
    apply dagree_cons; [apply agree_opt_frame; left; reflexivity|].
    apply dagree_refl. }
  apply dagree_cons; [|apply dagree_refl].
  rewrite Hout. apply agree_opt_list1; [now apply map_nonempty|].
  rewrite (subi_map_idx 0 0 (fun f => Key "streamSettings" :: f)).
  cbn [Nat.eqb]. apply agree_opt_dict; [now apply map_nonempty|].
  do 3 (apply dagree_cons; [apply agree_opt_refl|]).
  apply dagree_cons; [|apply dagree_refl].
  rewrite (sub_map_key "streamSettings" "streamSettings" (fun f => f)).
  rewrite String.eqb_refl, map_id. now apply agree_opt_dict.
Qed.

(** Automation for agreement of literal and updated dictionaries. *)
Ltac rewrite_lookups :=
  repeat match goal with
         | H : lookup ?d ?k = _ |- context [lookup ?d ?k] => rewrite H
         end.

Ltac in_frame := solve [vm_compute; auto].

Ltac agree_values :=
  rewrite_lookups;
  first
    [ apply agree_opt_refl
    | apply agree_opt_frame; in_frame
    | apply agree_opt_dict; [vm_compute; discriminate | agree_dicts]
    | apply agree_opt_dict_none; [vm_compute; discriminate | agree_dicts]
    | apply agree_opt_sym, agree_opt_dict_none;
      [vm_compute; discriminate | agree_dicts] ]
with agree_dicts :=
  first
    [ apply dagree_refl
    | assumption
    | apply dagree_cons; [agree_values | agree_dicts]
    | apply dagree_cons_l; [in_frame | agree_dicts]
    | apply dagree_cons_r; [in_frame | agree_dicts]
    | apply dagree_set; [agree_values | agree_dicts]
    | apply dagree_set_l; [agree_values | agree_dicts]
    | apply dagree_set_r; [agree_values | agree_dicts] ].

Ltac split_keys H :=
  cbv [param_keys PARAM_SPACE map fst In] in H;
  repeat (destruct H as [<-|H]); [..|contradiction].

Lemma sockopt_frame (key : string) (value : pyval) (config : option dict)
  (s1 s2 : dict) :
  In key param_keys ->
  dagree (stream_block key) s1 s2 ->
  lookup s1 "sockopt" = None -> lookup s2 "sockopt" = None ->
  dagree (stream_block key)
    (_apply_sockopt s1 [(key, value)] config) (_apply_sockopt s2 [] config).
Proof.
  intros Hkey Hs Hn1 Hn2. split_keys Hkey.
  all: unfold _apply_sockopt; cbn [get get_or lookup mem String.eqb Ascii.eqb Bool.eqb].
  all: cbv beta iota zeta.
  all: repeat match goal with
              | |- context [if (?a || ?b || ?c)%bool then _ else _] =>
                  destruct (a || b || c)%bool
              end.
  all: cbn [set truthy String.eqb Ascii.eqb Bool.eqb].
  all: agree_dicts.
Qed.

Lemma apply_sockopt_shape (s overrides : dict) (config : option dict) :
  _apply_sockopt s overrides config = s
  \/ exists sockopt, _apply_sockopt s overrides config = set s "sockopt" sockopt.
Proof.
  unfold _apply_sockopt.
  match goal with
  | |- context [if ?c then set s "sockopt" ?v else s] =>
      destruct c; [right; now exists v | now left]
  end.
Qed.

Lemma apply_sockopt_keeps_tls (s overrides : dict) (config : option dict) :
  lookup (_apply_sockopt s overrides config) "tlsSettings"
  = lookup s "tlsSettings".
Proof.
  destruct (apply_sockopt_shape s overrides config) as [->|(so & ->)];
    [reflexivity|].
  now rewrite lookup_set.
Qed.

Lemma allow_insecure_frame (fields : list path) (config a1 a2 : dict) :
  dagree fields a1 a2 -> tls_rel fields a1 a2 ->
  dagree fields (allow_insecure config a1) (allow_insecure config a2).
Proof.
  intros Ha Htls. unfold allow_insecure.
  destruct (truthy (get config "allow_insecure")); [|exact Ha].
  destruct Htls as [Heq|(t1 & t2 & H1 & H2 & Hne & Ht)].
  - rewrite Heq. destruct (lookup a2 "tlsSettings") as [[]|]; try exact Ha.
    apply dagree_set; [apply agree_opt_refl|exact Ha].
  - rewrite H1, H2. apply dagree_set; [|exact Ha].
    apply agree_opt_dict; [exact Hne|].
    apply dagree_set; [apply agree_opt_refl|exact Ht].
Qed.

Lemma post_frame (key : string) (value : pyval) (config s1 s2 : dict) :
  In key param_keys ->
  stream_rel (stream_block key) s1 s2 ->
  dagree (stream_block key)
    (allow_insecure config (_apply_sockopt s1 [(key, value)] (Some config)))
    (allow_insecure config (_apply_sockopt s2 [] (Some config))).
Proof.
  intros Hkey (Hs & Hn1 & Hn2 & Htls).
  apply allow_insecure_frame; [now apply sockopt_frame|].
  unfold tls_rel. rewrite !apply_sockopt_keeps_tls. exact Htls.
Qed.

Lemma transport_settings_keys (config overrides : dict) (transport : pyval) :
  lookup (transport_settings config overrides [("network", transport)] transport)
    "sockopt" = None
  /\ lookup (transport_settings config overrides [("network", transport)] transport)
       "tlsSettings" = None.
Proof.
  unfold transport_settings.
  repeat match goal with
         | |- context [if eq_str ?a ?b then _ else _] => destruct (eq_str a b)
         end;
    rewrite ?lookup_set; split; reflexivity.
Qed.

Lemma transport_frame (key : string) (value : pyval) (config : dict)
  (default : pyval) :
  In key param_keys ->
  let t1 := get_or [(key, value)] "transport" default in
  let t2 := get_or [] "transport" default in
  pre_rel (stream_block key)
    (transport_settings config [(key, value)] [("network", t1)] t1)
    (transport_settings config [] [("network", t2)] t2).
Proof.
  intros Hkey t1 t2. unfold pre_rel.
  destruct (transport_settings_keys config [(key, value)] t1) as [-> ->].
  destruct (transport_settings_keys config [] t2) as [-> ->].
  split; [|repeat split]. subst t1 t2. split_keys Hkey.
  all: cbn [get_or lookup String.eqb Ascii.eqb Bool.eqb].
  all: try apply dagree_refl.
  all: unfold transport_settings;
    cbn [get get_or lookup String.eqb Ascii.eqb Bool.eqb].
  all: repeat match goal with
              | |- context [if ?c then _ else _] => destruct c
              end.
  all: cbn [set String.eqb Ascii.eqb Bool.eqb].
  all: agree_dicts.
Qed.

Ltac lookup_after_sets :=
  rewrite ?lookup_set; cbn [String.eqb Ascii.eqb Bool.eqb]; rewrite_lookups.

Ltac tls_related :=
  first
    [ left; lookup_after_sets; reflexivity
    | right; do 2 eexists;
      split; [lookup_after_sets; reflexivity|];
      split; [lookup_after_sets; reflexivity|];
      split; [vm_compute; discriminate | agree_dicts] ].

Lemma security_frame (key : string) (value : pyval) (config t1 t2 : dict)
  (security : pyval) :
  In key param_keys -> alpn_ok config = true ->
  pre_rel (stream_block key) t1 t2 ->
  ragree_with (stream_rel (stream_block key))
    (security_settings config [(key, value)] t1 security)
    (security_settings config [] t2 security).
Proof.
  intros Hkey Hal (Ht & Hn1 & Hn2 & Hl1 & Hl2).
  destruct (split_if_truthy_ok _ Hal) as (a & Ha).
  unfold security_settings, index. rewrite Ha.
  destruct (eq_str security "reality");
    [|destruct (eq_str security "tls");
      [destruct (lookup config "address") as [address|]|]].
  all: split_keys Hkey.
  all: cbn [get get_or lookup String.eqb Ascii.eqb Bool.eqb bind truthy].
  all: try reflexivity.
  all: match goal with
       | H : dagree (stream_block "alpn") _ _ |- _ => destruct value
       | _ => idtac
       end.
  all: cbn [bind ragree_with]; try reflexivity.
  all: repeat match goal with
              | |- context [if ?c then _ else _] => destruct c
              end.
  all: cbn [set String.eqb Ascii.eqb Bool.eqb ragree_with].
  all: unfold stream_rel.
  all: split; [agree_dicts|].
  all: split; [lookup_after_sets; reflexivity|].
  all: split; [lookup_after_sets; reflexivity|].
  all: tls_related.
Qed.

Lemma stream_frame (key : string) (value : pyval) (config : dict)
  (security default : pyval) :
  In key param_keys -> alpn_ok config = true ->
  ragree_with (dagree (stream_block key))
    (_build_stream_settings config [(key, value)] security
       (get_or [(key, value)] "transport" default))
    (_build_stream_settings config [] security
       (get_or [] "transport" default)).
Proof.
  intros Hkey Hal. unfold _build_stream_settings.
  assert (Hs := security_frame key value config _ _ security Hkey Hal
                  (transport_frame key value config default Hkey)).
  cbv zeta in Hs.
  destruct (security_settings config [(key, value)] _ security) as [s1|e1],
           (security_settings config [] _ security) as [s2|e2];
    cbn [ragree_with bind] in *; try contradiction; try exact Hs.
  now apply post_frame.
Qed.

Lemma shadowsocks_frame (key : string) (value : pyval) :
  In key param_keys ->
  dagree (stream_block key)
    (_apply_sockopt [("network", PStr "tcp")] [(key, value)] None)
    (_apply_sockopt [("network", PStr "tcp")] [] None).
Proof.
  intros Hkey. apply sockopt_frame; auto using dagree_refl.
Qed.

Lemma stream_block_nonempty (key : string) :
  In key param_keys -> stream_block key <> [].
Proof. intros Hkey. split_keys Hkey; discriminate. Qed.

Lemma block_of_stream_block (key : string) :
  block_of key
  = map (fun f => Key "outbounds" :: Idx 0 :: Key "streamSettings" :: f)
      (stream_block key).
Proof. unfold block_of, stream_block. now rewrite map_map. Qed.

Lemma lookup_in_keys {V} (t : list (string * V)) (k : string) (v : V) :
  lookup t k = Some v -> In k (map fst t).
Proof.
  induction t as [|[k' v'] t IH]; [discriminate|]. cbn [lookup map fst].
  destruct (String.eqb_spec k' k) as [->|_]; [now left|].
  intros H. right. now apply IH.
Qed.

Lemma domain_in_keys (key : string) (value : pyval) :
  In value (domain key) -> In key param_keys.
Proof.
  unfold domain, param_keys.
  destruct (lookup PARAM_SPACE key) as [values|] eqn:E; [|contradiction].
  intros _. eapply lookup_in_keys, E.
Qed.

Lemma build_frame (key : string) (value : pyval) (config : dict)
  (port1 port2 : Z) :
  In key param_keys -> alpn_ok config = true ->
  builds_differ_only_in (port_path :: block_of key)
    (build_xray_json config [(key, value)] port1)
    (build_xray_json config [] port2).
Proof.
  intros Hkey Hal. rewrite block_of_stream_block.
  assert (Hne := stream_block_nonempty key Hkey).
  unfold build_xray_json.
  destruct (index config "protocol") as [protocol|e]; cbn [bind];
    [|reflexivity].
  destruct (eq_str protocol "vless");
    [|destruct (eq_str protocol "vmess");
      [|destruct (eq_str protocol "trojan");
        [|destruct (eq_str protocol "shadowsocks"); [|reflexivity]]]].
  - unfold _build_vless_outbound.
    destruct (index config "address"), (index config "port"),
      (index config "uuid"); cbn [bind]; try reflexivity.
    match goal with
    | |- context [_build_stream_settings config [] ?sec (get_or [] _ ?dflt)] =>
        assert (Hs := stream_frame key value config sec dflt Hkey Hal)
    end.
    destruct (_build_stream_settings config [(key, value)] _ _),
      (_build_stream_settings config [] _ _);
      cbn [ragree_with bind builds_differ_only_in] in *;
      try contradiction; try exact Hs.
    now apply document_frame.
  - unfold _build_vmess_outbound.
    destruct (index config "address"), (index config "port"),
      (index config "uuid"); cbn [bind]; try reflexivity.
    match goal with
    | |- context [_build_stream_settings config [] ?sec (get_or [] _ ?dflt)] =>
        assert (Hs := stream_frame key value config sec dflt Hkey Hal)
    end.
    destruct (_build_stream_settings config [(key, value)] _ _),
      (_build_stream_settings config [] _ _);
      cbn [ragree_with bind builds_differ_only_in] in *;
      try contradiction; try exact Hs.
    now apply document_frame.
  - unfold _build_trojan_outbound.
    destruct (index config "address"), (index config "port"),
      (index config "password"); cbn [bind]; try reflexivity.
    match goal with
    | |- context [_build_stream_settings config [] ?sec (get_or [] _ ?dflt)] =>
        assert (Hs := stream_frame key value config sec dflt Hkey Hal)
    end.
    destruct (_build_stream_settings config [(key, value)] _ _),
      (_build_stream_settings config [] _ _);
      cbn [ragree_with bind builds_differ_only_in] in *;
      try contradiction; try exact Hs.
    now apply document_frame.
  - unfold _build_shadowsocks_outbound.
    destruct (index config "address"), (index config "port"),
      (index config "method"), (index config "password"); cbn [bind];
      try reflexivity.
    cbn [builds_differ_only_in]. apply document_frame; [exact Hne|].
    now apply shadowsocks_frame.
Qed.

(** Where the claim C4 fails: the override of the fragment length alone
    also puts the packets and the interval of the fragment block, which the
    baseline document of this configuration does not have. *)
Lemma fragment_override_sets_whole_triple :
  is_base_config vless_plain = true
  /\ In (PStr "10-20") (domain "fragment_length")
  /\ ~ builds_differ_only_in (port_path :: field_of "fragment_length")
         (build_xray_json vless_plain [("fragment_length", PStr "10-20")] 20001)
         (build_xray_json vless_plain [] 20000).
Proof.
  split; [reflexivity|]. split; [vm_compute; auto|].
  intros H. unfold builds_differ_only_in in H.
  destruct (build_xray_json vless_plain [("fragment_length", PStr "10-20")] 20001)
    as [d1|] eqn:E1; [|vm_compute in E1; discriminate].
  destruct (build_xray_json vless_plain [] 20000)
    as [d2|] eqn:E2; [|vm_compute in E2; discriminate].
  vm_compute in E1, E2. injection E1 as <-. injection E2 as <-.
  specialize (H (in_stream ["sockopt"; "fragment"; "packets"]) eq_refl).
  vm_compute in H. discriminate.
Qed.

(** C4, amended.  For every base configuration, every two local ports and
    every singleton override set of a parameter with one of its values, the
    document differs from the baseline document only in the port and in the
    part the parameter decides: its own field, but the whole fragment block
    for a fragment parameter, the whole encrypted-hello block for
    [ech_enabled], and the network with the settings of the transport for
    [transport].  Either both calls return a document or both raise the
    same exception. *)
Theorem singleton_override_changes_its_block (config : dict) (key : string)
  (value : pyval) (port1 port2 : Z) :
  is_base_config config = true ->
  In value (domain key) ->
  builds_differ_only_in (port_path :: block_of key)
    (build_xray_json config [(key, value)] port1)
    (build_xray_json config [] port2).
Proof.
  intros Hb Hv. apply build_frame; [eapply domain_in_keys, Hv|].
  unfold is_base_config in Hb. now apply andb_prop in Hb.
Qed.

Lemma singleton_override_changes_its_block_witness :
  is_base_config vless_plain = true
  /\ In (PStr "10-20") (domain "fragment_length")
  /\ builds_differ_only_in (port_path :: block_of "fragment_length")
       (build_xray_json vless_plain [("fragment_length", PStr "10-20")] 20001)
       (build_xray_json vless_plain [] 20000).
Proof.
  split; [reflexivity|]. split; [right; left; reflexivity|].
  apply (singleton_override_changes_its_block vless_plain "fragment_length"
           (PStr "10-20") 20001 20000);
    [reflexivity | right; left; reflexivity].
Defined.

(** ** The encrypted-hello block *)

Lemma eq_str_eq (v : pyval) (s : string) : eq_str v s = true -> v = PStr s.
Proof.
  destruct v; try discriminate. cbn. intros H.
  now apply String.eqb_eq in H as ->.
Qed.

Lemma tls_stream_ech (config overrides stream : dict) (transport : pyval) :
  _build_stream_settings config overrides (PStr "tls") transport = Ok stream ->
  get_path (PDict stream) [Key "tlsSettings"; Key "ech"] = ech_block overrides.
Proof.
  unfold _build_stream_settings. intros H.
  destruct (security_settings config overrides _ (PStr "tls")) as [s|] eqn:Es;
    [|discriminate].
  cbn [bind] in H. injection H as <-.
  unfold security_settings in Es.
  cbn [eq_str String.eqb Ascii.eqb Bool.eqb] in Es.
  repeat match type of Es with
         | context [bind ?m _] =>
             destruct m; cbn [bind] in Es; [|discriminate Es]
         end.
  injection Es as <-. cbn [get_path]. unfold allow_insecure, ech_block.
  destruct (truthy (get config "allow_insecure"));
    rewrite ?apply_sockopt_keeps_tls, ?lookup_set;
    cbn [String.eqb Ascii.eqb Bool.eqb];
    rewrite ?apply_sockopt_keeps_tls, ?lookup_set;
    cbn [String.eqb Ascii.eqb Bool.eqb];
    repeat match goal with
           | |- context [if ?c then _ else _] => destruct c
           end;
    rewrite ?lookup_set; reflexivity.
Qed.

Lemma get_path_app (v : pyval) (p q : path) :
  get_path v (p ++ q)%list = get_opt (get_path v p) q.
Proof.
  revert v. induction p as [|[k|i] p IH]; intros v; [reflexivity| |].
  - cbn [app get_path]. destruct v; try reflexivity.
    destruct (lookup d k); [apply IH|reflexivity].
  - cbn [app get_path]. destruct v; try reflexivity.
    destruct (nth_error l i); [apply IH|reflexivity].
Qed.

Lemma standard_tls_stream (config overrides doc : dict) (socks_port : Z) :
  standard_tls config = true ->
  build_xray_json config overrides socks_port = Ok doc ->
  exists stream transport,
    get_path (PDict doc) stream_path = Some (PDict stream)
    /\ _build_stream_settings config overrides (PStr "tls") transport
       = Ok stream.
Proof.
  unfold standard_tls, build_xray_json. intros Hs Hb.
  assert (Hp : index config "protocol" = Ok (get config "protocol")).
  { unfold index, get, get_or in *.
    destruct (lookup config "protocol"); [reflexivity|discriminate]. }
  rewrite Hp in Hb. cbn [bind] in Hb.
  set (protocol := get config "protocol") in *.
  assert (Hfinish :
    forall (head : dict) (sec transport : pyval) (proto settings : pyval),
      sec = PStr "tls" ->
      (outbound <-
         (stream <- _build_stream_settings config overrides sec transport ;;
          Ok [ ("tag", PStr "proxy"); ("protocol", proto);
               ("settings", settings); ("streamSettings", PDict stream) ]) ;;
       Ok (head ++ [ ("outbounds", PList [PDict outbound]) ])%list) = Ok doc ->
      lookup head "outbounds" = None ->
      exists stream transport,
        get_path (PDict doc) stream_path = Some (PDict stream)
        /\ _build_stream_settings config overrides (PStr "tls") transport
           = Ok stream).
  { intros head sec transport proto settings -> H Hhead.
    destruct (_build_stream_settings config overrides (PStr "tls") transport)
      as [stream|] eqn:E; [|discriminate].
    cbn [bind] in H. injection H as <-. exists stream, transport.
    split; [|exact E]. unfold stream_path. cbn [get_path].
    assert (Hl : forall (d : dict) k v,
               lookup d k = None -> lookup (d ++ [(k, v)])%list k = Some v).
    { induction d as [|[k0 v0] d IH]; intros k v Hn; cbn [app lookup] in *.
      - now rewrite String.eqb_refl.
      - destruct (k0 =? k)%string; [discriminate|now apply IH]. }
    rewrite (Hl _ _ _ Hhead). reflexivity. }
  destruct (eq_str protocol "vless").
  - apply eq_str_eq in Hs. unfold _build_vless_outbound in Hb.
    destruct (index config "address"), (index config "port"),
      (index config "uuid"); cbn [bind] in Hb; try discriminate.
    rewrite Hs in Hb. cbn [eq_str String.eqb Ascii.eqb Bool.eqb] in Hb.
    eapply (Hfinish [_; _]); [reflexivity|exact Hb|reflexivity].
  - destruct (eq_str protocol "vmess").
    + cbn [orb] in Hs. unfold _build_vmess_outbound in Hb.
      destruct (index config "address"), (index config "port"),
        (index config "uuid"); cbn [bind] in Hb; try discriminate.
      rewrite Hs in Hb.
      eapply (Hfinish [_; _]); [reflexivity|exact Hb|reflexivity].
    + cbn [orb] in Hs. destruct (eq_str protocol "trojan"); [|discriminate].
      unfold _build_trojan_outbound in Hb.
      destruct (index config "address"), (index config "port"),
        (index config "password"); cbn [bind] in Hb; try discriminate.
      rewrite Hs in Hb.
      eapply (Hfinish [_; _]); [reflexivity|exact Hb|reflexivity].
Qed.

Lemma ech_block_emitted (config overrides doc : dict) (socks_port : Z) :
  standard_tls config = true ->
  build_xray_json config overrides socks_port = Ok doc ->
  get_path (PDict doc) (in_stream ["tlsSettings"; "ech"]) = ech_block overrides.
Proof.
  intros Hs Hb.
  destruct (standard_tls_stream _ _ _ _ Hs Hb) as (stream & t & Hp & Hst).
  unfold in_stream. rewrite get_path_app, Hp. cbn [get_opt map].
  eapply tls_stream_ech, Hst.
Qed.

Lemma standard_tls_recognized (config : dict) :
  standard_tls config = true -> recognized (get config "protocol") = true.
Proof.
  unfold standard_tls, recognized.
  destruct (eq_str (get config "protocol") "vless"); [reflexivity|].
  destruct (eq_str (get config "protocol") "vmess"); [reflexivity|].
  destruct (eq_str (get config "protocol") "trojan"); [reflexivity|].
  discriminate.
Qed.

(** C10.  For a base configuration with standard TLS security and any
    local port, the override sets with [ech_dns] alone, either way, and with
    [ech_enabled] false give the very document of the empty override set,
    which has no encrypted-hello block; the block is there when
    [ech_enabled] is true. *)
Theorem ech_sweep_cases_probe_baseline (config : dict) (socks_port : Z)
  (v : bool) :
  is_base_config config = true ->
  standard_tls config = true ->
  exists doc,
    build_xray_json config [] socks_port = Ok doc
    /\ build_xray_json config [("ech_dns", PBool v)] socks_port = Ok doc
    /\ build_xray_json config [("ech_enabled", PBool false)] socks_port = Ok doc
    /\ get_path (PDict doc) (in_stream ["tlsSettings"; "ech"]) = None
    /\ exists doc',
         build_xray_json config [("ech_enabled", PBool true)] socks_port
         = Ok doc'
         /\ get_path (PDict doc') (in_stream ["tlsSettings"; "ech"])
            = Some (PDict [ ("enabled", PBool true);
                            ("dnsQuery", PBool false) ]).
Proof.
  intros Hb Hs. assert (Hr := standard_tls_recognized _ Hs).
  destruct (build_recognized config [] socks_port Hb Hr) as (doc & Hdoc).
  destruct (build_recognized config [("ech_enabled", PBool true)] socks_port
              Hb Hr) as (doc' & Hdoc').
  exists doc. split; [exact Hdoc|].
  split; [now rewrite ech_dns_alone_is_ignored|].
  split; [now rewrite ech_disabled_is_ignored|].
  split; [exact (ech_block_emitted _ _ _ _ Hs Hdoc)|].
  exists doc'. split; [exact Hdoc'|].
  exact (ech_block_emitted _ _ _ _ Hs Hdoc').
Qed.

Lemma ech_sweep_cases_probe_baseline_witness :
  is_base_config vless_plain = true
  /\ standard_tls vless_plain = true
  /\ exists doc,
       build_xray_json vless_plain [] 10808 = Ok doc
       /\ build_xray_json vless_plain [("ech_dns", PBool true)] 10808 = Ok doc
       /\ build_xray_json vless_plain [("ech_enabled", PBool false)] 10808
          = Ok doc
       /\ get_path (PDict doc) (in_stream ["tlsSettings"; "ech"]) = None
       /\ exists doc',
            build_xray_json vless_plain [("ech_enabled", PBool true)] 10808
            = Ok doc'
            /\ get_path (PDict doc') (in_stream ["tlsSettings"; "ech"])
               = Some (PDict [ ("enabled", PBool true);
                               ("dnsQuery", PBool false) ]).
Proof.
  split; [reflexivity|]. split; [reflexivity|].
  apply (ech_sweep_cases_probe_baseline vless_plain 10808 true);
    reflexivity.
Defined.

(** ** Fragment values of the base configuration, in general *)

(** The three builders that go through [_build_stream_settings] take the
    fragment length of the configuration when no override gives one. *)
Lemma apply_sockopt_config_fragment_length (s overrides config : dict) :
  mem "fragment_length" overrides = false ->
  truthy (get config "fragment_length") = true ->
  get_path (PDict (_apply_sockopt s overrides (Some config)))
    [Key "sockopt"; Key "fragment"; Key "length"]
  = Some (get config "fragment_length").
Proof.
  intros Hm Ht. unfold _apply_sockopt.
  destruct config as [|kv config]; [discriminate|].
  cbn [truthy].
  assert (Hg : forall d, get_or overrides "fragment_length" d = d).
  { intros d. unfold get_or, mem in *.
    destruct (lookup overrides "fragment_length"); [discriminate|reflexivity]. }
  rewrite Hg. unfold py_or. rewrite !Ht. cbn [orb].
  repeat match goal with
         | |- context [if mem ?k overrides then _ else _] =>
             destruct (mem k overrides)
         end;
    cbn [set truthy String.eqb Ascii.eqb Bool.eqb get_path];
    rewrite lookup_set; reflexivity.
Qed.

Lemma allow_insecure_keeps_sockopt (config stream : dict) :
  lookup (allow_insecure config stream) "sockopt" = lookup stream "sockopt".
Proof.
  unfold allow_insecure.
  destruct (truthy (get config "allow_insecure")); [|reflexivity].
  destruct (lookup stream "tlsSettings") as [[]|]; try reflexivity.
  now rewrite lookup_set.
Qed.

Lemma stream_uses_config_fragment_length (config overrides stream : dict)
  (security transport : pyval) :
  _build_stream_settings config overrides security transport = Ok stream ->
  mem "fragment_length" overrides = false ->
  truthy (get config "fragment_length") = true ->
  get_path (PDict stream) [Key "sockopt"; Key "fragment"; Key "length"]
  = Some (get config "fragment_length").
Proof.
  unfold _build_stream_settings. intros H Hm Ht.
  destruct (security_settings config overrides _ security) as [s|];
    [|discriminate].
  cbn [bind] in H. injection H as <-.
  assert (Hf := apply_sockopt_config_fragment_length s _ _ Hm Ht).
  cbn [get_path] in *. now rewrite allow_insecure_keeps_sockopt.
Qed.

(** The shadowsocks builder takes nothing of the configuration for the
    stream: without overrides the stream settings are the network alone. *)
Lemma shadowsocks_stream_without_overrides (config doc : dict)
  (socks_port : Z) :
  eq_str (get config "protocol") "shadowsocks" = true ->
  build_xray_json config [] socks_port = Ok doc ->
  get_path (PDict doc) stream_path = Some (PDict [ ("network", PStr "tcp") ]).
Proof.
  intros Hp. unfold build_xray_json, index.
  unfold get, get_or in Hp.
  destruct (lookup config "protocol") as [protocol|]; [|discriminate].
  destruct protocol; try discriminate. cbn [eq_str] in Hp.
  apply String.eqb_eq in Hp as ->. cbn [bind eq_str String.eqb Ascii.eqb Bool.eqb].
  unfold _build_shadowsocks_outbound, index.
  destruct (lookup config "address"), (lookup config "port"),
    (lookup config "method"), (lookup config "password");
    cbn [bind]; try discriminate.
  intros [= <-]. reflexivity.
Qed.

(** * Further properties *)

Import Report Traces Views UriParser Names Reads.

(** ** The port pool *)

Lemma mod_pool_injective (c i j : Z) :
  0 <= i < 10000 -> 0 <= j < 10000 ->
  (c + i) mod 10000 = (c + j) mod 10000 -> i = j.
Proof.
  intros Hi Hj H.
  assert (Hd : ((c + i) - (c + j)) mod 10000 = 0).
  { rewrite Zminus_mod, H, Z.sub_diag. reflexivity. }
  apply Z.mod_divide in Hd; [|lia]. destruct Hd as (q & Hq). nia.
Qed.

Lemma NoDup_map_on {A B} (f : A -> B) (l : list A) :
  (forall x y, In x l -> In y l -> f x = f y -> x = y) ->
  NoDup l -> NoDup (map f l).
Proof.
  intros Hinj Hnd. induction Hnd as [|x l Hx Hnd IH]; [constructor|].
  cbn [map]. constructor.
  - intros Hin. apply in_map_iff in Hin. destruct Hin as (y & Hy & Hin).
    assert (y = x) by (apply Hinj; [now right|now left|exact Hy]).
    now subst.
  - apply IH. intros a b Ha Hb. apply Hinj; now right.
Qed.

(** X1.  Up to ten thousand allocations in a row, from any state of the
    counter, return ports that are all different and lie in the pool
    [20000 .. 29999]; the allocation after ten thousand more returns the
    port of the first again. *)
Theorem ports_distinct_within_pool (n : nat) (w : world) :
  Z.of_nat n <= 10000 ->
  exists ports w',
    allocate n w = (Done ports, w')
    /\ NoDup ports
    /\ Forall (fun port => 20000 <= port < 30000) ports
    /\ fst (_next_port
              {| _port_counter := _port_counter w + 10000; trace := trace w |})
       = fst (_next_port w).
Proof.
  intros Hn. rewrite allocate_from. do 2 eexists. split; [reflexivity|].
  split; [|split].
  - apply NoDup_map_on; [|apply seq_NoDup].
    intros i j Hi Hj H. apply in_seq in Hi, Hj.
    assert (Z.of_nat i = Z.of_nat j); [|lia].
    apply (mod_pool_injective (_port_counter w)); [lia|lia|].
    unfold _BASE_PORT in H. lia.
  - apply Forall_forall. intros port Hin. apply in_map_iff in Hin.
    destruct Hin as (k & <- & _). unfold _BASE_PORT.
    assert (0 <= (_port_counter w + Z.of_nat k) mod 10000 < 10000)
      by (apply Z.mod_pos_bound; lia).
    lia.
  - unfold _next_port. cbn [fst _port_counter]. do 2 f_equal.
    replace (_port_counter w + 10000) with (_port_counter w + 1 * 10000) by lia.
    apply Z.mod_add. lia.
Qed.

Lemma ports_distinct_within_pool_witness :
  Z.of_nat 3 <= 10000
  /\ exists ports w',
       allocate 3 fresh = (Done ports, w')
       /\ NoDup ports
       /\ Forall (fun port => 20000 <= port < 30000) ports
       /\ fst (_next_port
                 {| _port_counter := _port_counter fresh + 10000;
                    trace := trace fresh |})
          = fst (_next_port fresh).
Proof.
  split; [cbn; lia|]. apply (ports_distinct_within_pool 3 fresh). cbn. lia.
Defined.

(** ** Throughput *)

(** X2.  Asking for the throughput changes nothing of a probe but the
    throughput figure: the same port is taken, the same launch is made, and
    success, latency, error and attribution of the result are the same;
    without the request, and on every failed probe, the figure stays at
    [-1]. *)
Theorem throughput_changes_only_its_figure
  (engine : Z -> dict -> probe_outcome) (xray_json : dict) (w : world) :
  exists r0 r1 w',
    test_single engine xray_json false w = (Done r0, w')
    /\ test_single engine xray_json true w = (Done r1, w')
    /\ success r1 = success r0
    /\ latency_ms r1 = latency_ms r0
    /\ error r1 = error r0
    /\ params r1 = params r0
    /\ description r1 = description r0
    /\ speed_mbps r0 = (-1 # 1)%Q
    /\ (success r1 = false -> speed_mbps r1 = (-1 # 1)%Q).
Proof.
  unfold test_single, mbind, _next_port, emit, ret.
  do 3 eexists. split; [reflexivity|]. split; [reflexivity|].
  cbn [_port_counter].
  destruct (engine _ _) as [msg|code| |msg|status start stop speed]; cbn;
    try (repeat split; auto; fail).
  destruct ((status =? 200) || (status =? 204)); cbn;
    repeat split; auto; discriminate.
Qed.

(** ** Accounting of a batch *)

Section BatchTrace.

Variable engine : Z -> dict -> probe_outcome.
Variable measure_speed : bool.

Lemma test_single_trace (t : dict) (w : world) :
  test_single engine t measure_speed w
  = (Done (result_at engine measure_speed (_port_counter w) t),
     {| _port_counter := _port_counter w + 1;
        trace := (trace w ++ launch_events (_port_counter w) [t])%list |}).
Proof. reflexivity. Qed.

Lemma launch_events_app (n : Z) (l1 l2 : list dict) :
  launch_events n (l1 ++ l2)
  = (launch_events n l1 ++ launch_events (n + Z.of_nat (length l1)) l2)%list.
Proof.
  revert n. induction l1 as [|t l1 IH]; intros n.
  - cbn. now rewrite Z.add_0_r.
  - cbn [app launch_events length]. rewrite IH. do 3 f_equal. lia.
Qed.

Lemma in_flight_app (current : Z) (a b : list event) :
  in_flight current (a ++ b)
  = (in_flight current a ++ in_flight (level_after current a) b)%list.
Proof.
  revert current. induction a as [|e a IH]; intros current; [reflexivity|].
  destruct e; cbn [app in_flight level_after]; now rewrite IH.
Qed.

Lemma in_flight_launches (current n : Z) (tests : list dict) :
  in_flight current (launch_events n tests)
  = map (fun k => current + 1 + Z.of_nat k) (seq 0 (length tests)).
Proof.
  revert current n. induction tests as [|t tests IH]; intros current n;
    [reflexivity|].
  cbn [launch_events in_flight length seq map]. rewrite IH.
  rewrite <- seq_shift, map_map. f_equal; [lia|].
  apply map_ext. intros k. lia.
Qed.

Lemma level_after_launches (current n : Z) (tests : list dict) :
  level_after current (launch_events n tests)
  = current + Z.of_nat (length tests).
Proof.
  revert current n. induction tests as [|t tests IH]; intros current n.
  - cbn. lia.
  - cbn [launch_events level_after length]. rewrite IH. lia.
Qed.

Lemma reported_app (a b : list event) :
  reported (a ++ b) = (reported a ++ reported b)%list.
Proof.
  induction a as [|e a IH]; [reflexivity|].
  destruct e; cbn [app reported]; now rewrite IH.
Qed.

Lemma report_counts_app (a b : list event) :
  report_counts (a ++ b) = (report_counts a ++ report_counts b)%list.
Proof.
  induction a as [|e a IH]; [reflexivity|].
  destruct e; cbn [app report_counts]; now rewrite IH.
Qed.

Lemma launched_ports_app (a b : list event) :
  launched_ports (a ++ b) = (launched_ports a ++ launched_ports b)%list.
Proof.
  induction a as [|e a IH]; [reflexivity|].
  destruct e; cbn [app launched_ports]; now rewrite IH.
Qed.

Lemma launch_events_quiet (n : Z) (tests : list dict) :
  reported (launch_events n tests) = []
  /\ report_counts (launch_events n tests) = []
  /\ length (launched_ports (launch_events n tests)) = length tests.
Proof.
  revert n. induction tests as [|t tests IH]; intros n; [now cbn|].
  destruct (IH (n + 1)) as (H1 & H2 & H3). cbn. now rewrite H1, H2, H3.
Qed.

Lemma fill_trace (concurrency : Z) (waiting : list dict)
  (running : list TestResult) (w : world) :
  exists started waiting',
    fill engine concurrency measure_speed waiting running w
    = (Done (waiting',
             (running
                ++ results_from engine measure_speed (_port_counter w) started)%list),
       {| _port_counter := _port_counter w + Z.of_nat (length started);
          trace := (trace w ++ launch_events (_port_counter w) started)%list |})
    /\ waiting = (started ++ waiting')%list
    /\ (waiting' = []
        \/ concurrency <= Z.of_nat (length running + length started))
    /\ (started = []
        \/ Z.of_nat (length running + length started) <= concurrency).
Proof.
  revert running w. induction waiting as [|t rest IH]; intros running w.
  - exists [], []. cbn [fill results_from launch_events length].
    rewrite !app_nil_r, Z.add_0_r. destruct w. now repeat split; auto.
  - cbn [fill]. destruct (Z.of_nat (length running) <? concurrency) eqn:E.
    + unfold mbind. rewrite test_single_trace.
      destruct (IH (running ++ [result_at engine measure_speed
                                   (_port_counter w) t])%list
                  {| _port_counter := _port_counter w + 1;
                     trace := (trace w
                                 ++ launch_events (_port_counter w) [t])%list |})
        as (started & waiting' & Hfill & Hw & Hfull & Hcap).
      exists (t :: started), waiting'.
      cbn [_port_counter trace] in Hfill. rewrite Hfill.
      cbn [results_from launch_events length app].
      rewrite <- !app_assoc. cbn [app].
      rewrite length_app in Hfull, Hcap. cbn [length] in Hfull, Hcap.
      apply Z.ltb_lt in E.
      split; [f_equal; f_equal; lia|]. split; [now rewrite Hw|].
      split; [destruct Hfull; [now left|right; lia]|].
      right. destruct Hcap as [->|Hcap]; cbn [length]; lia.
    + exists [], (t :: rest). cbn [results_from launch_events length].
      rewrite !app_nil_r, Z.add_0_r. apply Z.ltb_ge in E. destruct w.
      split; [reflexivity|]. split; [reflexivity|].
      split; [right; lia|now left].
Qed.

Lemma pick_length {A} (i : nat) (x : A) (rest : list A) :
  length (snd (pick i x rest)) = length rest.
Proof.
  assert (H := pick_perm i x rest). apply Permutation_length in H.
  cbn [length] in H. lia.
Qed.

Lemma gather_trace (remaining : nat) :
  forall (concurrency : Z) (sched : nat -> nat) (total : Z)
         (waiting : list dict) (running results : list TestResult)
         (completed : Z) (w : world),
    1 <= concurrency ->
    remaining = (length waiting + length running)%nat ->
    Z.of_nat (length running) <= concurrency ->
    exists rs new,
      gather engine remaining concurrency measure_speed sched total
        waiting running results completed w
      = (Done rs,
         {| _port_counter := _port_counter w + Z.of_nat (length waiting);
            trace := (trace w ++ new)%list |})
      /\ rs = (results ++ reported new)%list
      /\ report_counts new = counts_from completed total remaining
      /\ length (launched_ports new) = length waiting
      /\ Forall (fun n => 0 <= n <= concurrency)
           (in_flight (Z.of_nat (length running)) new).
Proof.
  induction remaining as [|remaining IH];
    intros concurrency sched total waiting running results completed w
      Hc Hr Hrun.
  - destruct waiting; [|discriminate]. destruct running; [|discriminate].
    exists results, []. cbn. rewrite !app_nil_r, Z.add_0_r. destruct w.
    now repeat split.
  - destruct (fill_trace concurrency waiting running w)
      as (started & waiting' & Hfill & Hw & Hfull & Hcap).
    cbn [gather]. unfold mbind at 1. rewrite Hfill. cbn [snd fst].
    set (running1 :=
           (running
              ++ results_from engine measure_speed (_port_counter w) started)%list)
      in *.
    assert (Hlen1 : length running1 = (length running + length started)%nat).
    { unfold running1. now rewrite length_app, results_from_length. }
    assert (Hcap1 : Z.of_nat (length running1) <= concurrency).
    { rewrite Hlen1. destruct Hcap as [->|Hcap]; [cbn; lia|lia]. }
    assert (Hrem : (length waiting' + length running1 = S remaining)%nat).
    { rewrite Hlen1, Hr, Hw, length_app. lia. }
    destruct running1 as [|r0 others] eqn:Erun.
    { exfalso. cbn [length] in *.
      destruct Hfull as [->|Hfull]; cbn in *; lia. }
    assert (Hpl := pick_length (sched (Z.to_nat completed)) r0 others).
    destruct (pick (sched (Z.to_nat completed)) r0 others)
      as [result running'] eqn:Epick.
    cbn [snd] in Hpl. unfold mbind at 1. unfold emit at 1.
    cbn [_port_counter trace].
    match goal with
    | |- context [gather _ _ _ _ _ _ _ _ ?res ?cmp ?w2] =>
        destruct (IH concurrency sched total waiting' running' res cmp w2 Hc)
          as (rs & new & Hg & Hrs & Hcounts & Hlaunch & Hfl)
    end.
    { cbn [length] in *. lia. }
    { cbn [length] in *. lia. }
    exists rs,
      (launch_events (_port_counter w) started
         ++ Reported result (completed + 1) total :: new)%list.
    cbn [_port_counter trace] in Hg. rewrite Hg.
    assert (Hq := launch_events_quiet (_port_counter w) started).
    destruct Hq as (Hq1 & Hq2 & Hq3).
    split; [|split; [|split; [|split]]].
    + f_equal. f_equal; [|now rewrite <- !app_assoc].
      rewrite Hw, length_app. lia.
    + rewrite Hrs, reported_app, Hq1. cbn [app reported].
      now rewrite <- app_assoc.
    + rewrite report_counts_app, Hq2. cbn [app report_counts counts_from].
      now rewrite Hcounts.
    + rewrite launched_ports_app, length_app, Hq3. cbn [launched_ports].
      rewrite Hlaunch, Hw, length_app. reflexivity.
    + rewrite in_flight_app, in_flight_launches, level_after_launches.
      apply Forall_app. split.
      * apply Forall_forall. intros n Hin. apply in_map_iff in Hin.
        destruct Hin as (k & <- & Hk). apply in_seq in Hk.
        cbn [length] in *. lia.
      * cbn [in_flight]. cbn [length] in *.
        replace (Z.of_nat (length running) + Z.of_nat (length started) - 1)
          with (Z.of_nat (length running')) by lia.
        constructor; [lia|exact Hfl].
Qed.

End BatchTrace.

Lemma counts_from_seq (first total : Z) (n : nat) :
  counts_from first total n
  = map (fun k => (first + 1 + Z.of_nat k, total)) (seq 0 n).
Proof.
  revert first. induction n as [|n IH]; intros first; [reflexivity|].
  cbn [counts_from seq map]. rewrite IH, <- seq_shift, map_map.
  f_equal; [f_equal; lia|]. apply map_ext. intros k. f_equal. lia.
Qed.

Lemma run_batch_trace (engine : Z -> dict -> probe_outcome)
  (tests : list dict) (concurrency : Z) (measure_speed : bool)
  (sched : nat -> nat) (w : world) :
  1 <= concurrency ->
  exists results new,
    run_batch engine tests concurrency measure_speed sched w
    = (Done results,
       {| _port_counter := _port_counter w + Z.of_nat (length tests);
          trace := (trace w ++ new)%list |})
    /\ reported new = results
    /\ length results = length tests
    /\ report_counts new
       = map (fun k => (Z.of_nat k + 1, Z.of_nat (length tests)))
           (seq 0 (length tests))
    /\ length (launched_ports new) = length tests
    /\ Forall (fun n => 0 <= n <= concurrency) (in_flight 0 new).
Proof.
  intros Hc.
  destruct (gather_trace engine measure_speed (length tests) concurrency sched
              (Z.of_nat (length tests)) tests [] [] 0 w Hc)
    as (rs & new & Hg & Hrs & Hcounts & Hlaunch & Hfl);
    [cbn; lia|cbn; lia|].
  destruct (gather_spec engine measure_speed (length tests) concurrency sched
              (Z.of_nat (length tests)) tests [] [] 0 w Hc)
    as (rs' & w' & Hg' & Hperm); [cbn; lia|].
  rewrite Hg in Hg'. injection Hg' as <- _.
  exists rs, new. unfold run_batch.
  replace (concurrency <? 0) with false by (symmetry; apply Z.ltb_ge; lia).
  cbn [app] in Hrs, Hperm. split; [exact Hg|]. split; [now rewrite Hrs|].
  split; [apply Permutation_length in Hperm;
          now rewrite Hperm, results_from_length|].
  split; [|split; [exact Hlaunch|exact Hfl]].
  rewrite Hcounts, counts_from_seq. apply map_ext. intros k. f_equal. lia.
Qed.

(** On a document the port can be written into, [stamp_port] does what the
    source does: with a truthy [inbounds] the port is in the first inbound,
    with none or a falsy one the document is left as it is. *)
Lemma stamp_port_on_writable (xray_json : dict) (port : Z) :
  port_writable xray_json = true ->
  (truthy (get xray_json "inbounds") = true ->
   get_path (PDict (stamp_port xray_json port)) port_path = Some (PInt port))
  /\ (truthy (get xray_json "inbounds") = false ->
      stamp_port xray_json port = xray_json).
Proof.
  unfold port_writable, stamp_port, get, get_or.
  destruct (lookup xray_json "inbounds") as [v|] eqn:E;
    [|intros _; split; [discriminate|reflexivity]].
  destruct v as [|b|z|s|[|[| | | | |inbound] rest]|d]; cbn [truthy negb];
    intros Hw; try discriminate;
    try (split; [intros Ht; rewrite Ht in Hw; discriminate|reflexivity]);
    try (split; [discriminate|reflexivity]).
  split; [intros _|discriminate].
  unfold port_path. cbn [get_path]. rewrite lookup_set, String.eqb_refl.
  cbn [nth_error]. now rewrite lookup_set, String.eqb_refl.
Qed.

(** X3.  A batch with a concurrency limit of at least one, over documents
    into each of which the port can be written, accounts for every document:
    the port counter advances by their number, as many engines are launched,
    and [on_result] is called once per probe with the counts 1, 2, ..., N
    out of N, on the results in the order in which the returned list holds
    them. *)
Theorem run_batch_counts_every_probe (engine : Z -> dict -> probe_outcome)
  (tests : list dict) (concurrency : Z) (measure_speed : bool)
  (sched : nat -> nat) (w : world) :
  1 <= concurrency ->
  forallb port_writable tests = true ->
  exists results new,
    run_batch engine tests concurrency measure_speed sched w
    = (Done results,
       {| _port_counter := _port_counter w + Z.of_nat (length tests);
          trace := (trace w ++ new)%list |})
    /\ reported new = results
    /\ report_counts new
       = map (fun k => (Z.of_nat k + 1, Z.of_nat (length tests)))
           (seq 0 (length tests))
    /\ length (launched_ports new) = length tests.
Proof.
  intros Hc _.
  destruct (run_batch_trace engine tests concurrency measure_speed sched w Hc)
    as (results & new & H1 & H2 & _ & H3 & H4 & _).
  exists results, new. auto.
Qed.

Lemma run_batch_counts_every_probe_witness :
  1 <= 1
  /\ forallb port_writable two_documents = true
  /\ exists results new,
       run_batch first_probe_crashes two_documents 1 false (fun _ => O) fresh
       = (Done results,
          {| _port_counter :=
               _port_counter fresh + Z.of_nat (length two_documents);
             trace := (trace fresh ++ new)%list |})
       /\ reported new = results
       /\ report_counts new
          = map (fun k => (Z.of_nat k + 1, Z.of_nat (length two_documents)))
              (seq 0 (length two_documents))
       /\ length (launched_ports new) = length two_documents.
Proof.
  split; [lia|]. split; [vm_compute; reflexivity|].
  apply (run_batch_counts_every_probe first_probe_crashes two_documents 1
           false (fun _ => O) fresh).
  - lia.
  - vm_compute. reflexivity.
Defined.

(** X4.  In a batch with a concurrency limit of at least one, the number
    of probes in flight, one more at each launch and one less at each
    report, never exceeds the limit and never falls below zero. *)
Theorem run_batch_respects_limit (engine : Z -> dict -> probe_outcome)
  (tests : list dict) (concurrency : Z) (measure_speed : bool)
  (sched : nat -> nat) (w : world) :
  1 <= concurrency ->
  exists results new w',
    run_batch engine tests concurrency measure_speed sched w = (Done results, w')
    /\ trace w' = (trace w ++ new)%list
    /\ Forall (fun n => 0 <= n <= concurrency) (in_flight 0 new).
Proof.
  intros Hc.
  destruct (run_batch_trace engine tests concurrency measure_speed sched w Hc)
    as (results & new & H1 & _ & _ & _ & _ & H5).
  exists results, new. eexists. split; [exact H1|]. split; [reflexivity|exact H5].
Qed.

Lemma run_batch_respects_limit_witness :
  1 <= 1
  /\ exists results new w',
       run_batch first_probe_crashes two_documents 1 false (fun _ => O) fresh
       = (Done results, w')
       /\ trace w' = (trace fresh ++ new)%list
       /\ Forall (fun n => 0 <= n <= 1) (in_flight 0 new).
Proof.
  split; [lia|].
  apply (run_batch_respects_limit first_probe_crashes two_documents 1
           false (fun _ => O) fresh).
  lia.
Defined.

(** ** Documents and their cases *)

Lemma overrides_of_annotate (xj overrides : dict) (desc : string) :
  overrides_of (annotate xj overrides desc) = overrides
  /\ description_of (annotate xj overrides desc) = desc.
Proof.
  unfold overrides_of, description_of, annotate.
  rewrite !lookup_set. cbn [String.eqb Ascii.eqb Bool.eqb]. now split.
Qed.

Lemma build_cases_ok (config : dict) (cases : list test_case) :
  (forall overrides,
      exists doc, build_xray_json config overrides 10808 = Ok doc) ->
  exists docs,
    build_cases config cases = Ok docs
    /\ length docs = length cases
    /\ map (fun d => (overrides_of d, description_of d)) docs = cases.
Proof.
  intros Hbuild. induction cases as [|[overrides desc] cases IH].
  - exists []. now repeat split.
  - destruct IH as (docs & Hdocs & Hlen & Hmap).
    destruct (Hbuild overrides) as (doc & Hdoc).
    exists (annotate doc overrides desc :: docs).
    cbn [build_cases]. rewrite Hdoc. cbn [bind]. rewrite Hdocs. cbn [bind].
    split; [reflexivity|]. split; [cbn; now rewrite Hlen|].
    cbn [map]. destruct (overrides_of_annotate doc overrides desc) as [-> ->].
    now rewrite Hmap.
Qed.

Lemma results_from_attribution (engine : Z -> dict -> probe_outcome)
  (measure_speed : bool) (n : Z) (docs : list dict) :
  map (fun r => (params r, description r))
    (results_from engine measure_speed n docs)
  = map (fun d => (overrides_of d, description_of d)) docs.
Proof.
  revert n. induction docs as [|d docs IH]; intros n; [reflexivity|].
  cbn [results_from map]. rewrite IH. f_equal.
  unfold result_at, conclude.
  destruct (engine _ _) as [| | | |status ? ? ?]; try reflexivity.
  destruct ((status =? 200) || (status =? 204)); reflexivity.
Qed.

(** X5.  For a base configuration with one of the four protocols, the
    loop that builds the documents of a phase returns one document per case,
    and whatever a probe of such a document meets, its result carries the
    override set and the description of the case. *)
Theorem documents_carry_their_case (engine : Z -> dict -> probe_outcome)
  (config : dict) (cases : list test_case) (measure_speed : bool) (n : Z) :
  is_base_config config = true ->
  recognized (get config "protocol") = true ->
  exists docs,
    build_cases config cases = Ok docs
    /\ length docs = length cases
    /\ map (fun r => (params r, description r))
         (results_from engine measure_speed n docs) = cases.
Proof.
  intros Hb Hr.
  destruct (build_cases_ok config cases
              (fun o => build_recognized config o 10808 Hb Hr))
    as (docs & Hdocs & Hlen & Hmap).
  exists docs. split; [exact Hdocs|]. split; [exact Hlen|].
  now rewrite results_from_attribution.
Qed.

Lemma documents_carry_their_case_witness :
  is_base_config vless_plain = true
  /\ recognized (get vless_plain "protocol") = true
  /\ exists docs,
       build_cases vless_plain (sweep_cases vless_plain ["alpn"]) = Ok docs
       /\ length docs = length (sweep_cases vless_plain ["alpn"])
       /\ map (fun r => (params r, description r))
            (results_from first_probe_crashes false 0 docs)
          = sweep_cases vless_plain ["alpn"].
Proof.
  split; [reflexivity|]. split; [reflexivity|].
  apply (documents_carry_their_case first_probe_crashes vless_plain
           (sweep_cases vless_plain ["alpn"]) false 0); reflexivity.
Defined.

(** ** The searches *)

Lemma mbind_done {A B} (m : M A) (k : A -> M B) (w w' : world) (a : A) :
  m w = (Done a, w') -> mbind m k w = k a w'.
Proof. intros H. unfold mbind. now rewrite H. Qed.

Lemma find_winners_step (winners : list (string * list winner))
  (group_name : string) (sweep_results : list TestResult) :
  find_winners [group_name] sweep_results = []
  \/ exists ws, find_winners [group_name] sweep_results = [(group_name, ws)].
Proof.
  unfold find_winners. cbn [fold_left].
  destruct (group_winners group_name sweep_results) as [|x ws];
    [now left|right]. now eexists.
Qed.

Section SearchRuns.

Variable engine : Z -> dict -> probe_outcome.

Lemma combine_phase_run (config : dict)
  (winners : list (string * list winner)) (concurrency : Z)
  (measure_speed : bool) (sched : nat -> nat) (w : world) :
  (forall overrides,
      exists doc, build_xray_json config overrides 10808 = Ok doc) ->
  1 <= concurrency ->
  exists combo new,
    combine_phase engine config winners concurrency measure_speed sched w
    = (Done combo,
       {| _port_counter := _port_counter w + Z.of_nat (length combo);
          trace := (trace w ++ new)%list |})
    /\ length combo
       = (if 1 <? Z.of_nat (length winners)
          then length (generate_combination_grid winners 3)
          else O)
    /\ length (launched_ports new) = length combo.
Proof.
  intros Hbuild Hc. unfold combine_phase.
  destruct (1 <? Z.of_nat (length winners)).
  - destruct (build_cases_ok config (generate_combination_grid winners 3)
                Hbuild)
      as (docs & Hdocs & Hlen & _).
    rewrite Hdocs. cbn [lift].
    erewrite mbind_done by reflexivity.
    destruct (run_batch_trace engine docs concurrency measure_speed sched w Hc)
      as (combo & new & H1 & _ & H3 & _ & H5 & _).
    exists combo, new. rewrite H1, H3.
    split; [reflexivity|]. split; [exact Hlen|exact H5].
  - exists [], []. cbn. rewrite Z.add_0_r, app_nil_r. destruct w.
    now repeat split.
Qed.

Lemma smart_search_run (config : dict) (param_groups : list string)
  (concurrency : Z) (measure_speed : bool) (sched_sweep sched_combo : nat -> nat)
  (w : world) :
  (forall overrides,
      exists doc, build_xray_json config overrides 10808 = Ok doc) ->
  1 <= concurrency ->
  exists baseline sweep combo w',
    smart_search engine config param_groups concurrency measure_speed
      sched_sweep sched_combo w
    = (Done (baseline :: sweep ++ combo)%list, w')
    /\ params baseline = []
    /\ description baseline = "baseline (no changes)"
    /\ length sweep = length (sweep_cases config param_groups)
    /\ length combo
       = (if 1 <? Z.of_nat (length (find_winners param_groups sweep))
          then length (generate_combination_grid
                         (find_winners param_groups sweep) 3)
          else O)
    /\ _port_counter w'
       = _port_counter w + 1 + Z.of_nat (length sweep)
         + Z.of_nat (length combo)
    /\ length (launched_ports (trace w'))
       = (length (launched_ports (trace w)) + 1 + length sweep
          + length combo)%nat.
Proof.
  intros Hbuild Hc. unfold smart_search.
  destruct (Hbuild []) as (doc & Hdoc).
  destruct (build_cases_ok config (sweep_cases config param_groups) Hbuild)
    as (docs & Hdocs & Hlen & _).
  erewrite mbind_done by reflexivity. rewrite Hdoc. cbn [lift].
  erewrite mbind_done by reflexivity. unfold test_base_config.
  erewrite mbind_done by apply test_single_trace.
  erewrite mbind_done by reflexivity.
  erewrite mbind_done by reflexivity.
  rewrite Hdocs. cbn [lift]. erewrite mbind_done by reflexivity.
  match goal with
  | |- context [mbind (run_batch _ _ _ _ _) _ ?w5] =>
      destruct (run_batch_trace engine docs concurrency measure_speed
                  sched_sweep w5 Hc)
        as (sweep & new & H1 & _ & H3 & _ & H5 & _)
  end.
  erewrite mbind_done by exact H1.
  erewrite mbind_done by reflexivity.
  match goal with
  | |- context [mbind (combine_phase _ _ ?win _ _ _) _ ?w7] =>
      destruct (combine_phase_run config win concurrency measure_speed
                  sched_combo w7 Hbuild Hc)
        as (combo & new' & H6 & H7 & H8)
  end.
  erewrite mbind_done by exact H6.
  do 4 eexists. split; [reflexivity|].
  destruct (overrides_of_annotate doc [] "baseline (no changes)") as [Ho Hd].
  split; [|split; [|split; [|split; [|split]]]].
  - unfold result_at, conclude. rewrite Ho.
    destruct (engine _ _) as [| | | |status ? ? ?]; try reflexivity.
    destruct ((status =? 200) || (status =? 204)); reflexivity.
  - unfold result_at, conclude. rewrite Hd.
    destruct (engine _ _) as [| | | |status ? ? ?]; try reflexivity.
    destruct ((status =? 200) || (status =? 204)); reflexivity.
  - now rewrite H3.
  - exact H7.
  - cbn [_port_counter]. rewrite H3. lia.
  - cbn [trace]. rewrite !launched_ports_app, !length_app.
    cbn [launched_ports launch_events length]. rewrite H5, H8, H3. lia.
Qed.

(** X6.  For a base configuration with one of the four protocols and a
    concurrency limit of at least one, [smart_search] returns: first the
    result of the baseline, with the empty override set, then one result per
    case of the sweep, then the results of the combinations, which there are
    only when more than one group has winners.  One port is allocated and
    one engine launched for each result. *)
Theorem smart_search_returns_all_phases (config : dict)
  (param_groups : list string) (concurrency : Z) (measure_speed : bool)
  (sched_sweep sched_combo : nat -> nat) (w : world) :
  is_base_config config = true ->
  recognized (get config "protocol") = true ->
  1 <= concurrency ->
  exists baseline sweep combo w',
    smart_search engine config param_groups concurrency measure_speed
      sched_sweep sched_combo w
    = (Done (baseline :: sweep ++ combo)%list, w')
    /\ params baseline = []
    /\ description baseline = "baseline (no changes)"
    /\ length sweep = length (sweep_cases config param_groups)
    /\ length combo
       = (if 1 <? Z.of_nat (length (find_winners param_groups sweep))
          then length (generate_combination_grid
                         (find_winners param_groups sweep) 3)
          else O)
    /\ _port_counter w'
       = _port_counter w + 1 + Z.of_nat (length sweep)
         + Z.of_nat (length combo)
    /\ length (launched_ports (trace w'))
       = (length (launched_ports (trace w)) + 1 + length sweep
          + length combo)%nat.
Proof.
  intros Hb Hr. apply smart_search_run.
  intros o. now apply build_recognized.
Qed.

(** X7.  With a single requested group there is nothing to combine:
    [smart_search] returns the baseline and the sweep of the group, one more
    result than the group has candidate values. *)
Theorem smart_search_single_group (config : dict) (group_name : string)
  (concurrency : Z) (measure_speed : bool)
  (sched_sweep sched_combo : nat -> nat) (w : world) :
  is_base_config config = true ->
  recognized (get config "protocol") = true ->
  1 <= concurrency ->
  exists results w',
    smart_search engine config [group_name] concurrency measure_speed
      sched_sweep sched_combo w = (Done results, w')
    /\ length results = S (length (sweep_cases config [group_name])).
Proof.
  intros Hb Hr Hc.
  destruct (smart_search_run config [group_name] concurrency measure_speed
              sched_sweep sched_combo w
              (fun o => build_recognized config o 10808 Hb Hr) Hc)
    as (baseline & sweep & combo & w' & Hrun & _ & _ & Hsweep & Hcombo & _).
  exists (baseline :: sweep ++ combo)%list, w'. split; [exact Hrun|].
  cbn [length]. rewrite length_app, Hsweep, Hcombo.
  destruct (find_winners_step [] group_name sweep) as [->|(ws & ->)];
    cbn; lia.
Qed.

End SearchRuns.

Lemma smart_search_returns_all_phases_witness :
  is_base_config vless_plain = true
  /\ recognized (get vless_plain "protocol") = true
  /\ 1 <= 2
  /\ exists baseline sweep combo w',
       smart_search first_probe_crashes vless_plain ["fingerprint"; "alpn"] 2
         false (fun k => k) (fun _ => O) fresh
       = (Done (baseline :: sweep ++ combo)%list, w')
       /\ params baseline = []
       /\ description baseline = "baseline (no changes)"
       /\ length sweep = length (sweep_cases vless_plain ["fingerprint"; "alpn"])
       /\ length combo
          = (if 1 <? Z.of_nat (length (find_winners ["fingerprint"; "alpn"] sweep))
             then length (generate_combination_grid
                            (find_winners ["fingerprint"; "alpn"] sweep) 3)
             else O)
       /\ _port_counter w'
          = _port_counter fresh + 1 + Z.of_nat (length sweep)
            + Z.of_nat (length combo)
       /\ length (launched_ports (trace w'))
          = (length (launched_ports (trace fresh)) + 1 + length sweep
             + length combo)%nat.
Proof.
  split; [reflexivity|]. split; [reflexivity|]. split; [lia|].
  apply (smart_search_returns_all_phases first_probe_crashes vless_plain
           ["fingerprint"; "alpn"] 2 false (fun k => k) (fun _ => O) fresh);
    [reflexivity|reflexivity|lia].
Defined.

Lemma smart_search_single_group_witness :
  is_base_config vless_plain = true
  /\ recognized (get vless_plain "protocol") = true
  /\ 1 <= 2
  /\ exists results w',
       smart_search first_probe_crashes vless_plain ["fingerprint"] 2 false
         (fun k => k) (fun _ => O) fresh = (Done results, w')
       /\ length results = S (length (sweep_cases vless_plain ["fingerprint"])).
Proof.
  split; [reflexivity|]. split; [reflexivity|]. split; [lia|].
  apply (smart_search_single_group first_probe_crashes vless_plain
           "fingerprint" 2 false (fun k => k) (fun _ => O) fresh);
    [reflexivity|reflexivity|lia].
Defined.

(** ** Sizes of the grids *)

Lemma lookup_none_iff {V} (d : list (string * V)) (k : string) :
  lookup d k = None <-> ~ In k (map fst d).
Proof.
  induction d as [|[k' v] d IH]; [cbn; tauto|].
  cbn [lookup map fst In]. destruct (String.eqb_spec k' k) as [->|Hne].
  - split; [discriminate|]. intros H. exfalso. apply H. now left.
  - rewrite IH. tauto.
Qed.

Lemma set_fresh {V} (d : list (string * V)) (k : string) (v : V) :
  lookup d k = None -> set d k v = (d ++ [(k, v)])%list.
Proof.
  induction d as [|[k' v'] d IH]; [reflexivity|].
  cbn [lookup set app]. destruct (k' =? k)%string; [discriminate|].
  intros H. now rewrite IH.
Qed.

Lemma fold_set_distinct {A V} (f : string * A -> V) (l : list (string * A))
  (acc : list (string * V)) :
  NoDup (map fst acc ++ map fst l) ->
  fold_left (fun tops gr => set tops (fst gr) (f gr)) l acc
  = (acc ++ map (fun gr => (fst gr, f gr)) l)%list.
Proof.
  revert acc. induction l as [|gr l IH]; intros acc Hnd.
  - cbn. now rewrite app_nil_r.
  - cbn [fold_left map]. rewrite set_fresh.
    + rewrite IH; [now rewrite <- app_assoc|].
      rewrite map_app. cbn [map fst]. rewrite <- app_assoc. exact Hnd.
    + apply lookup_none_iff. cbn [map] in Hnd.
      apply NoDup_remove_2 in Hnd. intros Hin. apply Hnd.
      apply in_or_app. now left.
Qed.

Lemma length_product {A} (lists : list (list A)) :
  length (product lists)
  = fold_right Nat.mul 1%nat (map (fun l => length l) lists).
Proof.
  induction lists as [|l lists IH]; [reflexivity|].
  cbn [product map fold_right]. rewrite <- IH.
  induction l as [|x l IHl]; [reflexivity|].
  cbn [flat_map length]. rewrite length_app, length_map, IHl. lia.
Qed.

Lemma length_slice_to {A} (l : list A) (n : Z) :
  0 <= n -> length (slice_to l n) = Nat.min (Z.to_nat n) (length l).
Proof.
  intros Hn. unfold slice_to.
  replace (0 <=? n) with true by (symmetry; now apply Z.leb_le).
  apply length_firstn.
Qed.

(** X8.  For winners of at least one group, each group named once, and a
    bound of zero or more, the combination generator returns as many cases
    as the product, over the groups, of the lesser of the bound and the
    number of winners of the group: nine at most for two groups and the
    bound three. *)
Theorem combination_grid_count (winners : list (string * list winner))
  (top_n : Z) :
  0 <= top_n ->
  NoDup (map fst winners) ->
  winners <> [] ->
  length (generate_combination_grid winners top_n)
  = fold_right Nat.mul 1%nat
      (map (fun gr => Nat.min (Z.to_nat top_n) (length (snd gr))) winners).
Proof.
  intros Hn Hnd Hne. unfold generate_combination_grid.
  rewrite (fold_set_distinct
             (fun gr => map fst (slice_to (snd gr) top_n)) winners [])
    by exact Hnd.
  cbn [app]. destruct winners as [|gr winners]; [congruence|].
  cbn [map]. rewrite length_map, length_product. cbn [map snd].
  rewrite !map_map. cbn [fold_right]. rewrite length_map, length_slice_to by lia.
  f_equal. f_equal. apply map_ext. intros g. cbn [snd].
  rewrite length_map. now apply length_slice_to.
Qed.

Lemma combination_grid_count_witness :
  0 <= 3
  /\ NoDup (map fst
              [ ("fingerprint",
                  [ ([("fingerprint", PStr "chrome")], 120);
                    ([("fingerprint", PStr "qq")], 140);
                    ([("fingerprint", PStr "ios")], 150);
                    ([("fingerprint", PStr "edge")], 200) ]);
                ("alpn", [ ([("alpn", PList [PStr "h2"])], 90);
                           ([("alpn", PList [PStr "http/1.1"])], 95) ]) ])
  /\ [ ("fingerprint",
         [ ([("fingerprint", PStr "chrome")], 120);
           ([("fingerprint", PStr "qq")], 140);
           ([("fingerprint", PStr "ios")], 150);
           ([("fingerprint", PStr "edge")], 200) ]);
       ("alpn", [ ([("alpn", PList [PStr "h2"])], 90);
                  ([("alpn", PList [PStr "http/1.1"])], 95) ]) ] <> []
  /\ length (generate_combination_grid
               [ ("fingerprint",
                   [ ([("fingerprint", PStr "chrome")], 120);
                     ([("fingerprint", PStr "qq")], 140);
                     ([("fingerprint", PStr "ios")], 150);
                     ([("fingerprint", PStr "edge")], 200) ]);
                 ("alpn", [ ([("alpn", PList [PStr "h2"])], 90);
                            ([("alpn", PList [PStr "http/1.1"])], 95) ]) ] 3)
     = (3 * (2 * 1))%nat.
Proof.
  split; [lia|].
  split; [repeat constructor; cbn; intuition discriminate|].
  split; [discriminate|].
  apply (combination_grid_count
           [ ("fingerprint",
               [ ([("fingerprint", PStr "chrome")], 120);
                 ([("fingerprint", PStr "qq")], 140);
                 ([("fingerprint", PStr "ios")], 150);
                 ([("fingerprint", PStr "edge")], 200) ]);
             ("alpn", [ ([("alpn", PList [PStr "h2"])], 90);
                        ([("alpn", PList [PStr "http/1.1"])], 95) ]) ] 3).
  - lia.
  - repeat constructor; cbn; intuition discriminate.
  - discriminate.
Defined.

Lemma selected_dimensions (keys : list string) :
  flat_map (fun key => match lookup PARAM_SPACE key with
                       | Some values => [(key, values)]
                       | None => []
                       end) keys
  = map (fun key => (key, domain key))
      (filter (fun key => mem key PARAM_SPACE) keys).
Proof.
  induction keys as [|key keys IH]; [reflexivity|].
  cbn [flat_map filter]. rewrite IH. unfold mem.
  destruct (lookup PARAM_SPACE key) as [values|] eqn:E; cbn [map app];
    [|reflexivity].
  assert (Hd : domain key = values) by (unfold domain; now rewrite E).
  now rewrite Hd.
Qed.

Lemma full_grid_dimensions (param_groups : list string) :
  flat_map (fun group_name =>
              flat_map (fun key => match lookup PARAM_SPACE key with
                                   | Some values => [(key, values)]
                                   | None => []
                                   end) (group_keys group_name))
    param_groups
  = map (fun key => (key, domain key)) (requested_keys param_groups).
Proof.
  unfold requested_keys.
  induction param_groups as [|g gs IH]; [reflexivity|].
  cbn [flat_map]. now rewrite filter_app, map_app, selected_dimensions, IH.
Qed.

Lemma full_grid_length (config : dict) (param_groups : list string) :
  length (generate_full_grid config param_groups)
  = fold_right Nat.mul 1%nat
      (map (fun key => length (domain key)) (requested_keys param_groups)).
Proof.
  unfold generate_full_grid.
  rewrite full_grid_dimensions, !map_map. cbn [fst snd]. rewrite map_id.
  destruct (requested_keys param_groups) as [|key keys] eqn:E;
    [reflexivity|].
  rewrite length_map, length_product, map_map. reflexivity.
Qed.

(** X9.  The full grid over the requested groups has as many cases as the
    product of the numbers of values of the requested dimensions, a
    dimension requested twice counting twice; with no dimension requested
    it is the one baseline case.  It is never empty. *)
Theorem full_grid_size (config : dict) (param_groups : list string) :
  length (generate_full_grid config param_groups)
  = fold_right Nat.mul 1%nat
      (map (fun key => length (domain key)) (requested_keys param_groups))
  /\ generate_full_grid config param_groups <> []
  /\ (requested_keys param_groups = [] ->
      generate_full_grid config param_groups = [([], "baseline")]).
Proof.
  split; [apply full_grid_length|split; [apply full_grid_nonempty|]].
  intros H. unfold generate_full_grid.
  rewrite full_grid_dimensions, H. reflexivity.
Qed.

Lemma requested_keys_app (l1 l2 : list string) :
  requested_keys (l1 ++ l2)
  = (requested_keys l1 ++ requested_keys l2)%list.
Proof. unfold requested_keys. now rewrite flat_map_app, filter_app. Qed.

(** X10.  The sweep of a list of groups is, group after group, the sweep
    of each: the sweep of two lists one after the other is the two sweeps
    one after the other, and every case of a sweep sets one key of the
    parameter space to one of the values of the key. *)
Theorem sweep_of_groups_in_order (config : dict) (l1 l2 : list string) :
  sweep_cases config (l1 ++ l2)
  = (sweep_cases config l1 ++ sweep_cases config l2)%list
  /\ forall c, In c (sweep_cases config l1) ->
       exists key value,
         c = singleton_case key value
         /\ In value (domain key) /\ In key param_keys.
Proof.
  split.
  - rewrite !sweep_cases_spec, requested_keys_app. apply flat_map_app.
  - intros c Hc. rewrite sweep_cases_spec in Hc. apply in_flat_map in Hc.
    destruct Hc as (key & _ & Hc). apply in_map_iff in Hc.
    destruct Hc as (value & <- & Hv). exists key, value.
    split; [reflexivity|]. split; [exact Hv|]. eapply domain_in_keys, Hv.
Qed.

(** ** The exhaustive search *)

(** X11.  For a base configuration with one of the four protocols and a
    concurrency limit of at least one, [full_search] returns one result per
    case of the full grid, the product of the numbers of values of the
    requested dimensions, and allocates one port for each. *)
Theorem full_search_returns_whole_grid (engine : Z -> dict -> probe_outcome)
  (config : dict) (param_groups : list string) (concurrency : Z)
  (measure_speed : bool) (sched : nat -> nat) (w : world) :
  is_base_config config = true ->
  recognized (get config "protocol") = true ->
  1 <= concurrency ->
  exists results w',
    full_search engine config param_groups concurrency measure_speed sched w
    = (Done results, w')
    /\ length results
       = fold_right Nat.mul 1%nat
           (map (fun key => length (domain key)) (requested_keys param_groups))
    /\ _port_counter w' = _port_counter w + Z.of_nat (length results).
Proof.
  intros Hb Hr Hc. unfold full_search.
  destruct (build_cases_ok config (generate_full_grid config param_groups)
              (fun o => build_recognized config o 10808 Hb Hr))
    as (docs & Hdocs & Hlen & _).
  erewrite mbind_done by reflexivity. rewrite Hdocs. cbn [lift].
  erewrite mbind_done by reflexivity.
  match goal with
  | |- context [run_batch _ _ _ _ _ ?w1] =>
      destruct (run_batch_trace engine docs concurrency measure_speed sched
                  w1 Hc) as (results & new & H1 & _ & H3 & _)
  end.
  exists results. eexists. split; [exact H1|].
  split; [|cbn [_port_counter]; now rewrite H3].
  rewrite H3, Hlen. apply full_grid_length.
Qed.

Lemma full_search_returns_whole_grid_witness :
  is_base_config vless_plain = true
  /\ recognized (get vless_plain "protocol") = true
  /\ 1 <= 2
  /\ exists results w',
       full_search first_probe_crashes vless_plain ["ech"; "alpn"] 2 false
         (fun k => k) fresh = (Done results, w')
       /\ length results
          = fold_right Nat.mul 1%nat
              (map (fun key => length (domain key))
                 (requested_keys ["ech"; "alpn"]))
       /\ _port_counter w' = _port_counter fresh + Z.of_nat (length results).
Proof.
  split; [reflexivity|]. split; [reflexivity|]. split; [lia|].
  apply (full_search_returns_whole_grid first_probe_crashes vless_plain
           ["ech"; "alpn"] 2 false (fun k => k) fresh);
    [reflexivity|reflexivity|lia].
Defined.

(** ** The stream settings of a built document *)


Lemma built_document_layout (config overrides doc : dict) (socks_port : Z) :
  build_xray_json config overrides socks_port = Ok doc ->
  get_path (PDict doc) port_path = Some (PInt socks_port)
  /\ exists stream,
       get_path (PDict doc) stream_path = Some (PDict stream)
       /\ ((eq_str (get config "protocol") "shadowsocks" = false
            /\ exists security transport,
                 _build_stream_settings config overrides security transport
                 = Ok stream)
           \/ (eq_str (get config "protocol") "shadowsocks" = true
               /\ stream
                  = _apply_sockopt [("network", PStr "tcp")] overrides None)).
Proof.
  unfold build_xray_json. intros Hb.
  assert (Hp : index config "protocol" = Ok (get config "protocol")).
  { unfold index, get, get_or in *.
    destruct (lookup config "protocol"); [reflexivity|discriminate]. }
  rewrite Hp in Hb. cbn [bind] in Hb.
  set (protocol := get config "protocol") in *.
  assert (Hstream :
    forall sec transport proto settings,
      (outbound <-
         (stream <- _build_stream_settings config overrides sec transport ;;
          Ok [ ("tag", PStr "proxy"); ("protocol", proto);
               ("settings", settings); ("streamSettings", PDict stream) ]) ;;
       Ok [ ("log", PDict [ ("loglevel", PStr "warning") ]);
            ("inbounds",
              PList [ PDict [ ("tag", PStr "socks-in");
                              ("port", PInt socks_port);
                              ("listen", PStr "127.0.0.1");
                              ("protocol", PStr "socks");
                              ("settings",
                                PDict [ ("auth", PStr "noauth");
                                        ("udp", PBool true) ]) ] ]);
            ("outbounds", PList [PDict outbound]) ]) = Ok doc ->
      get_path (PDict doc) port_path = Some (PInt socks_port)
      /\ exists stream,
           get_path (PDict doc) stream_path = Some (PDict stream)
           /\ exists security transport,
                _build_stream_settings config overrides security transport
                = Ok stream).
  { intros sec transport proto settings H.
    destruct (_build_stream_settings config overrides sec transport)
      as [stream|] eqn:E; [|discriminate].
    cbn [bind] in H. injection H as <-. split; [reflexivity|].
    exists stream. split; [reflexivity|]. now exists sec, transport. }
  destruct (eq_str protocol "vless") eqn:E1.
  - assert (Hss : eq_str protocol "shadowsocks" = false).
    { apply eq_str_eq in E1. now rewrite E1. }
    unfold _build_vless_outbound in Hb.
    destruct (index config "address"), (index config "port"),
      (index config "uuid"); cbn [bind] in Hb; try discriminate.
    destruct (Hstream _ _ _ _ Hb) as (Hport & stream & Hs & Hex).
    split; [exact Hport|]. exists stream. split; [exact Hs|]. left. now split.
  - destruct (eq_str protocol "vmess") eqn:E2.
    + assert (Hss : eq_str protocol "shadowsocks" = false).
      { apply eq_str_eq in E2. now rewrite E2. }
      unfold _build_vmess_outbound in Hb.
      destruct (index config "address"), (index config "port"),
        (index config "uuid"); cbn [bind] in Hb; try discriminate.
      destruct (Hstream _ _ _ _ Hb) as (Hport & stream & Hs & Hex).
      split; [exact Hport|]. exists stream. split; [exact Hs|]. left.
      now split.
    + destruct (eq_str protocol "trojan") eqn:E3.
      * assert (Hss : eq_str protocol "shadowsocks" = false).
        { apply eq_str_eq in E3. now rewrite E3. }
        unfold _build_trojan_outbound in Hb.
        destruct (index config "address"), (index config "port"),
          (index config "password"); cbn [bind] in Hb; try discriminate.
        destruct (Hstream _ _ _ _ Hb) as (Hport & stream & Hs & Hex).
        split; [exact Hport|]. exists stream. split; [exact Hs|]. left.
        now split.
      * destruct (eq_str protocol "shadowsocks") eqn:E4; [|discriminate].
        unfold _build_shadowsocks_outbound in Hb.
        destruct (index config "address"), (index config "port"),
          (index config "method"), (index config "password");
          cbn [bind] in Hb; try discriminate.
        injection Hb as <-. split; [reflexivity|].
        eexists. split; [reflexivity|]. right. now split.
Qed.

Lemma security_settings_no_sockopt (config overrides t s : dict)
  (security : pyval) :
  lookup t "sockopt" = None ->
  security_settings config overrides t security = Ok s ->
  lookup s "sockopt" = None.
Proof.
  intros Ht. unfold security_settings.
  destruct (eq_str security "reality");
    [|destruct (eq_str security "tls")]; intros H.
  - injection H as <-. now rewrite !lookup_set.
  - repeat match type of H with
           | context [bind ?m _] =>
               destruct m; cbn [bind] in H; [|discriminate H]
           end.
    injection H as <-. now rewrite !lookup_set.
  - injection H as <-. now rewrite !lookup_set.
Qed.

Lemma stream_before_sockopt (config overrides stream : dict)
  (security transport : pyval) :
  _build_stream_settings config overrides security transport = Ok stream ->
  exists s,
    lookup s "sockopt" = None
    /\ stream
       = allow_insecure config (_apply_sockopt s overrides (Some config)).
Proof.
  unfold _build_stream_settings. intros H.
  destruct (security_settings config overrides _ security) as [s|] eqn:Es;
    [|discriminate].
  cbn [bind] in H. injection H as <-. exists s. split; [|reflexivity].
  eapply security_settings_no_sockopt; [|exact Es].
  apply transport_settings_keys.
Qed.

Lemma get_or_lookup (d : dict) (k : string) (default : pyval) :
  get_or d k default
  = match lookup d k with Some v => v | None => default end.
Proof. reflexivity. Qed.

Lemma apply_sockopt_view (s overrides : dict) (config : option dict) :
  lookup s "sockopt" = None ->
  let cfg := match config with Some c => c | None => [] end in
  let v := PDict (_apply_sockopt s overrides config) in
  get_path v [Key "sockopt"; Key "fragment"]
  = fragment_block
      (get_or overrides "fragment_length" (get cfg "fragment_length"))
      (get_or overrides "fragment_interval" (get cfg "fragment_interval"))
      (get_or overrides "fragment_packets" (get cfg "fragment_packets"))
  /\ get_path v [Key "sockopt"; Key "tcpNoDelay"]
     = lookup overrides "tcp_no_delay"
  /\ get_path v [Key "sockopt"; Key "tcpFastOpen"]
     = lookup overrides "tcp_fast_open"
  /\ get_path v [Key "sockopt"; Key "tcpMptcp"] = lookup overrides "mptcp"
  /\ get_path v [Key "sockopt"; Key "tcpKeepAliveInterval"]
     = lookup overrides "tcp_keep_alive"
  /\ get_path v [Key "sockopt"; Key "domainStrategy"]
     = lookup overrides "domain_strategy".
Proof.
  intros Hs cfg v. subst v.
  assert (Hcfg : (match config with
                  | Some c => if truthy (PDict c) then c else []
                  | None => []
                  end) = cfg).
  { subst cfg. destruct config as [[|kv c]|]; reflexivity. }
  unfold _apply_sockopt, fragment_block. rewrite Hcfg.
  unfold mem, get. rewrite !(get_or_lookup overrides).
  destruct (truthy (match lookup overrides "fragment_length" with
                    | Some v => v | None => get_or cfg "fragment_length" PNone
                    end)
            || truthy (match lookup overrides "fragment_interval" with
                       | Some v => v
                       | None => get_or cfg "fragment_interval" PNone
                       end)
            || truthy (match lookup overrides "fragment_packets" with
                       | Some v => v
                       | None => get_or cfg "fragment_packets" PNone
                       end));
    destruct (lookup overrides "tcp_no_delay"),
      (lookup overrides "tcp_fast_open"), (lookup overrides "mptcp"),
      (lookup overrides "tcp_keep_alive"), (lookup overrides "domain_strategy");
    cbn [set truthy String.eqb Ascii.eqb Bool.eqb get_path];
    rewrite ?lookup_set, ?Hs; cbn [String.eqb Ascii.eqb Bool.eqb lookup];
    repeat split; reflexivity.
Qed.

Lemma built_stream_view (config overrides doc : dict) (socks_port : Z) :
  build_xray_json config overrides socks_port = Ok doc ->
  exists stream,
    get_path (PDict doc) stream_path = Some (PDict stream)
    /\ exists s,
         lookup s "sockopt" = None
         /\ forall k,
              get_path (PDict stream) [Key "sockopt"; Key k]
              = get_path
                  (PDict (_apply_sockopt s overrides
                            (if eq_str (get config "protocol") "shadowsocks"
                             then None else Some config)))
                  [Key "sockopt"; Key k].
Proof.
  intros Hb.
  destruct (built_document_layout _ _ _ _ Hb)
    as (_ & stream & Hs & [(Hp & sec & tr & Hst)|(Hp & ->)]).
  - exists stream. split; [exact Hs|].
    destruct (stream_before_sockopt _ _ _ _ _ Hst) as (s & Hso & ->).
    exists s. split; [exact Hso|]. intros k. rewrite Hp.
    cbn [get_path]. now rewrite allow_insecure_keeps_sockopt.
  - eexists. split; [exact Hs|].
    exists [("network", PStr "tcp")]. split; [reflexivity|].
    intros k. now rewrite Hp.
Qed.

(** X12.  In every document the builder returns, each of the five TCP
    socket options is present in the socket options exactly when its
    parameter is among the overrides, and then holds the overriding value;
    the base configuration never sets one. *)
Theorem socket_options_follow_overrides (config overrides doc : dict)
  (socks_port : Z) :
  build_xray_json config overrides socks_port = Ok doc ->
  get_path (PDict doc) (in_stream ["sockopt"; "tcpNoDelay"])
  = lookup overrides "tcp_no_delay"
  /\ get_path (PDict doc) (in_stream ["sockopt"; "tcpFastOpen"])
     = lookup overrides "tcp_fast_open"
  /\ get_path (PDict doc) (in_stream ["sockopt"; "tcpMptcp"])
     = lookup overrides "mptcp"
  /\ get_path (PDict doc) (in_stream ["sockopt"; "tcpKeepAliveInterval"])
     = lookup overrides "tcp_keep_alive"
  /\ get_path (PDict doc) (in_stream ["sockopt"; "domainStrategy"])
     = lookup overrides "domain_strategy".
Proof.
  intros Hb.
  destruct (built_stream_view _ _ _ _ Hb) as (stream & Hs & s & Hso & Hk).
  unfold in_stream. rewrite !get_path_app, Hs. cbn [map get_opt].
  rewrite !Hk.
  destruct (apply_sockopt_view s overrides
              (if eq_str (get config "protocol") "shadowsocks"
               then None else Some config) Hso)
    as (_ & H1 & H2 & H3 & H4 & H5).
  now rewrite H1, H2, H3, H4, H5.
Qed.

Lemma socket_options_follow_overrides_witness :
  exists doc,
    build_xray_json vless_plain [("tcp_keep_alive", PInt 30)] 10808 = Ok doc
    /\ get_path (PDict doc) (in_stream ["sockopt"; "tcpKeepAliveInterval"])
       = Some (PInt 30)
    /\ get_path (PDict doc) (in_stream ["sockopt"; "tcpNoDelay"]) = None.
Proof.
  eexists. split; [reflexivity|].
  destruct (socket_options_follow_overrides vless_plain
              [("tcp_keep_alive", PInt 30)] _ 10808 eq_refl)
    as (H1 & _ & _ & H4 & _).
  split; [exact H4|exact H1].
Defined.

Lemma built_fragment_block (config overrides doc : dict) (socks_port : Z) :
  build_xray_json config overrides socks_port = Ok doc ->
  let cfg := sockopt_config config in
  get_path (PDict doc) (in_stream ["sockopt"; "fragment"])
  = fragment_block
      (get_or overrides "fragment_length" (get cfg "fragment_length"))
      (get_or overrides "fragment_interval" (get cfg "fragment_interval"))
      (get_or overrides "fragment_packets" (get cfg "fragment_packets")).
Proof.
  intros Hb cfg.
  destruct (built_stream_view _ _ _ _ Hb) as (stream & Hs & s & Hso & Hk).
  unfold in_stream. rewrite !get_path_app, Hs. cbn [map get_opt].
  rewrite Hk.
  destruct (apply_sockopt_view s overrides
              (if eq_str (get config "protocol") "shadowsocks"
               then None else Some config) Hso) as (H & _).
  rewrite H. subst cfg. unfold sockopt_config.
  now destruct (eq_str (get config "protocol") "shadowsocks").
Qed.

(** X13.  In every document the builder returns, the fragment block of the
    socket options is either absent or complete.  Each of length, interval
    and packets is taken from the overrides, else from the base
    configuration (for shadowsocks from the overrides alone); when none of
    the three is truthy there is no block, otherwise the block holds all
    three, a missing one replaced by its default ("100-200", "10-20",
    "tlshello"). *)
Theorem fragment_block_complete_or_absent (config overrides doc : dict)
  (socks_port : Z) :
  build_xray_json config overrides socks_port = Ok doc ->
  let cfg := sockopt_config config in
  get_path (PDict doc) (in_stream ["sockopt"; "fragment"])
  = fragment_block
      (get_or overrides "fragment_length" (get cfg "fragment_length"))
      (get_or overrides "fragment_interval" (get cfg "fragment_interval"))
      (get_or overrides "fragment_packets" (get cfg "fragment_packets")).
Proof. apply built_fragment_block. Qed.

Lemma fragment_block_complete_or_absent_witness :
  exists doc,
    build_xray_json vless_plain [("fragment_interval", PStr "2-5")] 10808
    = Ok doc
    /\ get_path (PDict doc) (in_stream ["sockopt"; "fragment"])
       = Some (PDict [ ("packets", PStr "tlshello");
                       ("length", PStr "100-200");
                       ("interval", PStr "2-5") ]).
Proof.
  eexists. split; [reflexivity|].
  exact (fragment_block_complete_or_absent vless_plain
           [("fragment_interval", PStr "2-5")] _ 10808 eq_refl).
Defined.

(** ** The port of a document *)

(** X14.  The port a probe writes into its copy of a document is the only
    trace of the port the document was built with: stamping a built
    document with a port gives the document the builder returns for that
    port, and stamping commutes with the annotation of the searches. *)
Theorem stamp_port_rebuilds (config overrides doc annotation : dict)
  (desc : string) (built_with port : Z) :
  build_xray_json config overrides built_with = Ok doc ->
  build_xray_json config overrides port = Ok (stamp_port doc port)
  /\ stamp_port (annotate doc annotation desc) port
     = annotate (stamp_port doc port) annotation desc.
Proof.
  unfold build_xray_json. intros H.
  destruct (index config "protocol") as [protocol|]; cbn [bind] in *;
    [|discriminate].
  match type of H with
  | context [bind ?m _] => destruct m as [outbound|]
  end; cbn [bind] in *; [|discriminate].
  injection H as <-. split; reflexivity.
Qed.

Lemma stamp_port_rebuilds_witness :
  exists doc,
    build_xray_json vless_plain [] 10808 = Ok doc
    /\ build_xray_json vless_plain [] 20007 = Ok (stamp_port doc 20007).
Proof.
  eexists. split; [reflexivity|].
  exact (proj1 (stamp_port_rebuilds vless_plain [] _ [] "" 10808 20007
                  eq_refl)).
Defined.

(** ** What the builder needs of a configuration *)

Lemma stream_settings_with_overrides (config overrides stream0 : dict)
  (security transport0 transport : pyval) :
  _build_stream_settings config [] security transport0 = Ok stream0 ->
  exists stream,
    _build_stream_settings config overrides security transport = Ok stream.
Proof.
  unfold _build_stream_settings, security_settings.
  destruct (eq_str security "reality"); [intros _; eexists; reflexivity|].
  destruct (eq_str security "tls"); [|intros _; eexists; reflexivity].
  cbn [get get_or lookup]. intros H.
  destruct (split_if_truthy (get_or config "alpn" (PStr ""))) as [alpn|];
    cbn [bind] in H; [|discriminate].
  destruct (index config "address") as [address|]; cbn [bind] in H;
    [|discriminate].
  unfold get at 1.
  destruct (get_or overrides "alpn" PNone); cbn [bind];
    eexists; reflexivity.
Qed.

Lemma build_with_overrides (config overrides doc0 : dict) (p0 p : Z) :
  build_xray_json config [] p0 = Ok doc0 ->
  exists doc, build_xray_json config overrides p = Ok doc.
Proof.
  unfold build_xray_json. intros H.
  destruct (index config "protocol") as [protocol|]; cbn [bind] in *;
    [|discriminate].
  assert (Hstream :
    forall security t0 t (k0 k : dict -> result dict),
      (forall s, exists d, k s = Ok d) ->
      (exists d0, (stream <- _build_stream_settings config [] security t0 ;;
                   k0 stream) = Ok d0) ->
      exists d, (stream <- _build_stream_settings config overrides security t ;;
                 k stream) = Ok d).
  { intros security t0 t k0 k Hk (d0 & H0).
    destruct (_build_stream_settings config [] security t0) as [s0|] eqn:E;
      [|discriminate].
    destruct (stream_settings_with_overrides config overrides s0 security
                t0 t E) as (s & ->).
    cbn [bind]. apply Hk. }
  assert (Hout :
    exists outbound,
      (if eq_str protocol "vless" then _build_vless_outbound config overrides
       else if eq_str protocol "vmess"
            then _build_vmess_outbound config overrides
       else if eq_str protocol "trojan"
            then _build_trojan_outbound config overrides
       else if eq_str protocol "shadowsocks"
            then _build_shadowsocks_outbound config overrides
       else Raise (ValueError ("Unsupported protocol: " ++ str protocol)))
      = Ok outbound).
  { destruct (eq_str protocol "vless");
      [|destruct (eq_str protocol "vmess");
        [|destruct (eq_str protocol "trojan");
          [|destruct (eq_str protocol "shadowsocks")]]].
    - unfold _build_vless_outbound in *.
      destruct (index config "address"), (index config "port"),
        (index config "uuid"); cbn [bind] in *; try discriminate.
      eapply Hstream; [intros s; eexists; reflexivity|].
      match type of H with
      | context [bind (bind ?m ?k) _] => destruct (bind m k) eqn:E
      end; [|discriminate]. eexists. exact E.
    - unfold _build_vmess_outbound in *.
      destruct (index config "address"), (index config "port"),
        (index config "uuid"); cbn [bind] in *; try discriminate.
      eapply Hstream; [intros s; eexists; reflexivity|].
      match type of H with
      | context [bind (bind ?m ?k) _] => destruct (bind m k) eqn:E
      end; [|discriminate]. eexists. exact E.
    - unfold _build_trojan_outbound in *.
      destruct (index config "address"), (index config "port"),
        (index config "password"); cbn [bind] in *; try discriminate.
      eapply Hstream; [intros s; eexists; reflexivity|].
      match type of H with
      | context [bind (bind ?m ?k) _] => destruct (bind m k) eqn:E
      end; [|discriminate]. eexists. exact E.
    - unfold _build_shadowsocks_outbound in *.
      destruct (index config "address"), (index config "port"),
        (index config "method"), (index config "password");
        cbn [bind] in *; try discriminate.
      eexists; reflexivity.
    - discriminate. }
  destruct Hout as (outbound & ->). eexists; reflexivity.
Qed.

(** X15.  Overrides never make the builder fail: when the document of a
    base configuration without overrides can be built, the document can be
    built for every override set and every port. *)
Theorem overrides_never_break_the_build (config overrides doc0 : dict)
  (p0 p : Z) :
  build_xray_json config [] p0 = Ok doc0 ->
  exists doc, build_xray_json config overrides p = Ok doc.
Proof. apply build_with_overrides. Qed.

Lemma overrides_never_break_the_build_witness :
  exists doc,
    build_xray_json vless_plain
      [("transport", PStr "grpc"); ("alpn", PInt 7)] 20001 = Ok doc.
Proof.
  apply (overrides_never_break_the_build vless_plain
           [("transport", PStr "grpc"); ("alpn", PInt 7)] _ 10808 20001
           eq_refl).
Defined.

Lemma index_ok_mem (config : dict) (k : string) (v : pyval) :
  index config k = Ok v -> mem k config = true.
Proof.
  unfold index, mem. now destruct (lookup config k).
Qed.

(** X16.  The builder returns a document only for a configuration that
    names one of the four protocols and holds the address, the port and the
    credentials of the protocol: the user id for vless and vmess, the
    password for trojan, the method and the password for shadowsocks. *)
Theorem built_config_has_required_keys (config overrides doc : dict)
  (socks_port : Z) :
  build_xray_json config overrides socks_port = Ok doc ->
  recognized (get config "protocol") = true
  /\ mem "address" config = true
  /\ mem "port" config = true
  /\ credentials_ok config = true.
Proof.
  unfold build_xray_json. intros H.
  assert (Hp : index config "protocol" = Ok (get config "protocol")).
  { unfold index, get, get_or in *.
    destruct (lookup config "protocol"); [reflexivity|discriminate]. }
  rewrite Hp in H. cbn [bind] in H.
  unfold recognized, credentials_ok.
  destruct (eq_str (get config "protocol") "vless");
    [|destruct (eq_str (get config "protocol") "vmess");
      [|destruct (eq_str (get config "protocol") "trojan");
        [|destruct (eq_str (get config "protocol") "shadowsocks")]]];
    cbn [orb].
  - unfold _build_vless_outbound in H.
    destruct (index config "address") eqn:Ea, (index config "port") eqn:Eb,
      (index config "uuid") eqn:Ec; cbn [bind] in H; try discriminate.
    repeat split; eapply index_ok_mem; eassumption.
  - unfold _build_vmess_outbound in H.
    destruct (index config "address") eqn:Ea, (index config "port") eqn:Eb,
      (index config "uuid") eqn:Ec; cbn [bind] in H; try discriminate.
    repeat split; eapply index_ok_mem; eassumption.
  - unfold _build_trojan_outbound in H.
    destruct (index config "address") eqn:Ea, (index config "port") eqn:Eb,
      (index config "password") eqn:Ec; cbn [bind] in H; try discriminate.
    repeat split; eapply index_ok_mem; eassumption.
  - unfold _build_shadowsocks_outbound in H.
    destruct (index config "address") eqn:Ea, (index config "port") eqn:Eb,
      (index config "method") eqn:Ec, (index config "password") eqn:Ed;
      cbn [bind] in H; try discriminate.
    split; [reflexivity|]. split; [eapply index_ok_mem; eassumption|].
    split; [eapply index_ok_mem; eassumption|].
    apply andb_true_intro. split; eapply index_ok_mem; eassumption.
  - discriminate.
Qed.

Lemma built_config_has_required_keys_witness :
  recognized (get vless_with_fragment "protocol") = true
  /\ mem "address" vless_with_fragment = true
  /\ mem "port" vless_with_fragment = true
  /\ credentials_ok vless_with_fragment = true.
Proof.
  apply (built_config_has_required_keys vless_with_fragment [] _ 10808
           eq_refl).
Defined.

(** ** A search fails at its first document or not at all *)

(** X17.  [smart_search] can fail only while it builds the baseline
    document: when the builder raises for the base configuration, the search
    raises the same exception before a port is allocated or an engine
    launched; when the builder returns the baseline document and the
    concurrency limit is at least one, the search runs to its end and
    returns results. *)
Theorem smart_search_fails_only_at_baseline
  (engine : Z -> dict -> probe_outcome) (config : dict)
  (param_groups : list string) (concurrency : Z) (measure_speed : bool)
  (sched_sweep sched_combo : nat -> nat) (w : world) :
  match build_xray_json config [] 10808 with
  | Raise e =>
      smart_search engine config param_groups concurrency measure_speed
        sched_sweep sched_combo w
      = (Fail e,
         {| _port_counter := _port_counter w;
            trace := (trace w ++ [PhaseStarted "Baseline Test" 1 3])%list |})
  | Ok _ =>
      1 <= concurrency ->
      exists results w',
        smart_search engine config param_groups concurrency measure_speed
          sched_sweep sched_combo w = (Done results, w')
  end.
Proof.
  destruct (build_xray_json config [] 10808) as [doc|e] eqn:E.
  - intros Hc.
    destruct (smart_search_run engine config param_groups concurrency
                measure_speed sched_sweep sched_combo w
                (fun o => build_with_overrides config o doc 10808 10808 E) Hc)
      as (baseline & sweep & combo & w' & Hrun & _).
    eexists. eexists. exact Hrun.
  - unfold smart_search, mbind, emit, lift. now rewrite E.
Qed.

(** ** Rankings *)

Section StableSort.

Context {A : Type} (key : A -> Z).

Lemma insert_by_perm (x : A) (l : list A) :
  Permutation (insert_by key x l) (x :: l).
Proof.
  induction l as [|y l IH]; [reflexivity|].
  cbn [insert_by]. destruct (key x <=? key y); [reflexivity|].
  rewrite IH. apply perm_swap.
Qed.

Lemma sort_by_perm (l : list A) : Permutation (sort_by key l) l.
Proof.
  induction l as [|x l IH]; [reflexivity|].
  cbn [sort_by fold_right]. fold (sort_by key l).
  rewrite insert_by_perm. now constructor.
Qed.

Lemma insert_by_sorted (x : A) (l : list A) :
  StronglySorted (fun a b => key a <= key b) l ->
  StronglySorted (fun a b => key a <= key b) (insert_by key x l).
Proof.
  induction 1 as [|y l Hs IH Hy]; [repeat constructor|].
  cbn [insert_by]. destruct (Z.leb_spec (key x) (key y)) as [Hle|Hgt].
  - constructor; [now constructor|].
    constructor; [exact Hle|].
    eapply Forall_impl; [|exact Hy]. cbn. intros a Ha. lia.
  - constructor; [exact IH|].
    eapply Permutation_Forall; [symmetry; apply insert_by_perm|].
    constructor; [lia|exact Hy].
Qed.

Lemma sort_by_sorted (l : list A) :
  StronglySorted (fun a b => key a <= key b) (sort_by key l).
Proof.
  induction l as [|x l IH]; [constructor|].
  cbn [sort_by fold_right]. now apply insert_by_sorted.
Qed.

Lemma insert_by_filter (z : Z) (x : A) (l : list A) :
  filter (fun a => key a =? z) (insert_by key x l)
  = filter (fun a => key a =? z) (x :: l).
Proof.
  induction l as [|y l IH]; [reflexivity|].
  cbn [insert_by]. destruct (Z.leb_spec (key x) (key y)) as [Hle|Hgt];
    [reflexivity|].
  cbn [filter] in *. rewrite IH.
  destruct (Z.eqb_spec (key x) z) as [Hx|Hx]; [|reflexivity].
  destruct (Z.eqb_spec (key y) z) as [Hy|Hy]; [lia|reflexivity].
Qed.

Lemma sort_by_stable (z : Z) (l : list A) :
  filter (fun a => key a =? z) (sort_by key l)
  = filter (fun a => key a =? z) l.
Proof.
  induction l as [|x l IH]; [reflexivity|].
  cbn [sort_by fold_right]. fold (sort_by key l).
  rewrite insert_by_filter. cbn [filter]. now rewrite IH.
Qed.

End StableSort.

Lemma sort_by_latency_sort_by (l : list winner) :
  sort_by_latency l = sort_by snd l.
Proof.
  unfold sort_by_latency, sort_by. induction l as [|x l IH]; [reflexivity|].
  cbn [fold_right]. rewrite IH. generalize (fold_right (insert_by snd) [] l).
  intros s. induction s as [|y s IHs]; [reflexivity|].
  cbn [insert_by_latency insert_by]. now rewrite IHs.
Qed.

(** X18.  The winners of a group are the successful sweep results that
    set a key of the group, each as its override set and latency, ranked by
    latency: every such result is there once, a lower latency comes first,
    and results of equal latency keep the order of the sweep. *)
Theorem group_winners_ranked (group_name : string)
  (sweep_results : list TestResult) :
  let candidates :=
    map (fun r => (params r, latency_ms r))
      (filter (fun r => success r
                        && existsb (fun k => mem k (params r))
                             (group_keys group_name))
         sweep_results) in
  Permutation (group_winners group_name sweep_results) candidates
  /\ StronglySorted (fun a b => snd a <= snd b)
       (group_winners group_name sweep_results)
  /\ forall latency,
       filter (fun a => snd a =? latency)
         (group_winners group_name sweep_results)
       = filter (fun a => snd a =? latency) candidates.
Proof.
  intros candidates. unfold group_winners. fold candidates.
  rewrite sort_by_latency_sort_by.
  split; [apply sort_by_perm|]. split; [apply sort_by_sorted|].
  intros latency. apply sort_by_stable.
Qed.

Lemma find_winners_fold (groups : list string)
  (sweep_results : list TestResult) (acc : list (string * list winner))
  (g : string) :
  lookup
    (fold_left
       (fun winners group_name =>
          match group_winners group_name sweep_results with
          | [] => winners
          | group_results => set winners group_name group_results
          end)
       groups acc) g
  = if existsb (String.eqb g) groups then
      match group_winners g sweep_results with
      | [] => lookup acc g
      | ws => Some ws
      end
    else lookup acc g.
Proof.
  revert acc. induction groups as [|a groups IH]; intros acc.
  - cbn. reflexivity.
  - cbn [fold_left existsb]. rewrite IH.
    destruct (String.eqb_spec g a) as [->|Hne]; cbn [orb].
    + destruct (group_winners a sweep_results) as [|x ws] eqn:E.
      * now destruct (existsb (String.eqb a) groups).
      * rewrite lookup_set, String.eqb_refl.
        now destruct (existsb (String.eqb a) groups).
    + assert (Hl : lookup
                (match group_winners a sweep_results with
                 | [] => acc
                 | x :: ws => set acc a (x :: ws)
                 end) g = lookup acc g).
      { destruct (group_winners a sweep_results); [reflexivity|].
        rewrite lookup_set.
        destruct (String.eqb_spec a g); [congruence|reflexivity]. }
      now rewrite Hl.
Qed.

(** X19.  The winners found after the sweep have an entry for a group
    exactly when the group was requested and at least one successful sweep
    result sets one of its keys; the entry is the ranking of those results,
    which is then not empty. *)
Theorem find_winners_lookup (param_groups : list string)
  (sweep_results : list TestResult) (group_name : string) :
  lookup (find_winners param_groups sweep_results) group_name
  = if existsb (String.eqb group_name) param_groups then
      match group_winners group_name sweep_results with
      | [] => None
      | ws => Some ws
      end
    else None.
Proof.
  unfold find_winners. rewrite find_winners_fold. cbn [lookup].
  now destruct (existsb (String.eqb group_name) param_groups),
    (group_winners group_name sweep_results).
Qed.

(** ** The final report *)

Lemma filter_split_perm {A} (f : A -> bool) (l : list A) :
  Permutation (filter f l ++ filter (fun a => negb (f a)) l)%list l.
Proof.
  induction l as [|x l IH]; [reflexivity|].
  cbn [filter]. destruct (f x); cbn [negb app].
  - now constructor.
  - rewrite <- Permutation_middle. now constructor.
Qed.

Lemma working_perm (results : list TestResult) :
  Permutation (working results) (filter success results).
Proof. apply sort_by_perm. Qed.

(** X20.  The ranking of the final report lists every result of the
    search once.  Its working part holds successful results only, by
    latency, and in the order of the search among equal latencies.  The
    table shows twenty results, or all of them when there are fewer, and the
    tested count is the working count plus the blocked count. *)
Theorem final_report_ranking (results : list TestResult) :
  Permutation (sorted_results results) results
  /\ Forall (fun r => success r = true) (working results)
  /\ StronglySorted (fun a b => latency_ms a <= latency_ms b) (working results)
  /\ (forall latency,
        filter (fun r => latency_ms r =? latency) (working results)
        = filter (fun r => latency_ms r =? latency) (filter success results))
  /\ length (top_results results) = Nat.min 20 (length results)
  /\ (let '(total, ok_count, blocked) := summary_counts results in
      total = (ok_count + blocked)%nat).
Proof.
  assert (Hperm : Permutation (sorted_results results) results).
  { unfold sorted_results, failed. rewrite working_perm.
    apply filter_split_perm. }
  split; [exact Hperm|].
  split.
  { eapply Permutation_Forall; [symmetry; apply working_perm|].
    apply Forall_forall. intros r Hr. now apply filter_In in Hr. }
  split; [apply sort_by_sorted|].
  split; [intros latency; apply sort_by_stable|].
  split.
  - unfold top_results. rewrite length_firstn.
    rewrite (Permutation_length Hperm). lia.
  - cbn. rewrite <- (Permutation_length Hperm). unfold sorted_results.
    now rewrite length_app.
Qed.

(** X21.  The best result of the summary is a successful result of the
    search that no successful result beats in latency; there is none
    exactly when no result is successful. *)
Theorem best_is_fastest_working (results : list TestResult) :
  match best results with
  | Some r =>
      In r results /\ success r = true
      /\ forall r', In r' results -> success r' = true ->
           latency_ms r <= latency_ms r'
  | None => forall r, In r results -> success r = false
  end.
Proof.
  unfold best.
  assert (Hs := sort_by_sorted latency_ms (filter success results)).
  assert (Hp := working_perm results). unfold working in *.
  destruct (sort_by latency_ms (filter success results)) as [|r rest].
  - intros r Hr. destruct (success r) eqn:E; [|reflexivity].
    assert (Hin : In r (filter success results)) by now apply filter_In.
    apply Permutation_sym in Hp. now apply (Permutation_in _ Hp) in Hin.
  - assert (Hin : In r (filter success results)).
    { apply (Permutation_in _ Hp). now left. }
    apply filter_In in Hin. destruct Hin as [Hin Hok].
    split; [exact Hin|]. split; [exact Hok|].
    intros r' Hin' Hok'.
    assert (Hr' : In r' (r :: rest)).
    { apply Permutation_sym in Hp. apply (Permutation_in _ Hp).
      now apply filter_In. }
    destruct Hr' as [<-|Hr']; [lia|].
    apply StronglySorted_inv in Hs. destruct Hs as [_ Hall].
    rewrite Forall_forall in Hall. now apply Hall.
Qed.

(** ** The exported configurations *)


Lemma split_comma_split_on (s : string) :
  split_comma s = split_on ","%char s.
Proof.
  induction s as [|c s IH]; [reflexivity|].
  cbn [split_comma split_on]. now rewrite IH.
Qed.

Lemma split_on_free (sep : ascii) (s : string) :
  char_free sep s = true -> split_on sep s = [s].
Proof.
  induction s as [|c s IH]; [reflexivity|].
  cbn [char_free split_on]. intros H. apply andb_prop in H as [Hc Hs].
  apply negb_true_iff in Hc. rewrite Hc, (IH Hs). reflexivity.
Qed.

Lemma split_on_app (sep : ascii) (s t : string) :
  char_free sep s = true ->
  split_on sep (s ++ String sep t) = s :: split_on sep t.
Proof.
  induction s as [|c s IH].
  - intros _. cbn [append split_on]. now rewrite Ascii.eqb_refl.
  - cbn [char_free]. intros H. apply andb_prop in H as [Hc Hs].
    apply negb_true_iff in Hc.
    change (String c s ++ String sep t)%string
      with (String c (s ++ String sep t)).
    cbn [split_on]. rewrite Hc, (IH Hs). reflexivity.
Qed.

Lemma split_on_join (sep : ascii) (l : list string) :
  l <> [] -> Forall (fun s => char_free sep s = true) l ->
  split_on sep (join (String sep "") l) = l.
Proof.
  intros Hne Hall. induction Hall as [|s l Hs Hall IH]; [congruence|].
  destruct l as [|t l].
  - cbn [join]. now apply split_on_free.
  - change (join (String sep "") (s :: t :: l))
      with (s ++ String sep (join (String sep "") (t :: l)))%string.
    rewrite split_on_app by exact Hs. rewrite IH by discriminate.
    reflexivity.
Qed.

Lemma split_comma_join (l : list string) :
  l <> [] -> Forall (fun s => char_free "," s = true) l ->
  split_comma (join "," l) = l.
Proof.
  intros Hne Hall. rewrite split_comma_split_on. now apply split_on_join.
Qed.

Lemma strings_of_map (l : list string) : strings_of (map PStr l) = Some l.
Proof.
  induction l as [|s l IH]; [reflexivity|]. cbn [map strings_of].
  now rewrite IH.
Qed.

Lemma join_plain_nonempty (l : list string) :
  l <> [] -> Forall (fun s => plain_name s = true) l ->
  (join "," l =? "")%string = false.
Proof.
  intros Hne Hall. destruct Hall as [|s l Hs _]; [congruence|].
  unfold plain_name in Hs. apply andb_prop in Hs as [Hs _].
  destruct s as [|c s]; [discriminate|].
  destruct l; reflexivity.
Qed.

Lemma tls_stream_alpn (config stream : dict) (transport alpn : pyval) :
  _build_stream_settings config [] (PStr "tls") transport = Ok stream ->
  split_if_truthy (get_or config "alpn" (PStr "")) = Ok alpn ->
  get_path (PDict stream) [Key "tlsSettings"; Key "alpn"]
  = if truthy alpn then Some alpn else None.
Proof.
  unfold _build_stream_settings. intros H Ha.
  destruct (security_settings config [] _ (PStr "tls")) as [s|] eqn:Es;
    [|discriminate].
  cbn [bind] in H. injection H as <-.
  unfold security_settings in Es.
  cbn [eq_str String.eqb Ascii.eqb Bool.eqb get get_or lookup] in Es.
  rewrite Ha in Es. cbn [bind] in Es.
  destruct (index config "address") as [address|]; cbn [bind] in Es;
    [|discriminate].
  injection Es as <-. cbn [get_path truthy]. unfold allow_insecure.
  destruct (truthy (get config "allow_insecure"));
    rewrite ?apply_sockopt_keeps_tls, ?lookup_set;
    cbn [String.eqb Ascii.eqb Bool.eqb];
    rewrite ?apply_sockopt_keeps_tls, ?lookup_set;
    cbn [String.eqb Ascii.eqb Bool.eqb];
    repeat match goal with
           | |- context [if ?c then _ else _] => destruct c
           end;
    rewrite ?lookup_set; cbn [String.eqb Ascii.eqb Bool.eqb lookup];
    reflexivity.
Qed.

(** X22.  The configuration exported for a result differs from the base
    configuration in at most the fingerprint, the ALPN and the name: every
    other key has the value of the base configuration, whatever the
    override set of the result holds, and the fingerprint is the one of the
    override set when it has one. *)
Theorem export_keeps_other_keys (base_config modified : dict) (i : Z)
  (r : TestResult) :
  modified_config base_config i r = Some modified ->
  (forall k, k <> "fingerprint" -> k <> "alpn" -> k <> "name" ->
     lookup modified k = lookup base_config k)
  /\ lookup modified "fingerprint"
     = match lookup (params r) "fingerprint" with
       | Some fp => Some fp
       | None => lookup base_config "fingerprint"
       end.
Proof.
  unfold modified_config, mem, get, get_or. intros H.
  assert (Hset : forall (d : dict) k k' v,
             k <> k' -> lookup (set d k' v) k = lookup d k).
  { intros d k k' v Hne. rewrite lookup_set.
    destruct (String.eqb_spec k' k); [congruence|reflexivity]. }
  destruct (lookup (params r) "fingerprint") as [fp|];
    destruct (lookup (params r) "alpn") as [alpn|];
    try (destruct alpn as [| | | |l|]; try destruct (strings_of l));
    try discriminate; injection H as <-;
    (split;
     [ intros k H1 H2 H3; rewrite ?Hset by assumption; reflexivity
     | rewrite ?lookup_set; cbn [String.eqb Ascii.eqb Bool.eqb];
       reflexivity ]).
Qed.

Lemma export_keeps_other_keys_witness :
  let r :=
    {| params := [("fragment_length", PStr "1-1"); ("fingerprint", PStr "qq")];
       description := "fragment_length=1-1 + fingerprint=qq";
       success := true; latency_ms := 120; speed_mbps := (-1 # 1)%Q;
       error := "" |} in
  exists modified,
    modified_config vless_plain 1 r = Some modified
    /\ lookup modified "fragment_length" = lookup vless_plain "fragment_length"
    /\ lookup modified "fingerprint" = Some (PStr "qq").
Proof.
  intros r. eexists. split; [reflexivity|].
  destruct (export_keeps_other_keys vless_plain _ 1 r eq_refl) as [Hk Hfp].
  split; [apply Hk; discriminate|exact Hfp].
Defined.

(** X23.  The ALPN list of a winning override set survives the export:
    for a non-empty list of protocol names, each not empty and without a
    comma, the exported configuration holds the names joined by commas, and
    the TLS settings built from the exported configuration without overrides
    hold the list again. *)
Theorem exported_alpn_reads_back (base_config : dict) (i : Z)
  (r : TestResult) (names : list string) :
  lookup (params r) "alpn" = Some (PList (map PStr names)) ->
  names <> [] ->
  Forall (fun s => plain_name s = true) names ->
  exists modified,
    modified_config base_config i r = Some modified
    /\ lookup modified "alpn" = Some (PStr (join "," names))
    /\ forall transport stream,
         _build_stream_settings modified [] (PStr "tls") transport = Ok stream ->
         get_path (PDict stream) [Key "tlsSettings"; Key "alpn"]
         = Some (PList (map PStr names)).
Proof.
  intros Ha Hne Hall. unfold modified_config, mem, get, get_or.
  rewrite Ha, strings_of_map. eexists. split; [reflexivity|].
  assert (Hl : forall d : dict,
             lookup (set (set d "alpn" (PStr (join "," names))) "name"
                       (PStr ("#" ++ str_of_Z i ++ "-"
                                  ++ str_of_Z (latency_ms r) ++ "ms-"
                                  ++ substring 0 40 (description r)))) "alpn"
             = Some (PStr (join "," names))).
  { intros d. rewrite !lookup_set. reflexivity. }
  split; [apply Hl|].
  intros transport stream Hs.
  assert (Hsplit : forall d : dict,
             lookup d "alpn" = Some (PStr (join "," names)) ->
             split_if_truthy (get_or d "alpn" (PStr ""))
             = Ok (PList (map PStr names))).
  { intros d Hd. unfold get_or. rewrite Hd. unfold split_if_truthy.
    cbn [truthy]. rewrite (join_plain_nonempty names Hne Hall). cbn [negb].
    rewrite split_comma_join; [reflexivity|exact Hne|].
    eapply Forall_impl; [|exact Hall]. cbn. unfold plain_name.
    intros s H. now apply andb_prop in H as [_ H]. }
  rewrite (tls_stream_alpn _ _ _ _ Hs (Hsplit _ (Hl _))).
  destruct names; [congruence|reflexivity].
Qed.

Lemma exported_alpn_reads_back_witness :
  let r :=
    {| params := [("alpn", PList [PStr "h2"; PStr "http/1.1"])];
       description := "alpn=['h2', 'http/1.1']";
       success := true; latency_ms := 95; speed_mbps := (-1 # 1)%Q;
       error := "" |} in
  exists modified,
    modified_config vless_plain 1 r = Some modified
    /\ lookup modified "alpn" = Some (PStr "h2,http/1.1").
Proof.
  intros r.
  destruct (exported_alpn_reads_back vless_plain 1 r ["h2"; "http/1.1"]
              eq_refl) as (modified & Hm & Hal & _).
  - discriminate.
  - repeat constructor.
  - exists modified. split; [exact Hm|exact Hal].
Defined.

(** ** Query strings *)

Lemma char_free_app (c : ascii) (s t : string) :
  char_free c (s ++ t) = char_free c s && char_free c t.
Proof.
  induction s as [|c' s IH]; [reflexivity|].
  cbn [append char_free]. rewrite IH. now rewrite andb_assoc.
Qed.

Lemma find_first (c : ascii) (k v : string) :
  char_free c k = true ->
  find c (k ++ String c v) = Some (String.length k).
Proof.
  induction k as [|c' k IH].
  - intros _. cbn [append find]. now rewrite Ascii.eqb_refl.
  - cbn [char_free append find String.length]. intros H.
    apply andb_prop in H as [Hc Hk]. apply negb_true_iff in Hc.
    now rewrite Hc, (IH Hk).
Qed.

Lemma substring_prefix (k rest : string) :
  substring 0 (String.length k) (k ++ rest) = k.
Proof.
  induction k as [|c k IH]; [now destruct rest|].
  cbn [String.length append substring]. now rewrite IH.
Qed.

Lemma substring_all (s : string) (m : nat) :
  (String.length s <= m)%nat -> substring 0 m s = s.
Proof.
  revert m. induction s as [|c s IH]; intros m Hm.
  - now destruct m.
  - destruct m as [|m]; [cbn in Hm; lia|].
    cbn [substring]. rewrite IH; [reflexivity|cbn in Hm; lia].
Qed.

Lemma substring_suffix (k rest : string) (m : nat) :
  (String.length rest <= m)%nat ->
  substring (String.length k) m (k ++ rest) = rest.
Proof.
  intros Hm. induction k as [|c k IH].
  - cbn [String.length append]. now apply substring_all.
  - cbn [String.length append substring]. exact IH.
Qed.

Lemma length_append (s t : string) :
  String.length (s ++ t) = (String.length s + String.length t)%nat.
Proof.
  induction s as [|c s IH]; [reflexivity|].
  cbn [append String.length]. now rewrite IH.
Qed.

Lemma append_assoc (a b c : string) :
  (a ++ (b ++ c))%string = ((a ++ b) ++ c)%string.
Proof.
  induction a as [|x a IH]; [reflexivity|]. cbn [append]. now rewrite IH.
Qed.

Lemma add_param_plain (params : list (string * string)) (k v : string) :
  (k =? "")%string = false -> char_free "=" k = true ->
  add_param params (k ++ "=" ++ v) = set params k v.
Proof.
  intros Hne Hk. unfold add_param.
  change (k ++ "=" ++ v)%string with (k ++ String "=" v)%string.
  rewrite (find_first _ _ _ Hk).
  destruct k as [|c k]; [discriminate|].
  cbn [String.length]. cbv beta iota zeta.
  change (S (String.length k)) with (String.length (String c k)).
  set (key := String c k) in *. f_equal.
  - apply substring_prefix.
  - replace (String.length key + 1)%nat
      with (String.length (key ++ "="))%string
      by (rewrite length_append; reflexivity).
    change (key ++ String "=" v)%string with (key ++ ("=" ++ v))%string.
    rewrite append_assoc, substring_suffix; [reflexivity|].
    rewrite !length_append. lia.
Qed.

Lemma split_on_nonempty (sep : ascii) (s : string) : split_on sep s <> [].
Proof.
  destruct s as [|c s]; cbn [split_on]; [discriminate|].
  destruct (Ascii.eqb c sep); [discriminate|].
  destruct (split_on sep s); discriminate.
Qed.

Lemma split_on_snoc (sep : ascii) (q p : string) :
  char_free sep p = true ->
  split_on sep (q ++ String sep p) = (split_on sep q ++ [p])%list.
Proof.
  intros Hp. induction q as [|c q IH].
  - cbn [append split_on]. rewrite Ascii.eqb_refl.
    now rewrite (split_on_free _ _ Hp).
  - cbn [append split_on]. rewrite IH.
    destruct (Ascii.eqb c sep); [reflexivity|].
    assert (Hne := split_on_nonempty sep q).
    destruct (split_on sep q); [congruence|reflexivity].
Qed.

Lemma append_nonempty (q : string) (c : ascii) (p : string) :
  (q ++ String c p =? "")%string = false.
Proof. now destruct q. Qed.

Lemma parse_query_snoc (q p : string) :
  char_free "&" p = true ->
  _parse_query (q ++ "&" ++ p) = add_param (_parse_query q) p.
Proof.
  intros Hp. unfold _parse_query.
  change (q ++ "&" ++ p)%string with (q ++ String "&" p)%string.
  rewrite append_nonempty, (split_on_snoc _ _ _ Hp), fold_left_app.
  cbn [fold_left]. destruct q as [|c q]; reflexivity.
Qed.

Lemma parse_query_join (ps : list string) :
  Forall (fun p => char_free "&" p = true) ps ->
  _parse_query (join "&" ps) = fold_left add_param ps [].
Proof.
  intros Hall. unfold _parse_query.
  destruct ps as [|p ps]; [reflexivity|].
  destruct (String.eqb_spec (join "&" (p :: ps)) "") as [He|Hne].
  - destruct ps as [|p' ps].
    + cbn [join] in He. subst p. reflexivity.
    + exfalso. change (join "&" (p :: p' :: ps))
        with (p ++ String "&" (join "&" (p' :: ps)))%string in He.
      now destruct p.
  - change "&"%string with (String "&"%char "").
    rewrite split_on_join; [reflexivity|discriminate|exact Hall].
Qed.

(** X24.  [_parse_query] reads back a query string put together from
    pairs: for keys that are not empty and hold neither [=] nor [&], and
    values without [&], the parameters [key=value] joined by [&] parse to
    the dictionary that takes the pairs in order, a later pair replacing the
    value of an earlier one with the same key.  A value may hold [=]. *)
Theorem parse_query_round_trip (pairs : list (string * string)) :
  Forall (fun kv => plain_param kv = true) pairs ->
  _parse_query (join "&" (map (fun kv => fst kv ++ "=" ++ snd kv) pairs))
  = update [] pairs.
Proof.
  intros Hall. rewrite parse_query_join.
  - unfold update. generalize (@nil (string * string)).
    induction Hall as [|[k v] pairs Hkv _ IH]; intros acc; [reflexivity|].
    cbn [map fold_left fst snd]. unfold plain_param in Hkv. cbn [fst snd] in Hkv.
    apply andb_prop in Hkv as [Hkv _]. apply andb_prop in Hkv as [Hkv _].
    apply andb_prop in Hkv as [Hne Heq]. apply negb_true_iff in Hne.
    rewrite (add_param_plain acc k v Hne Heq). apply IH.
  - apply Forall_map. eapply Forall_impl; [|exact Hall].
    intros [k v]. unfold plain_param. cbn [fst snd]. intros H.
    apply andb_prop in H as [H Hv]. apply andb_prop in H as [_ Hk].
    rewrite !char_free_app, Hk, Hv. reflexivity.
Qed.

Lemma parse_query_round_trip_witness :
  _parse_query "security=tls&type=ws&path=/a=b&type=grpc"
  = [ ("security", "tls"); ("type", "grpc"); ("path", "/a=b") ]%string.
Proof.
  apply (parse_query_round_trip
           [ ("security", "tls"); ("type", "ws"); ("path", "/a=b");
             ("type", "grpc") ]%string).
  repeat constructor.
Defined.

(** ** The fragment parameter of a vless URI *)

Lemma split_comma_three (a b c : string) :
  char_free "," a = true -> char_free "," b = true ->
  char_free "," c = true ->
  split_comma (a ++ "," ++ b ++ "," ++ c) = [a; b; c].
Proof.
  intros Ha Hb Hc. rewrite split_comma_split_on.
  change (a ++ "," ++ b ++ "," ++ c)%string
    with (a ++ String "," (b ++ String "," c))%string.
  rewrite (split_on_app _ _ _ Ha), (split_on_app _ _ _ Hb),
    (split_on_free _ _ Hc).
  reflexivity.
Qed.

Lemma fragment_keys_three (params : list (string * string)) (base : dict)
  (a b c : string) :
  lookup params "fragment" = Some (a ++ "," ++ b ++ "," ++ c)%string ->
  char_free "," a = true -> char_free "," b = true ->
  char_free "," c = true ->
  fragment_keys params base
  = set (set (set base "fragment_length" (PStr a))
           "fragment_interval" (PStr b))
      "fragment_packets" (PStr c).
Proof.
  intros Hl Ha Hb Hc. unfold fragment_keys. rewrite Hl.
  change (a ++ "," ++ b ++ "," ++ c)%string
    with (a ++ String "," (b ++ "," ++ c))%string at 1.
  rewrite append_nonempty. cbn [negb].
  now rewrite (split_comma_three a b c Ha Hb Hc).
Qed.

Lemma fragment_parameter_free (a b c : string) :
  char_free "&" a = true -> char_free "&" b = true ->
  char_free "&" c = true ->
  char_free "&" ("fragment" ++ "=" ++ a ++ "," ++ b ++ "," ++ c) = true.
Proof.
  intros Ha Hb Hc.
  change ("fragment" ++ "=" ++ a ++ "," ++ b ++ "," ++ c)%string
    with ("fragment=" ++ (a ++ ("," ++ (b ++ ("," ++ c)))))%string.
  rewrite !char_free_app, Ha, Hb, Hc. reflexivity.
Qed.

(** X25.  The fragment parameter [_build_vless] writes is read back by
    [_parse_query] and [_parse_vless]: for a configuration with a truthy
    fragment length, whose three fragment values print without a comma and
    without [&], the query string that ends with the parameter gives back
    the three keys, as the printed length, interval and packets, the
    interval and the packets "10-20" and "tlshello" where the configuration
    has none. *)
Theorem fragment_param_round_trip (config : dict) :
  let a := str (get config "fragment_length") in
  let b := str (get_or config "fragment_interval" (PStr "10-20")) in
  let c := str (get_or config "fragment_packets" (PStr "tlshello")) in
  truthy (get config "fragment_length") = true ->
  Forall (fun s => char_free "," s = true /\ char_free "&" s = true)
    [a; b; c] ->
  exists frag,
    fragment_param config = Some frag
    /\ forall query base,
         fragment_keys (_parse_query (query ++ "&fragment=" ++ frag)) base
         = set (set (set base "fragment_length" (PStr a))
                  "fragment_interval" (PStr b))
             "fragment_packets" (PStr c).
Proof.
  intros a b c Ht Hall.
  apply Forall_cons_iff in Hall as [[Ha Ha'] Hall].
  apply Forall_cons_iff in Hall as [[Hb Hb'] Hall].
  apply Forall_cons_iff in Hall as [[Hc Hc'] _].
  unfold fragment_param. rewrite Ht. fold a b c.
  eexists. split; [reflexivity|]. intros query base.
  apply fragment_keys_three; [|exact Ha|exact Hb|exact Hc].
  change (query ++ "&fragment=" ++ a ++ "," ++ b ++ "," ++ c)%string
    with (query ++ "&" ++ ("fragment" ++ "=" ++ (a ++ "," ++ b ++ "," ++ c)))%string.
  rewrite parse_query_snoc.
  - rewrite add_param_plain by reflexivity. rewrite lookup_set. reflexivity.
  - apply fragment_parameter_free; assumption.
Qed.

Lemma fragment_param_round_trip_witness :
  exists frag,
    fragment_param vless_with_fragment = Some frag
    /\ fragment_keys
         (_parse_query ("encryption=none&security=tls" ++ "&fragment=" ++ frag))
         []
       = [ ("fragment_length",
             PStr (str (get vless_with_fragment "fragment_length")));
           ("fragment_interval",
             PStr (str (get_or vless_with_fragment "fragment_interval"
                          (PStr "10-20"))));
           ("fragment_packets",
             PStr (str (get_or vless_with_fragment "fragment_packets"
                          (PStr "tlshello")))) ].
Proof.
  destruct (fragment_param_round_trip vless_with_fragment eq_refl)
    as (frag & Hf & Hk).
  - repeat constructor.
  - exists frag. split; [exact Hf|].
    exact (Hk "encryption=none&security=tls"%string []).
Defined.

(** X26.  The fragment parameter of a vless URI reaches the document: a
    parameter of three parts makes the builder emit, without overrides, the
    fragment block of the three parts, an empty part replaced by its
    default and no block at all when the three are empty; a parameter of
    two parts is dropped, the configuration is left as it was. *)
Theorem uri_fragment_reaches_document (params : list (string * string))
  (base doc : dict) (socks_port : Z) (a b c : string) :
  char_free "," a = true -> char_free "," b = true ->
  char_free "," c = true ->
  eq_str (get base "protocol") "vless" = true ->
  (lookup params "fragment" = Some (a ++ "," ++ b ++ "," ++ c)%string ->
   build_xray_json (fragment_keys params base) [] socks_port = Ok doc ->
   get_path (PDict doc) (in_stream ["sockopt"; "fragment"])
   = fragment_block (PStr a) (PStr b) (PStr c))
  /\ (lookup params "fragment" = Some (a ++ "," ++ b)%string ->
      fragment_keys params base = base).
Proof.
  intros Ha Hb Hc Hp. split.
  - intros Hl Hbuild.
    rewrite (fragment_keys_three params base a b c Hl Ha Hb Hc) in *.
    rewrite (built_fragment_block _ _ _ _ Hbuild).
    unfold sockopt_config, get, get_or in *. rewrite !lookup_set in *.
    cbn [String.eqb Ascii.eqb Bool.eqb] in *.
    destruct (lookup base "protocol") as [[]|]; try discriminate.
    cbn [eq_str] in Hp. apply String.eqb_eq in Hp. subst.
    cbn [eq_str String.eqb Ascii.eqb Bool.eqb lookup].
    rewrite !lookup_set. reflexivity.
  - intros Hl. unfold fragment_keys. rewrite Hl.
    change (a ++ "," ++ b)%string with (a ++ String "," b)%string.
    rewrite append_nonempty. cbn [negb].
    rewrite split_comma_split_on, (split_on_app _ _ _ Ha),
      (split_on_free _ _ Hb).
    reflexivity.
Qed.

Lemma uri_fragment_reaches_document_witness :
  exists doc,
    build_xray_json
      (fragment_keys [("fragment", "10-20,,tlshello")%string] vless_plain)
      [] 10808 = Ok doc
    /\ get_path (PDict doc) (in_stream ["sockopt"; "fragment"])
       = Some (PDict [ ("packets", PStr "tlshello");
                       ("length", PStr "10-20");
                       ("interval", PStr "10-20") ]).
Proof.
  destruct (build_xray_json
              (fragment_keys [("fragment", "10-20,,tlshello")%string]
                 vless_plain) [] 10808) as [doc|e] eqn:E;
    [|vm_compute in E; discriminate].
  exists doc. split; [reflexivity|].
  destruct (uri_fragment_reaches_document
              [("fragment", "10-20,,tlshello")%string] vless_plain doc 10808
              "10-20" "" "tlshello" eq_refl eq_refl eq_refl eq_refl)
    as [H _].
  exact (H eq_refl E).
Defined.

(** ** The keys of the overrides a build reads *)


Lemma apply_sockopt_ext (s o1 o2 : dict) (config : option dict) :
  (forall k, In k sockopt_keys -> lookup o1 k = lookup o2 k) ->
  _apply_sockopt s o1 config = _apply_sockopt s o2 config.
Proof.
  intros H. unfold _apply_sockopt, mem, get. rewrite !(get_or_lookup o1).
  rewrite !(H "fragment_length"), !(H "fragment_interval"),
    !(H "fragment_packets"), !(H "tcp_no_delay"), !(H "tcp_fast_open"),
    !(H "mptcp"), !(H "tcp_keep_alive"), !(H "domain_strategy")
    by (cbn; tauto).
  reflexivity.
Qed.

Lemma transport_settings_ext (config o1 o2 stream : dict) (transport : pyval) :
  (eq_str transport "xhttp" = true ->
   lookup o1 "xhttp_mode" = lookup o2 "xhttp_mode") ->
  transport_settings config o1 stream transport
  = transport_settings config o2 stream transport.
Proof.
  intros H. unfold transport_settings.
  destruct (eq_str transport "ws"); [reflexivity|].
  destruct (eq_str transport "grpc"); [reflexivity|].
  destruct (eq_str transport "h2"); [reflexivity|].
  destruct (eq_str transport "xhttp"); [|reflexivity].
  unfold get. rewrite !(get_or_lookup o1), (H eq_refl). reflexivity.
Qed.

Lemma security_settings_ext (config o1 o2 stream : dict) (security : pyval) :
  (eq_str security "reality" = true \/ eq_str security "tls" = true ->
   lookup o1 "fingerprint" = lookup o2 "fingerprint") ->
  (eq_str security "reality" = false -> eq_str security "tls" = true ->
   lookup o1 "alpn" = lookup o2 "alpn"
   /\ lookup o1 "ech_enabled" = lookup o2 "ech_enabled"
   /\ lookup o1 "ech_dns" = lookup o2 "ech_dns") ->
  security_settings config o1 stream security
  = security_settings config o2 stream security.
Proof.
  intros Hfp Htls. unfold security_settings.
  destruct (eq_str security "reality").
  - rewrite !(get_or_lookup o1), (Hfp (or_introl eq_refl)). reflexivity.
  - destruct (eq_str security "tls"); [|reflexivity].
    destruct (Htls eq_refl eq_refl) as (Ha & He & Hd).
    unfold get. rewrite !(get_or_lookup o1), (Hfp (or_intror eq_refl)).
    rewrite Ha, He, Hd. reflexivity.
Qed.

Lemma stream_settings_ext (config o1 o2 : dict) (security transport : pyval) :
  (eq_str transport "xhttp" = true ->
   lookup o1 "xhttp_mode" = lookup o2 "xhttp_mode") ->
  (eq_str security "reality" = true \/ eq_str security "tls" = true ->
   lookup o1 "fingerprint" = lookup o2 "fingerprint") ->
  (eq_str security "reality" = false -> eq_str security "tls" = true ->
   lookup o1 "alpn" = lookup o2 "alpn"
   /\ lookup o1 "ech_enabled" = lookup o2 "ech_enabled"
   /\ lookup o1 "ech_dns" = lookup o2 "ech_dns") ->
  (forall k, In k sockopt_keys -> lookup o1 k = lookup o2 k) ->
  _build_stream_settings config o1 security transport
  = _build_stream_settings config o2 security transport.
Proof.
  intros Hx Hfp Htls Hso. unfold _build_stream_settings.
  rewrite (transport_settings_ext config o1 o2 _ transport Hx).
  rewrite (security_settings_ext config o1 o2 _ security Hfp Htls).
  destruct (security_settings config o2 _ security); [|reflexivity].
  cbn [bind]. now rewrite (apply_sockopt_ext _ o1 o2 _ Hso).
Qed.

Lemma stream_settings_reads (config o1 o2 : dict) :
  eq_str (get config "protocol") "shadowsocks" = false ->
  (forall k, In k (keys_read config o1) -> lookup o1 k = lookup o2 k) ->
  transport_of config o1 = transport_of config o2
  /\ _build_stream_settings config o1 (security_of config)
       (transport_of config o1)
     = _build_stream_settings config o2 (security_of config)
         (transport_of config o1).
Proof.
  intros Hss H. unfold keys_read in H. rewrite Hss in H.
  assert (Ht : lookup o1 "transport" = lookup o2 "transport")
    by (apply H; now left).
  split; [unfold transport_of; now rewrite !(get_or_lookup _ "transport"), Ht|].
  apply stream_settings_ext.
  - intros E. apply H. right. rewrite E. now left.
  - intros E. apply H. right. apply in_or_app. right. apply in_or_app. left.
    destruct E as [E|E]; rewrite E; [now left|].
    destruct (eq_str (security_of config) "reality"); now left.
  - intros E1 E2. rewrite E1, E2 in H.
    repeat split; apply H; right; apply in_or_app; right; apply in_or_app;
      left; cbn; tauto.
  - intros k Hk. apply H. right. apply in_or_app. right. apply in_or_app.
    now right.
Qed.

Lemma build_reads (config o1 o2 : dict) (socks_port : Z) :
  (forall k, In k (keys_read config o1) -> lookup o1 k = lookup o2 k) ->
  build_xray_json config o1 socks_port = build_xray_json config o2 socks_port.
Proof.
  intros H. unfold build_xray_json.
  destruct (index config "protocol") as [protocol|] eqn:Ep; [|reflexivity].
  cbn [bind].
  assert (Hp : get config "protocol" = protocol).
  { unfold index, get, get_or in *.
    destruct (lookup config "protocol"); congruence. }
  destruct (eq_str protocol "vless") eqn:E1.
  - apply eq_str_eq in E1. subst protocol.
    destruct (stream_settings_reads config o1 o2) as [Ht Hs];
      [now rewrite E1|exact H|].
    unfold security_of, transport_of in *. rewrite E1 in *.
    cbn [eq_str String.eqb Ascii.eqb Bool.eqb] in *.
    unfold _build_vless_outbound. now rewrite <- Ht, Hs.
  - destruct (eq_str protocol "vmess") eqn:E2.
    + apply eq_str_eq in E2. subst protocol.
      destruct (stream_settings_reads config o1 o2) as [Ht Hs];
        [now rewrite E2|exact H|].
      unfold security_of, transport_of in *. rewrite E2 in *.
      cbn [eq_str String.eqb Ascii.eqb Bool.eqb] in *.
      unfold _build_vmess_outbound. now rewrite <- Ht, Hs.
    + destruct (eq_str protocol "trojan") eqn:E3.
      * apply eq_str_eq in E3. subst protocol.
        destruct (stream_settings_reads config o1 o2) as [Ht Hs];
          [now rewrite E3|exact H|].
        unfold security_of, transport_of in *. rewrite E3 in *.
        cbn [eq_str String.eqb Ascii.eqb Bool.eqb] in *.
        unfold _build_trojan_outbound. now rewrite <- Ht, Hs.
      * destruct (eq_str protocol "shadowsocks") eqn:E4; [|reflexivity].
        unfold keys_read in H. rewrite Hp, E4 in H.
        unfold _build_shadowsocks_outbound.
        now rewrite (apply_sockopt_ext _ o1 o2 None H).
Qed.

(** X27.  A build looks up only some keys of the overrides: "transport",
    "xhttp_mode" when the transport is "xhttp", the fingerprint under
    REALITY and TLS, the ALPN and the two ECH keys under TLS, and the eight
    keys of the socket options; a shadowsocks build the eight keys of the
    socket options alone.  Two override sets with the same values for these
    keys give the same document, or the same exception. *)
Theorem build_reads_only_its_keys (config o1 o2 : dict) (socks_port : Z) :
  (forall k, In k (keys_read config o1) -> lookup o1 k = lookup o2 k) ->
  build_xray_json config o1 socks_port = build_xray_json config o2 socks_port.
Proof. apply build_reads. Qed.

Lemma build_reads_only_its_keys_witness :
  build_xray_json shadowsocks_with_fragment
    [("fingerprint", PStr "chrome"); ("tcp_no_delay", PBool true)] 10808
  = build_xray_json shadowsocks_with_fragment
      [("tcp_no_delay", PBool true); ("transport", PStr "grpc")] 10808.
Proof.
  apply (build_reads_only_its_keys shadowsocks_with_fragment
           [("fingerprint", PStr "chrome"); ("tcp_no_delay", PBool true)]
           [("tcp_no_delay", PBool true); ("transport", PStr "grpc")] 10808).
  intros k Hk. cbn in Hk.
  repeat (destruct Hk as [<-|Hk]; [reflexivity|]). contradiction.
Defined.

(** X28.  A sweep case on a key the build of the configuration does not
    read probes the baseline again: its document is the document without
    overrides.  So it is with "xhttp_mode" on a transport other than
    "xhttp", with the ALPN and the ECH keys without TLS, and with every key
    but those of the socket options on shadowsocks. *)
Theorem unread_key_builds_the_baseline (config : dict) (key : string)
  (value : pyval) (socks_port : Z) :
  ~ In key (keys_read config []) ->
  build_xray_json config [(key, value)] socks_port
  = build_xray_json config [] socks_port.
Proof.
  intros Hkey. symmetry. apply build_reads.
  intros k Hk. cbn [lookup].
  destruct (String.eqb_spec key k) as [->|Hne]; [contradiction|reflexivity].
Qed.

Lemma unread_key_builds_the_baseline_witness :
  build_xray_json vless_plain [("xhttp_mode", PStr "packet-up")] 10808
  = build_xray_json vless_plain [] 10808.
Proof.
  apply (unread_key_builds_the_baseline vless_plain "xhttp_mode"
           (PStr "packet-up") 10808).
  cbn. intuition discriminate.
Defined.

(** ** Network and security of the stream settings *)

Lemma built_stream_of (config overrides doc : dict) (socks_port : Z) :
  build_xray_json config overrides socks_port = Ok doc ->
  eq_str (get config "protocol") "shadowsocks" = false ->
  exists stream,
    get_path (PDict doc) stream_path = Some (PDict stream)
    /\ _build_stream_settings config overrides (security_of config)
         (transport_of config overrides) = Ok stream.
Proof.
  unfold build_xray_json. intros Hb Hss.
  assert (Hp : index config "protocol" = Ok (get config "protocol")).
  { unfold index, get, get_or in *.
    destruct (lookup config "protocol"); [reflexivity|discriminate]. }
  rewrite Hp in Hb. cbn [bind] in Hb.
  unfold security_of, transport_of.
  set (protocol := get config "protocol") in *.
  assert (Hstream :
    forall sec transport proto settings,
      (outbound <-
         (stream <- _build_stream_settings config overrides sec transport ;;
          Ok [ ("tag", PStr "proxy"); ("protocol", proto);
               ("settings", settings); ("streamSettings", PDict stream) ]) ;;
       Ok [ ("log", PDict [ ("loglevel", PStr "warning") ]);
            ("inbounds",
              PList [ PDict [ ("tag", PStr "socks-in");
                              ("port", PInt socks_port);
                              ("listen", PStr "127.0.0.1");
                              ("protocol", PStr "socks");
                              ("settings",
                                PDict [ ("auth", PStr "noauth");
                                        ("udp", PBool true) ]) ] ]);
            ("outbounds", PList [PDict outbound]) ]) = Ok doc ->
      exists stream,
        get_path (PDict doc) stream_path = Some (PDict stream)
        /\ _build_stream_settings config overrides sec transport = Ok stream).
  { intros sec transport proto settings H.
    destruct (_build_stream_settings config overrides sec transport)
      as [stream|] eqn:E; [|discriminate].
    cbn [bind] in H. injection H as <-.
    exists stream. split; reflexivity. }
  destruct (eq_str protocol "vless") eqn:E1.
  - assert (E2 : eq_str protocol "vmess" = false).
    { apply eq_str_eq in E1. now rewrite E1. }
    rewrite E2. unfold _build_vless_outbound in Hb.
    destruct (index config "address"), (index config "port"),
      (index config "uuid"); cbn [bind] in Hb; try discriminate.
    exact (Hstream _ _ _ _ Hb).
  - destruct (eq_str protocol "vmess") eqn:E2.
    + unfold _build_vmess_outbound in Hb.
      destruct (index config "address"), (index config "port"),
        (index config "uuid"); cbn [bind] in Hb; try discriminate.
      exact (Hstream _ _ _ _ Hb).
    + destruct (eq_str protocol "trojan") eqn:E3.
      * unfold _build_trojan_outbound in Hb.
        destruct (index config "address"), (index config "port"),
          (index config "password"); cbn [bind] in Hb; try discriminate.
        exact (Hstream _ _ _ _ Hb).
      * rewrite Hss in Hb. discriminate.
Qed.

Lemma transport_settings_lookup (config overrides : dict)
  (transport : pyval) (k : string) :
  In k ["network"; "security"; "tlsSettings"; "realitySettings"] ->
  lookup (transport_settings config overrides [("network", transport)]
            transport) k
  = lookup [("network", transport)] k.
Proof.
  intros Hk. unfold transport_settings.
  repeat match goal with
         | |- context [if eq_str ?a ?b then _ else _] => destruct (eq_str a b)
         end;
    rewrite ?lookup_set;
    cbn in Hk; intuition (subst; reflexivity).
Qed.

Lemma apply_sockopt_lookup (s overrides : dict) (config : option dict)
  (k : string) :
  k <> "sockopt" ->
  lookup (_apply_sockopt s overrides config) k = lookup s k.
Proof.
  intros Hk.
  destruct (apply_sockopt_shape s overrides config) as [->|(so & ->)];
    [reflexivity|].
  rewrite lookup_set.
  destruct (String.eqb_spec "sockopt" k); [congruence|reflexivity].
Qed.

Lemma allow_insecure_lookup (config stream : dict) (k : string) :
  (lookup (allow_insecure config stream) k = None <-> lookup stream k = None)
  /\ (k <> "tlsSettings" ->
      lookup (allow_insecure config stream) k = lookup stream k).
Proof.
  unfold allow_insecure.
  destruct (truthy (get config "allow_insecure")); [|tauto].
  destruct (lookup stream "tlsSettings") as [[]|] eqn:E; try tauto.
  rewrite lookup_set. destruct (String.eqb_spec "tlsSettings" k) as [<-|Hne].
  - rewrite E. split; [split; discriminate|congruence].
  - tauto.
Qed.

Lemma security_settings_lookup (config overrides t s : dict)
  (security : pyval) :
  security_settings config overrides t security = Ok s ->
  lookup s "security"
  = Some (PStr (if eq_str security "reality" then "reality"
                else if eq_str security "tls" then "tls" else "none"))
  /\ lookup s "network" = lookup t "network"
  /\ (lookup t "tlsSettings" = None ->
      (lookup s "tlsSettings" = None
       <-> ~ (eq_str security "reality" = false
              /\ eq_str security "tls" = true)))
  /\ (lookup t "realitySettings" = None ->
      (lookup s "realitySettings" = None
       <-> eq_str security "reality" <> true)).
Proof.
  unfold security_settings.
  destruct (eq_str security "reality");
    [|destruct (eq_str security "tls")]; intros H.
  - injection H as <-. rewrite !lookup_set.
    cbn [String.eqb Ascii.eqb Bool.eqb]. intuition congruence.
  - repeat match type of H with
           | context [bind ?m _] =>
               destruct m; cbn [bind] in H; [|discriminate H]
           end.
    injection H as <-. rewrite !lookup_set.
    cbn [String.eqb Ascii.eqb Bool.eqb]. intuition congruence.
  - injection H as <-. rewrite !lookup_set.
    cbn [String.eqb Ascii.eqb Bool.eqb]. intuition congruence.
Qed.

Lemma some_dict_get (stream : dict) (k : string) :
  get_opt (Some (PDict stream)) [Key k] = lookup stream k.
Proof. cbn. now destruct (lookup stream k). Qed.

(** X29.  In every document built for vless, vmess or trojan, the stream
    settings name the transport and the security the builder worked with:
    the network is the transport override, else the transport of the
    configuration, else the default of the protocol; the security is
    "reality", "tls" or "none"; there are TLS settings exactly under "tls" and
    REALITY settings exactly under "reality". *)
Theorem stream_names_transport_and_security (config overrides doc : dict)
  (socks_port : Z) :
  build_xray_json config overrides socks_port = Ok doc ->
  eq_str (get config "protocol") "shadowsocks" = false ->
  let security := security_of config in
  get_path (PDict doc) (in_stream ["network"])
  = Some (transport_of config overrides)
  /\ get_path (PDict doc) (in_stream ["security"])
     = Some (PStr (if eq_str security "reality" then "reality"
                   else if eq_str security "tls" then "tls" else "none"))
  /\ (get_path (PDict doc) (in_stream ["tlsSettings"]) = None
      <-> ~ (eq_str security "reality" = false
             /\ eq_str security "tls" = true))
  /\ (get_path (PDict doc) (in_stream ["realitySettings"]) = None
      <-> eq_str security "reality" <> true).
Proof.
  intros Hb Hss security.
  destruct (built_stream_of _ _ _ _ Hb Hss) as (stream & Hs & Hst).
  unfold in_stream. rewrite !get_path_app, Hs. cbn [map].
  rewrite !some_dict_get. fold security in Hst.
  unfold _build_stream_settings in Hst.
  destruct (security_settings config overrides _ security) as [s|] eqn:Es;
    [|discriminate].
  cbn [bind] in Hst. injection Hst as <-.
  destruct (security_settings_lookup _ _ _ _ _ Es) as (H1 & H2 & H3 & H4).
  rewrite !transport_settings_lookup in * by (cbn; tauto).
  cbn [lookup String.eqb Ascii.eqb Bool.eqb] in *.
  destruct (allow_insecure_lookup config
              (_apply_sockopt s overrides (Some config)) "network")
    as [_ ->]; [|discriminate].
  destruct (allow_insecure_lookup config
              (_apply_sockopt s overrides (Some config)) "security")
    as [_ ->]; [|discriminate].
  destruct (allow_insecure_lookup config
              (_apply_sockopt s overrides (Some config)) "tlsSettings")
    as [-> _].
  destruct (allow_insecure_lookup config
              (_apply_sockopt s overrides (Some config)) "realitySettings")
    as [-> _].
  rewrite !apply_sockopt_lookup by discriminate.
  split; [exact H2|]. split; [exact H1|].
  split; [apply H3|apply H4]; reflexivity.
Qed.

Lemma stream_names_transport_and_security_witness :
  exists doc,
    build_xray_json vless_plain [("transport", PStr "grpc")] 10808 = Ok doc
    /\ get_path (PDict doc) (in_stream ["network"]) = Some (PStr "grpc").
Proof.
  destruct (build_xray_json vless_plain [("transport", PStr "grpc")] 10808)
    as [doc|e] eqn:E; [|vm_compute in E; discriminate].
  exists doc. split; [reflexivity|].
  exact (proj1 (stream_names_transport_and_security vless_plain
                  [("transport", PStr "grpc")] doc 10808 E eq_refl)).
Defined.
